(** * The PostgreSQL store of pirsch: merge-upsert and batch hit ingest

    A shallow embedding of [postgres.go].  The Go methods of [PostgresStore]
    are Rocq functions in a state monad over a [World] that holds the
    relational engine the store talks to.  The SQL statements the methods pass
    to the engine are kept as data: the literal statements as syntax trees
    that follow the SQL text clause by clause, the statement [SaveHits]
    assembles at run time as the text it builds, which the engine parses. *)

From Stdlib Require Import ZArith List String Ascii Bool Lia Permutation.
From Stdlib Require Import Decimal DecimalString DecimalNat.
Import ListNotations.

Local Open Scope string_scope.
Local Open Scope Z_scope.
Local Open Scope list_scope.

Set Implicit Arguments.

(** ** Values and rows of the engine *)

Inductive value : Type :=
| VNull
| VInt (n : Z)
| VText (s : string)
| VBool (b : bool)
| VTime (t : Z)      (* a timestamp, in seconds *)
| VDate (d : Z).     (* a calendar day, in days *)

Definition value_eq_dec (a b : value) : {a = b} + {a <> b}.
Proof.
  decide equality; first [apply Z.eq_dec | apply string_dec | apply bool_dec].
Defined.

Definition row_eq_dec : forall a b : list value, {a = b} + {a <> b} :=
  list_eq_dec value_eq_dec.

(** Seconds in [INTERVAL '1 day']. *)
Definition one_day : Z := 86400.

(** [date(t)]: the calendar day a timestamp falls on. *)
Definition date_of (t : Z) : Z := t / one_day.

(** A row binds column names to values, in schema order. *)
Definition Row : Type := list (string * value).

Fixpoint row_get (c : string) (r : Row) : option value :=
  match r with
  | [] => None
  | (c', v) :: r' => if String.eqb c c' then Some v else row_get c r'
  end.

Fixpoint row_set (c : string) (v : value) (r : Row) : Row :=
  match r with
  | [] => []
  | (c', v') :: r' =>
      if String.eqb c c' then (c', v) :: r' else (c', v') :: row_set c v r'
  end.

Record Table : Type := mkTable {
  rows : list Row;
  serial : Z          (* next value of the [id] sequence *)
}.

(** ** The persisted schema *)

Inductive kind : Type := KInt | KText | KBool | KTime | KDate.

Record column : Type := mkColumn {
  col_name : string;
  col_kind : kind;
  col_nullable : bool
}.

Definition schema : Type := list column.

Definition has_kind (k : kind) (nullable : bool) (v : value) : bool :=
  match v, k with
  | VNull, _ => nullable
  | VInt _, KInt => true
  | VText _, KText => true
  | VBool _, KBool => true
  | VTime _, KTime => true
  | VDate _, KDate => true
  | _, _ => false
  end.

Fixpoint row_conforms (s : schema) (r : Row) : bool :=
  match s, r with
  | [], [] => true
  | c :: s', (n, v) :: r' =>
      String.eqb (col_name c) n && has_kind (col_kind c) (col_nullable c) v
      && row_conforms s' r'
  | _, _ => false
  end.

Definition text_col (n : string) : column := mkColumn n KText false.
Definition int_col (n : string) : column := mkColumn n KInt false.

(** Modelled from the spec: the table definitions are not part of
    [postgres.go].  Section 6 of the specification gives the columns of
    ["hit"], which are also the column list of the INSERT in [SaveHits]. *)
Definition hit_schema : schema :=
  [ mkColumn "tenant_id" KInt true;
    text_col "fingerprint"; text_col "path"; text_col "url";
    text_col "language"; text_col "user_agent"; text_col "ref";
    text_col "os"; text_col "os_version";
    text_col "browser"; text_col "browser_version";
    mkColumn "desktop" KBool false; mkColumn "mobile" KBool false;
    mkColumn "time" KTime false ].

(** Modelled from the spec: every aggregate table has the surrogate [id],
    the nullable [tenant_id], [day], [path], its key columns and counters. *)
Definition stats_schema (keys : list column) (counters : list column) : schema :=
  [ int_col "id"; mkColumn "tenant_id" KInt true;
    mkColumn "day" KDate false; text_col "path" ] ++ keys ++ counters.

Definition visitor_stats_schema : schema :=
  stats_schema []
    [ int_col "visitors"; int_col "platform_desktop";
      int_col "platform_mobile"; int_col "platform_unknown" ].

Definition visitor_time_stats_schema : schema :=
  stats_schema [ int_col "hour" ] [ int_col "visitors" ].

Definition language_stats_schema : schema :=
  stats_schema [ text_col "language" ] [ int_col "visitors" ].

Definition referrer_stats_schema : schema :=
  stats_schema [ text_col "referrer" ] [ int_col "visitors" ].

Definition os_stats_schema : schema :=
  stats_schema [ text_col "os"; text_col "os_version" ] [ int_col "visitors" ].

Definition browser_stats_schema : schema :=
  stats_schema [ text_col "browser"; text_col "browser_version" ]
    [ int_col "visitors" ].

Record Database : Type := mkDatabase {
  hit : Table;
  visitor_stats : Table;
  visitor_time_stats : Table;
  language_stats : Table;
  referrer_stats : Table;
  os_stats : Table;
  browser_stats : Table
}.

Inductive table_name : Type :=
| T_hit | T_visitor_stats | T_visitor_time_stats | T_language_stats
| T_referrer_stats | T_os_stats | T_browser_stats.

(** Name resolution of the quoted table identifiers. *)
Definition resolve_table (name : string) : option table_name :=
  if String.eqb name "hit" then Some T_hit
  else if String.eqb name "visitor_stats" then Some T_visitor_stats
  else if String.eqb name "visitor_time_stats" then Some T_visitor_time_stats
  else if String.eqb name "language_stats" then Some T_language_stats
  else if String.eqb name "referrer_stats" then Some T_referrer_stats
  else if String.eqb name "os_stats" then Some T_os_stats
  else if String.eqb name "browser_stats" then Some T_browser_stats
  else None.

Definition schema_of (t : table_name) : schema :=
  match t with
  | T_hit => hit_schema
  | T_visitor_stats => visitor_stats_schema
  | T_visitor_time_stats => visitor_time_stats_schema
  | T_language_stats => language_stats_schema
  | T_referrer_stats => referrer_stats_schema
  | T_os_stats => os_stats_schema
  | T_browser_stats => browser_stats_schema
  end.

Definition get_table (t : table_name) (db : Database) : Table :=
  match t with
  | T_hit => hit db
  | T_visitor_stats => visitor_stats db
  | T_visitor_time_stats => visitor_time_stats db
  | T_language_stats => language_stats db
  | T_referrer_stats => referrer_stats db
  | T_os_stats => os_stats db
  | T_browser_stats => browser_stats db
  end.

Definition set_table (t : table_name) (x : Table) (db : Database) : Database :=
  match t with
  | T_hit =>
      mkDatabase x (visitor_stats db) (visitor_time_stats db)
        (language_stats db) (referrer_stats db) (os_stats db) (browser_stats db)
  | T_visitor_stats =>
      mkDatabase (hit db) x (visitor_time_stats db)
        (language_stats db) (referrer_stats db) (os_stats db) (browser_stats db)
  | T_visitor_time_stats =>
      mkDatabase (hit db) (visitor_stats db) x
        (language_stats db) (referrer_stats db) (os_stats db) (browser_stats db)
  | T_language_stats =>
      mkDatabase (hit db) (visitor_stats db) (visitor_time_stats db)
        x (referrer_stats db) (os_stats db) (browser_stats db)
  | T_referrer_stats =>
      mkDatabase (hit db) (visitor_stats db) (visitor_time_stats db)
        (language_stats db) x (os_stats db) (browser_stats db)
  | T_os_stats =>
      mkDatabase (hit db) (visitor_stats db) (visitor_time_stats db)
        (language_stats db) (referrer_stats db) x (browser_stats db)
  | T_browser_stats =>
      mkDatabase (hit db) (visitor_stats db) (visitor_time_stats db)
        (language_stats db) (referrer_stats db) (os_stats db) x
  end.

Definition empty_table : Table := mkTable [] 1.

Definition empty_database : Database :=
  mkDatabase empty_table empty_table empty_table empty_table
    empty_table empty_table empty_table.

(** ** SQL expressions and statements *)

Inductive expr : Type :=
| Param (n : nat)             (* $n *)
| Named (name : string)       (* :name *)
| Col (c : string)            (* "c" *)
| CurrentDate                 (* current_date *)
| CastBigint (e : expr)       (* e::bigint *)
| Lower (e : expr)            (* LOWER(e) *)
| DateOf (e : expr)           (* date(e) *)
| PlusOneDay (e : expr)       (* e + INTERVAL '1 day' *)
| IsNull (e : expr)           (* e IS NULL *)
| Equal (a b : expr)          (* a = b *)
| Less (a b : expr)           (* a < b *)
| AtLeast (a b : expr)        (* a >= b *)
| And (a b : expr)            (* a AND b *)
| Or (a b : expr).            (* a OR b *)

Inductive statement : Type :=
| SELECT (distinct : bool) (proj : list expr) (from : string) (where_ : expr)
| DELETE (from : string) (where_ : expr)
| UPDATE (table : string) (set : list (string * expr)) (where_ : expr)
| INSERT (into : string) (cols : list string) (tuples : list (list expr)).

(** The bound arguments of one execution: positional and named. *)
Record bindings : Type := mkBindings {
  positional : list value;
  named : list (string * value)
}.

(** LOWER on the ASCII letters. *)
Definition lower_ascii (c : ascii) : ascii :=
  let n := nat_of_ascii c in
  if (Nat.leb 65 n && Nat.leb n 90)%bool then ascii_of_nat (n + 32) else c.

Fixpoint lower (s : string) : string :=
  match s with
  | EmptyString => EmptyString
  | String c s' => String (lower_ascii c) (lower s')
  end.

(** Comparison of two values: [None] is a type error, [Some None] is the
    SQL unknown that a NULL operand gives. *)
Definition compare_values (a b : value) : option (option comparison) :=
  match a, b with
  | VNull, _ | _, VNull => Some None
  | VInt x, VInt y => Some (Some (Z.compare x y))
  | VText x, VText y => Some (Some (String.compare x y))
  | VBool x, VBool y => Some (Some (Bool.compare x y))
  | VTime x, VTime y => Some (Some (Z.compare x y))
  | VDate x, VDate y => Some (Some (Z.compare x y))
  | _, _ => None
  end.

Definition comparison_value (test : comparison -> bool) (a b : value)
  : option value :=
  match compare_values a b with
  | None => None
  | Some None => Some VNull
  | Some (Some c) => Some (VBool (test c))
  end.

Definition is_Eq (c : comparison) : bool :=
  match c with Eq => true | _ => false end.
Definition is_Lt (c : comparison) : bool :=
  match c with Lt => true | _ => false end.
Definition is_Ge (c : comparison) : bool :=
  match c with Lt => false | _ => true end.

(** Three-valued AND and OR. *)
Definition sql_and (a b : value) : option value :=
  match a, b with
  | VBool false, (VBool _ | VNull) | (VBool true | VNull), VBool false =>
      Some (VBool false)
  | VBool true, VBool true => Some (VBool true)
  | VBool true, VNull | VNull, VBool true | VNull, VNull => Some VNull
  | _, _ => None
  end.

Definition sql_or (a b : value) : option value :=
  match a, b with
  | VBool true, (VBool _ | VNull) | (VBool false | VNull), VBool true =>
      Some (VBool true)
  | VBool false, VBool false => Some (VBool false)
  | VBool false, VNull | VNull, VBool false | VNull, VNull => Some VNull
  | _, _ => None
  end.

Definition bind_opt {A B} (o : option A) (f : A -> option B) : option B :=
  match o with
  | Some a => f a
  | None => None
  end.

Definition nth_param (args : list value) (n : nat) : option value :=
  match n with
  | O => None
  | S k => nth_error args k
  end.

(** Evaluation of an expression on a row; [None] is an execution error. *)
Fixpoint eval (today : Z) (b : bindings) (r : Row) (e : expr) : option value :=
  match e with
  | Param n => nth_param (positional b) n
  | Named name => row_get name (named b)
  | Col c => row_get c r
  | CurrentDate => Some (VDate today)
  | CastBigint e1 =>
      bind_opt (eval today b r e1) (fun v =>
        match v with
        | VNull | VInt _ => Some v
        | _ => None
        end)
  | Lower e1 =>
      bind_opt (eval today b r e1) (fun v =>
        match v with
        | VNull => Some VNull
        | VText s => Some (VText (lower s))
        | _ => None
        end)
  | DateOf e1 =>
      bind_opt (eval today b r e1) (fun v =>
        match v with
        | VNull => Some VNull
        | VTime t => Some (VDate (date_of t))
        | VDate d => Some (VDate d)
        | _ => None
        end)
  | PlusOneDay e1 =>
      bind_opt (eval today b r e1) (fun v =>
        match v with
        | VNull => Some VNull
        | VTime t => Some (VTime (t + one_day))
        | _ => None
        end)
  | IsNull e1 =>
      bind_opt (eval today b r e1) (fun v =>
        match v with
        | VNull => Some (VBool true)
        | _ => Some (VBool false)
        end)
  | Equal e1 e2 =>
      bind_opt (eval today b r e1) (fun v1 =>
      bind_opt (eval today b r e2) (fun v2 => comparison_value is_Eq v1 v2))
  | Less e1 e2 =>
      bind_opt (eval today b r e1) (fun v1 =>
      bind_opt (eval today b r e2) (fun v2 => comparison_value is_Lt v1 v2))
  | AtLeast e1 e2 =>
      bind_opt (eval today b r e1) (fun v1 =>
      bind_opt (eval today b r e2) (fun v2 => comparison_value is_Ge v1 v2))
  | And e1 e2 =>
      bind_opt (eval today b r e1) (fun v1 =>
      bind_opt (eval today b r e2) (fun v2 => sql_and v1 v2))
  | Or e1 e2 =>
      bind_opt (eval today b r e1) (fun v1 =>
      bind_opt (eval today b r e2) (fun v2 => sql_or v1 v2))
  end.

(** A WHERE clause keeps the rows on which it is true; unknown drops the
    row, anything that is not a truth value is an error. *)
Definition eval_where (today : Z) (b : bindings) (e : expr) (r : Row)
  : option bool :=
  match eval today b r e with
  | Some (VBool x) => Some x
  | Some VNull => Some false
  | _ => None
  end.

Definition has_column (s : schema) (c : string) : bool :=
  existsb (fun k => String.eqb c (col_name k)) s.

(** Name resolution: every column, parameter and name an expression mentions
    must exist, whatever rows the table holds. *)
Fixpoint resolves (s : schema) (b : bindings) (e : expr) : bool :=
  match e with
  | Param n =>
      match nth_param (positional b) n with Some _ => true | None => false end
  | Named name =>
      match row_get name (named b) with Some _ => true | None => false end
  | Col c => has_column s c
  | CurrentDate => true
  | CastBigint e1 | Lower e1 | DateOf e1 | PlusOneDay e1 | IsNull e1 =>
      resolves s b e1
  | Equal e1 e2 | Less e1 e2 | AtLeast e1 e2 | And e1 e2 | Or e1 e2 =>
      resolves s b e1 && resolves s b e2
  end.

(** ** Execution of a statement *)

(** The rows of a result, with the names of its columns. *)
Record result_set : Type := mkResult {
  columns : list string;
  tuples : list (list value)
}.

(** The result of a statement that returns no row. *)
Definition no_result : result_set := mkResult [] [].

(** [f] on every element; an error on one element is an error of the whole. *)
Fixpoint map_opt {A B} (f : A -> option B) (l : list A) : option (list B) :=
  match l with
  | [] => Some []
  | x :: l' =>
      match f x, map_opt f l' with
      | Some y, Some out => Some (y :: out)
      | _, _ => None
      end
  end.

(** The rows a WHERE clause keeps, in table order. *)
Fixpoint select_rows (p : Row -> option bool) (rs : list Row)
  : option (list Row) :=
  match rs with
  | [] => Some []
  | r :: rs' =>
      match p r, select_rows p rs' with
      | Some keep, Some out => Some (if keep then r :: out else out)
      | _, _ => None
      end
  end.

(** The rows a WHERE clause keeps are rewritten, the others stay. *)
Fixpoint update_rows (p : Row -> option bool) (f : Row -> option Row)
  (rs : list Row) : option (list Row) :=
  match rs with
  | [] => Some []
  | r :: rs' =>
      match p r, update_rows p f rs' with
      | Some true, Some out =>
          match f r with
          | Some r' => Some (r' :: out)
          | None => None
          end
      | Some false, Some out => Some (r :: out)
      | _, _ => None
      end
  end.

(** SET c1 = e1, c2 = e2, ...: every expression reads the old row. *)
Fixpoint assign (today : Z) (b : bindings) (old : Row)
  (sets : list (string * expr)) (r : Row) : option Row :=
  match sets with
  | [] => Some r
  | (c, e) :: sets' =>
      match eval today b old e with
      | Some v => assign today b old sets' (row_set c v r)
      | None => None
      end
  end.

(** The row an INSERT builds: the listed columns take the given values, a
    column [id] that is not listed takes the next value of the sequence, any
    other column is NULL. *)
Definition new_row (s : schema) (id : Z) (given : list (string * value)) : Row :=
  map (fun k =>
         (col_name k,
          match row_get (col_name k) given with
          | Some v => v
          | None => if String.eqb (col_name k) "id" then VInt id else VNull
          end)) s.

(** The sequence moves on when the table has a column [id]. *)
Definition next_serial (s : schema) (n : Z) : Z :=
  if has_column s "id" then n + 1 else n.

(** VALUES (...), (...), ...: one new row per tuple, behind the rows the
    table holds. *)
Fixpoint insert_tuples (today : Z) (b : bindings) (s : schema)
  (cols : list string) (tuples : list (list expr)) (t : Table) : option Table :=
  match tuples with
  | [] => Some t
  | tuple :: tuples' =>
      match map_opt (eval today b []) tuple with
      | Some vs =>
          let r := new_row s (serial t) (combine cols vs) in
          if (Nat.eqb (List.length vs) (List.length cols) && row_conforms s r)%bool
          then insert_tuples today b s cols tuples'
                 (mkTable (rows t ++ [r]) (next_serial s (serial t)))
          else None
      | None => None
      end
  end.

(** The engine returns the rows of a SELECT without ORDER BY in an order of
    its own choosing.  The choice is a script: each row in turn is put at the
    position the script names, so that every script gives a permutation and
    every permutation has a script ([arrange_perm], [arrange_complete]). *)
Fixpoint insert_at {A} (n : nat) (x : A) (l : list A) : list A :=
  match n, l with
  | O, _ => x :: l
  | S n', y :: l' => y :: insert_at n' x l'
  | S _, [] => [x]
  end.

Fixpoint arrange {A} (script : list nat) (l : list A) : list A :=
  match l with
  | [] => []
  | x :: l' => insert_at (hd O script) x (arrange (tl script) l')
  end.

(** The name of a column of a result. *)
Definition column_label (e : expr) : string :=
  match e with
  | Col c => c
  | DateOf _ => "date"
  | Lower _ => "lower"
  | _ => "?column?"
  end.

(** The effect of one statement on a database: the new database and the
    result, or [None] when the engine rejects the statement.  Names are
    resolved before any row is read; rows are read, and written rows checked
    against the schema, after that. *)
Definition execute (today : Z) (order : list nat) (b : bindings)
  (s : statement) (db : Database) : option (Database * result_set) :=
  match s with
  | SELECT distinct proj from where_ =>
      match resolve_table from with
      | None => None
      | Some t =>
          let sc := schema_of t in
          if (resolves sc b where_ && forallb (resolves sc b) proj)%bool then
            bind_opt (select_rows (eval_where today b where_) (rows (get_table t db)))
              (fun kept =>
            bind_opt (map_opt (fun r => map_opt (eval today b r) proj) kept)
              (fun out =>
               let out := if distinct then nodup row_eq_dec out else out in
               Some (db, mkResult (map column_label proj) (arrange order out))))
          else None
      end
  | DELETE from where_ =>
      match resolve_table from with
      | None => None
      | Some t =>
          let sc := schema_of t in
          if resolves sc b where_ then
            bind_opt
              (select_rows (fun r => option_map negb (eval_where today b where_ r))
                 (rows (get_table t db)))
              (fun kept =>
               Some (set_table t (mkTable kept (serial (get_table t db))) db,
                     no_result))
          else None
      end
  | UPDATE table sets where_ =>
      match resolve_table table with
      | None => None
      | Some t =>
          let sc := schema_of t in
          if (resolves sc b where_
              && forallb (fun ce => has_column sc (fst ce) && resolves sc b (snd ce)) sets)%bool
          then
            bind_opt
              (update_rows (eval_where today b where_)
                 (fun r =>
                    match assign today b r sets r with
                    | Some r' => if row_conforms sc r' then Some r' else None
                    | None => None
                    end)
                 (rows (get_table t db)))
              (fun rs =>
               Some (set_table t (mkTable rs (serial (get_table t db))) db,
                     no_result))
          else None
      end
  | INSERT into cols tuples =>
      match resolve_table into with
      | None => None
      | Some t =>
          let sc := schema_of t in
          match tuples with
          | [] => None
          | _ =>
              if (forallb (has_column sc) cols
                  && forallb (forallb (resolves [] b)) tuples)%bool
              then
                bind_opt (insert_tuples today b sc cols tuples (get_table t db))
                  (fun t' => Some (set_table t t' db, no_result))
              else None
          end
      end
  end.

(** ** Statements that reach the engine as text *)

Definition dquote : string := String (ascii_of_nat 34) EmptyString.

(** The INSERT header of [SaveHits], up to and including the keyword VALUES. *)
Definition insert_hit_head : string :=
  "INSERT INTO " ++ dquote ++ "hit" ++ dquote ++
  " (tenant_id, fingerprint, path, url, language, user_agent, ref, os, os_version, browser, browser_version, desktop, mobile, time) VALUES".

Definition insert_hit_columns : list string :=
  [ "tenant_id"; "fingerprint"; "path"; "url"; "language"; "user_agent"; "ref";
    "os"; "os_version"; "browser"; "browser_version"; "desktop"; "mobile";
    "time" ].

Inductive token : Type :=
| TLParen | TRParen | TComma | TParam (n : nat).

Definition digit_of (c : ascii) : option nat :=
  let n := nat_of_ascii c in
  if (Nat.leb 48 n && Nat.leb n 57)%bool then Some (n - 48)%nat else None.

Inductive lex_state : Type :=
| Idle                 (* between tokens *)
| Dollar               (* after the sign of a parameter *)
| Digits (n : nat).    (* inside the number of a parameter *)

Definition flush (st : lex_state) (ts : list token) : option (list token) :=
  match st with
  | Idle => Some ts
  | Dollar => None
  | Digits n => Some (TParam n :: ts)
  end.

(** The lexer of a VALUES list: parentheses, commas, blanks and [$n]. *)
Fixpoint lex (st : lex_state) (s : string) : option (list token) :=
  match s with
  | EmptyString => flush st []
  | String c s' =>
      match digit_of c with
      | Some d =>
          match st with
          | Idle => None
          | Dollar => lex (Digits d) s'
          | Digits n => lex (Digits (10 * n + d)) s'
          end
      | None =>
          let n := nat_of_ascii c in
          if Nat.eqb n 36 then                       (* $ *)
            bind_opt (lex Dollar s') (flush st)
          else if Nat.eqb n 32 then                  (* blank *)
            bind_opt (lex Idle s') (flush st)
          else if Nat.eqb n 40 then                  (* ( *)
            bind_opt (lex Idle s') (fun ts => flush st (TLParen :: ts))
          else if Nat.eqb n 41 then                  (* ) *)
            bind_opt (lex Idle s') (fun ts => flush st (TRParen :: ts))
          else if Nat.eqb n 44 then                  (* , *)
            bind_opt (lex Idle s') (fun ts => flush st (TComma :: ts))
          else None
      end
  end.

Inductive parse_state : Type :=
| ExpectTuple                        (* before an opening parenthesis *)
| ExpectParam (acc : list nat)       (* inside a tuple, before a parameter *)
| AfterParam (acc : list nat)        (* inside a tuple, after a parameter *)
| AfterTuple.                        (* after a closing parenthesis *)

(** The grammar of a VALUES list: one or more tuples separated by commas,
    each of one or more parameters separated by commas. *)
Fixpoint parse_values (st : parse_state) (ts : list token)
  : option (list (list nat)) :=
  match ts, st with
  | [], AfterTuple => Some []
  | TLParen :: ts', ExpectTuple => parse_values (ExpectParam []) ts'
  | TParam n :: ts', ExpectParam acc => parse_values (AfterParam (acc ++ [n])) ts'
  | TComma :: ts', AfterParam acc => parse_values (ExpectParam acc) ts'
  | TRParen :: ts', AfterParam acc =>
      option_map (cons acc) (parse_values AfterTuple ts')
  | TComma :: ts', AfterTuple => parse_values ExpectTuple ts'
  | _, _ => None
  end.

Fixpoint strip_prefix (p s : string) : option string :=
  match p, s with
  | EmptyString, _ => Some s
  | String a p', String b s' =>
      if Ascii.eqb a b then strip_prefix p' s' else None
  | String _ _, EmptyString => None
  end.

(** The engine's parser, for the one shape of statement that is sent as
    text: the INSERT into ["hit"] followed by its VALUES list. *)
Definition parse_sql (text : string) : option statement :=
  bind_opt (strip_prefix insert_hit_head text) (fun rest =>
  bind_opt (lex Idle rest) (fun ts =>
  bind_opt (parse_values ExpectTuple ts) (fun tuples =>
    Some (INSERT "hit" insert_hit_columns (map (map Param) tuples))))).

Inductive query : Type :=
| SqlText (text : string)      (* a statement built at run time *)
| Sql (s : statement).         (* a literal statement of the source *)

Definition parse (q : query) : option statement :=
  match q with
  | SqlText text => parse_sql text
  | Sql s => Some s
  end.

(** ** The world: the engine behind [store.DB] *)

(** Go's [error] values that the store can see; [None] is [nil]. *)
Inductive error : Type :=
| ErrNoRows        (* sql.ErrNoRows: the query returned no row *)
| ErrTxDone        (* the transaction is already committed or rolled back *)
| ErrBadConn       (* the engine could not execute the call *)
| ErrSQL           (* the engine rejected the statement *)
| ErrScan.         (* a result row does not fit its destination *)

Definition error_text (e : error) : string :=
  match e with
  | ErrNoRows => "sql: no rows in result set"
  | ErrTxDone => "sql: transaction has already been committed or rolled back"
  | ErrBadConn => "driver: bad connection"
  | ErrSQL => "pq: statement rejected"
  | ErrScan => "sql: scan error"
  end.

Inductive event : Type :=
| Begin (tx : nat)
| CommitTx (tx : nat)
| RollbackTx (tx : nat)
| Statement (on : option nat) (q : query) (b : bindings)
| CloseRows.

Record World : Type := mkWorld {
  committed : Database;               (* what every connection sees *)
  open_txs : list (nat * Database);   (* the view of each open transaction *)
  next_tx : nat;
  faults : list bool;                 (* per engine call: does it fail? *)
  order : list nat;                   (* the engine's choice of row order *)
  today : Z;                          (* current_date *)
  logged : list string;               (* what the logger printed *)
  trace : list event                  (* the calls made to the engine *)
}.

Inductive Result (A : Type) : Type :=
| Ret (a : A) (w : World)
| Exit (w : World).                   (* the process exited *)

Arguments Exit {A} w.

Definition M (A : Type) : Type := World -> Result A.

Definition ret {A} (a : A) : M A := fun w => Ret a w.

Definition bind {A B} (m : M A) (f : A -> M B) : M B :=
  fun w =>
    match m w with
    | Ret a w' => f a w'
    | Exit w' => Exit w'
    end.

Declare Scope store_scope.
Delimit Scope store_scope with store.
Notation "x <- m ;; k" := (bind m (fun x => k))
  (at level 100, m at next level, right associativity) : store_scope.
Notation "' p <- m ;; k" := (bind m (fun x => let 'p := x in k))
  (at level 100, p pattern, m at next level, right associativity) : store_scope.
Local Open Scope store_scope.

Definition take_fault : M bool :=
  fun w =>
    Ret (hd false (faults w))
      (mkWorld (committed w) (open_txs w) (next_tx w) (tl (faults w))
         (order w) (today w) (logged w) (trace w)).

Definition emit (e : event) : M unit :=
  fun w =>
    Ret tt
      (mkWorld (committed w) (open_txs w) (next_tx w) (faults w)
         (order w) (today w) (logged w) (trace w ++ [e])).

Definition Printf (msg : string) : M unit :=
  fun w =>
    Ret tt
      (mkWorld (committed w) (open_txs w) (next_tx w) (faults w)
         (order w) (today w) (logged w ++ [msg]) (trace w)).

(** [logger.Fatalf]: print, then leave the process. *)
Definition Fatalf {A} (msg : string) : M A :=
  fun w =>
    Exit
      (mkWorld (committed w) (open_txs w) (next_tx w) (faults w)
         (order w) (today w) (logged w ++ [msg]) (trace w)).

Fixpoint view_of (tx : nat) (txs : list (nat * Database)) : option Database :=
  match txs with
  | [] => None
  | (h, db) :: txs' => if Nat.eqb tx h then Some db else view_of tx txs'
  end.

Fixpoint set_view (tx : nat) (db : Database) (txs : list (nat * Database))
  : list (nat * Database) :=
  match txs with
  | [] => []
  | (h, old) :: txs' =>
      if Nat.eqb tx h then (h, db) :: txs' else (h, old) :: set_view tx db txs'
  end.

Fixpoint close_view (tx : nat) (txs : list (nat * Database))
  : list (nat * Database) :=
  match txs with
  | [] => []
  | (h, old) :: txs' =>
      if Nat.eqb tx h then close_view tx txs' else (h, old) :: close_view tx txs'
  end.

(** The database a call works on: the committed state for a call on the
    pool, the transaction's own view for a call on a transaction. *)
Definition target (on : option nat) (w : World) : option Database :=
  match on with
  | None => Some (committed w)
  | Some tx => view_of tx (open_txs w)
  end.

Definition install (on : option nat) (db : Database) (w : World) : World :=
  match on with
  | None =>
      mkWorld db (open_txs w) (next_tx w) (faults w)
        (order w) (today w) (logged w) (trace w)
  | Some tx =>
      mkWorld (committed w) (set_view tx db (open_txs w)) (next_tx w) (faults w)
        (order w) (today w) (logged w) (trace w)
  end.

(** One statement sent to the engine.  A statement is atomic: it takes
    effect as a whole or, when it fails, not at all. *)
Definition run_query (on : option nat) (q : query) (b : bindings)
  : M (result_set * option error) :=
  _ <- emit (Statement on q b) ;;
  fun w =>
    match target on w with
    | None => Ret (no_result, Some ErrTxDone) w
    | Some db =>
        (fault <- take_fault ;;
         if fault then ret (no_result, Some ErrBadConn)
         else
           fun w' =>
             match bind_opt (parse q) (fun s => execute (today w') (order w') b s db) with
             | None => Ret (no_result, Some ErrSQL) w'
             | Some (db', res) => Ret (res, None) (install on db' w')
             end) w
    end.

(** ** The calls of [database/sql] and [sqlx] the store makes *)

(** [store.DB.Exec] *)
Definition DB_Exec (q : query) (args : list value) : M (option error) :=
  '(_, err) <- run_query None q (mkBindings args []) ;;
  ret err.

(** [tx.Exec] *)
Definition Tx_Exec (tx : nat) (q : query) (args : list value) : M (option error) :=
  '(_, err) <- run_query (Some tx) q (mkBindings args []) ;;
  ret err.

Fixpoint scan_row {E} (scan : string -> value -> E -> option E)
  (cols : list string) (vals : list value) (dest : E) : option E :=
  match cols, vals with
  | [], [] => Some dest
  | c :: cols', v :: vals' =>
      bind_opt (scan c v dest) (scan_row scan cols' vals')
  | _, _ => None
  end.

(** [tx.Get]: the first row of the result is scanned into [dest], column by
    column; no row at all is [sql.ErrNoRows]. *)
Definition Tx_Get {E} (scan : string -> value -> E -> option E)
  (tx : nat) (dest : E) (q : query) (args : list value) : M (E * option error) :=
  '(res, err) <- run_query (Some tx) q (mkBindings args []) ;;
  match err with
  | Some e => ret (dest, Some e)
  | None =>
      match tuples res with
      | [] => ret (dest, Some ErrNoRows)
      | first :: _ =>
          match scan_row scan (columns res) first dest with
          | Some dest' => ret (dest', None)
          | None => ret (dest, Some ErrScan)
          end
      end
  end.

Definition scan_single {A} (scan : value -> option A) (row : list value)
  : option A :=
  match row with
  | [v] => scan v
  | _ => None
  end.

(** [store.DB.Select] into a slice of scalars. *)
Definition DB_Select {A} (scan : value -> option A) (q : query)
  (args : list value) : M (list A * option error) :=
  '(res, err) <- run_query None q (mkBindings args []) ;;
  match err with
  | Some e => ret ([], Some e)
  | None =>
      match map_opt (scan_single scan) (tuples res) with
      | Some out => ret (out, None)
      | None => ret ([], Some ErrScan)
      end
  end.

(** [tx.NamedQuery]: the names of the statement are bound to the fields of
    the entity. *)
Definition Tx_NamedQuery (tx : nat) (q : query) (fields : list (string * value))
  : M (unit * option error) :=
  '(_, err) <- run_query (Some tx) q (mkBindings [] fields) ;;
  ret (tt, err).

(** [rows.Close] *)
Definition Rows_Close (rows : unit) : M (option error) :=
  _ <- emit CloseRows ;;
  fault <- take_fault ;;
  if fault then ret (Some ErrBadConn) else ret None.

(** [store.DB.Beginx]: a new transaction starts from the committed state.
    Its view is its own: the model does not carry into it what is committed
    while it is open, and its commit installs the view whole.  That is exact
    when nothing else is committed between the begin of a transaction and
    its end. *)
Definition DB_Beginx : M (nat * option error) :=
  fun w =>
    let tx := next_tx w in
    (_ <- emit (Begin tx) ;;
     fault <- take_fault ;;
     if fault then ret (tx, Some ErrBadConn)
     else
       fun w' =>
         Ret (tx, None)
           (mkWorld (committed w') ((tx, committed w') :: open_txs w')
              (S (next_tx w')) (faults w') (order w') (today w') (logged w')
              (trace w'))) w.

Definition end_tx (tx : nat) (keep : bool) (w : World) : World :=
  mkWorld
    (if keep then
       match view_of tx (open_txs w) with
       | Some db => db
       | None => committed w
       end
     else committed w)
    (close_view tx (open_txs w)) (next_tx w) (faults w)
    (order w) (today w) (logged w) (trace w).

(** [tx.Commit]: the view of the transaction becomes the committed state;
    a commit that fails leaves the committed state as it was. *)
Definition Tx_Commit (tx : nat) : M (option error) :=
  _ <- emit (CommitTx tx) ;;
  fun w =>
    match view_of tx (open_txs w) with
    | None => Ret (Some ErrTxDone) w
    | Some _ =>
        (fault <- take_fault ;;
         if fault then fun w' => Ret (Some ErrBadConn) (end_tx tx false w')
         else fun w' => Ret None (end_tx tx true w')) w
    end.

(** [tx.Rollback] *)
Definition Tx_Rollback (tx : nat) : M (option error) :=
  _ <- emit (RollbackTx tx) ;;
  fun w =>
    match view_of tx (open_txs w) with
    | None => Ret (Some ErrTxDone) w
    | Some _ =>
        (fault <- take_fault ;;
         fun w' =>
           Ret (if fault then Some ErrBadConn else None) (end_tx tx false w')) w
    end.

(** ** The entities *)

(** [sql.NullInt64] as a statement argument. *)
Definition null_int64 (o : option Z) : value :=
  match o with
  | Some n => VInt n
  | None => VNull
  end.

(** Go's [int] addition on a 64-bit target. *)
Definition wrap_int (z : Z) : Z := (z + 2 ^ 63) mod 2 ^ 64 - 2 ^ 63.
Definition int_add (a b : Z) : Z := wrap_int (a + b).

(** Modelled from the spec: the struct [Hit] is declared outside
    [postgres.go]; its fields are the fourteen that [SaveHits] reads. *)
Record Hit : Type := mkHit {
  Hit_TenantID : option Z;
  Hit_Fingerprint : string;
  Hit_Path : string;
  Hit_URL : string;
  Hit_Language : string;
  Hit_UserAgent : string;
  Hit_Ref : string;
  Hit_OS : string;
  Hit_OSVersion : string;
  Hit_Browser : string;
  Hit_BrowserVersion : string;
  Hit_Desktop : bool;
  Hit_Mobile : bool;
  Hit_Time : Z
}.

(** Modelled from the spec: the common shape of the six aggregate entities,
    declared outside [postgres.go]: identity, optional tenant, day, path and
    the visitor counter. *)
Record Stats : Type := mkStats {
  ID : Z;
  TenantID : option Z;
  Day : Z;
  Path : string;
  Visitors : Z
}.

Definition Stats_zero : Stats := mkStats 0 None 0 EmptyString 0.

Definition Stats_fields (s : Stats) : list (string * value) :=
  [ ("id", VInt (ID s)); ("tenant_id", null_int64 (TenantID s));
    ("day", VDate (Day s)); ("path", VText (Path s));
    ("visitors", VInt (Visitors s)) ].

Definition Stats_scan (c : string) (v : value) (s : Stats) : option Stats :=
  match v with
  | VInt n =>
      if String.eqb c "id" then
        Some (mkStats n (TenantID s) (Day s) (Path s) (Visitors s))
      else if String.eqb c "visitors" then
        Some (mkStats (ID s) (TenantID s) (Day s) (Path s) n)
      else if String.eqb c "tenant_id" then
        Some (mkStats (ID s) (Some n) (Day s) (Path s) (Visitors s))
      else None
  | VNull =>
      if String.eqb c "tenant_id" then
        Some (mkStats (ID s) None (Day s) (Path s) (Visitors s))
      else None
  | VDate d =>
      if String.eqb c "day" then
        Some (mkStats (ID s) (TenantID s) d (Path s) (Visitors s))
      else None
  | VText p =>
      if String.eqb c "path" then
        Some (mkStats (ID s) (TenantID s) (Day s) p (Visitors s))
      else None
  | _ => None
  end.

(** Modelled from the spec: the six aggregate entities are declared outside
    [postgres.go].  Each has the common shape and the key and counter fields
    its method reads: the page/day entity the three platform counters. *)
Record VisitorStats : Type := mkVisitorStats {
  VisitorStats_Stats : Stats;
  PlatformDesktop : Z;
  PlatformMobile : Z;
  PlatformUnknown : Z
}.

(** Modelled from the spec: the hour-of-day entity, declared outside
    [postgres.go]. *)
Record VisitorTimeStats : Type := mkVisitorTimeStats {
  VisitorTimeStats_Stats : Stats;
  Hour : Z
}.

(** Modelled from the spec: the language entity, declared outside
    [postgres.go]. *)
Record LanguageStats : Type := mkLanguageStats {
  LanguageStats_Stats : Stats;
  Language : string
}.

(** Modelled from the spec: the referrer entity, declared outside
    [postgres.go]. *)
Record ReferrerStats : Type := mkReferrerStats {
  ReferrerStats_Stats : Stats;
  Referrer : string
}.

(** Modelled from the spec: the operating-system entity, declared outside
    [postgres.go]. *)
Record OSStats : Type := mkOSStats {
  OSStats_Stats : Stats;
  OS : string;
  OSVersion : string
}.

(** Modelled from the spec: the browser entity, declared outside
    [postgres.go]. *)
Record BrowserStats : Type := mkBrowserStats {
  BrowserStats_Stats : Stats;
  Browser : string;
  BrowserVersion : string
}.

(** The interface [StatsEntity] of the source ([GetID], [GetVisitors]),
    together with what [sqlx] reads and writes through the [db] tags of the
    struct. *)
Class StatsEntity (E : Type) : Type := {
  base : E -> Stats;
  with_base : Stats -> E -> E;
  new : E;                                   (* new(E): the zero value *)
  own_fields : E -> list (string * value);   (* the fields beside the base *)
  own_scan : string -> value -> E -> option E
}.

Definition GetID {E} `{StatsEntity E} (e : E) : Z := ID (base e).
Definition GetVisitors {E} `{StatsEntity E} (e : E) : Z := Visitors (base e).

Definition db_fields {E} `{StatsEntity E} (e : E) : list (string * value) :=
  Stats_fields (base e) ++ own_fields e.

Definition db_scan {E} `{StatsEntity E} (c : string) (v : value) (e : E)
  : option E :=
  match Stats_scan c v (base e) with
  | Some s => Some (with_base s e)
  | None => own_scan c v e
  end.

#[export] Instance VisitorStats_entity : StatsEntity VisitorStats := {
  base := VisitorStats_Stats;
  with_base := fun s e =>
    mkVisitorStats s (PlatformDesktop e) (PlatformMobile e) (PlatformUnknown e);
  new := mkVisitorStats Stats_zero 0 0 0;
  own_fields := fun e =>
    [ ("platform_desktop", VInt (PlatformDesktop e));
      ("platform_mobile", VInt (PlatformMobile e));
      ("platform_unknown", VInt (PlatformUnknown e)) ];
  own_scan := fun c v e =>
    match v with
    | VInt n =>
        if String.eqb c "platform_desktop" then
          Some (mkVisitorStats (VisitorStats_Stats e) n (PlatformMobile e)
                  (PlatformUnknown e))
        else if String.eqb c "platform_mobile" then
          Some (mkVisitorStats (VisitorStats_Stats e) (PlatformDesktop e) n
                  (PlatformUnknown e))
        else if String.eqb c "platform_unknown" then
          Some (mkVisitorStats (VisitorStats_Stats e) (PlatformDesktop e)
                  (PlatformMobile e) n)
        else None
    | _ => None
    end
}.

#[export] Instance VisitorTimeStats_entity : StatsEntity VisitorTimeStats := {
  base := VisitorTimeStats_Stats;
  with_base := fun s e => mkVisitorTimeStats s (Hour e);
  new := mkVisitorTimeStats Stats_zero 0;
  own_fields := fun e => [ ("hour", VInt (Hour e)) ];
  own_scan := fun c v e =>
    match v with
    | VInt n =>
        if String.eqb c "hour" then
          Some (mkVisitorTimeStats (VisitorTimeStats_Stats e) n)
        else None
    | _ => None
    end
}.

#[export] Instance LanguageStats_entity : StatsEntity LanguageStats := {
  base := LanguageStats_Stats;
  with_base := fun s e => mkLanguageStats s (Language e);
  new := mkLanguageStats Stats_zero EmptyString;
  own_fields := fun e => [ ("language", VText (Language e)) ];
  own_scan := fun c v e =>
    match v with
    | VText t =>
        if String.eqb c "language" then
          Some (mkLanguageStats (LanguageStats_Stats e) t)
        else None
    | _ => None
    end
}.

#[export] Instance ReferrerStats_entity : StatsEntity ReferrerStats := {
  base := ReferrerStats_Stats;
  with_base := fun s e => mkReferrerStats s (Referrer e);
  new := mkReferrerStats Stats_zero EmptyString;
  own_fields := fun e => [ ("referrer", VText (Referrer e)) ];
  own_scan := fun c v e =>
    match v with
    | VText t =>
        if String.eqb c "referrer" then
          Some (mkReferrerStats (ReferrerStats_Stats e) t)
        else None
    | _ => None
    end
}.

#[export] Instance OSStats_entity : StatsEntity OSStats := {
  base := OSStats_Stats;
  with_base := fun s e => mkOSStats s (OS e) (OSVersion e);
  new := mkOSStats Stats_zero EmptyString EmptyString;
  own_fields := fun e =>
    [ ("os", VText (OS e)); ("os_version", VText (OSVersion e)) ];
  own_scan := fun c v e =>
    match v with
    | VText t =>
        if String.eqb c "os" then
          Some (mkOSStats (OSStats_Stats e) t (OSVersion e))
        else if String.eqb c "os_version" then
          Some (mkOSStats (OSStats_Stats e) (OS e) t)
        else None
    | _ => None
    end
}.

#[export] Instance BrowserStats_entity : StatsEntity BrowserStats := {
  base := BrowserStats_Stats;
  with_base := fun s e => mkBrowserStats s (Browser e) (BrowserVersion e);
  new := mkBrowserStats Stats_zero EmptyString EmptyString;
  own_fields := fun e =>
    [ ("browser", VText (Browser e));
      ("browser_version", VText (BrowserVersion e)) ];
  own_scan := fun c v e =>
    match v with
    | VText t =>
        if String.eqb c "browser" then
          Some (mkBrowserStats (BrowserStats_Stats e) t (BrowserVersion e))
        else if String.eqb c "browser_version" then
          Some (mkBrowserStats (BrowserStats_Stats e) (Browser e) t)
        else None
    | _ => None
    end
}.

(** ** The methods of [PostgresStore] *)

(** NewTx *)
Definition NewTx : M nat :=
  '(tx, err) <- DB_Beginx ;;
  match err with
  | Some e => Fatalf ("error creating new transaction: " ++ error_text e)
  | None => ret tx
  end.

(** Commit *)
Definition Commit (tx : nat) : M unit :=
  err <- Tx_Commit tx ;;
  match err with
  | Some e => Printf ("error committing transaction: " ++ error_text e)
  | None => ret tt
  end.

(** Rollback *)
Definition Rollback (tx : nat) : M unit :=
  err <- Tx_Rollback tx ;;
  match err with
  | Some e => Printf ("error rolling back transaction: " ++ error_text e)
  | None => ret tt
  end.

(** closeRows *)
Definition closeRows (rows : unit) : M unit :=
  err <- Rows_Close rows ;;
  match err with
  | Some e => Printf ("error closing rows: " ++ error_text e)
  | None => ret tt
  end.

(** The opening of every method that takes a transaction:
    [if tx == nil { tx = store.NewTx(); defer store.Commit(tx) }].
    The deferred commit runs when the body has returned. *)
Definition with_tx {A} (tx : option nat) (body : nat -> M A) : M A :=
  match tx with
  | None =>
      tx <- NewTx ;;
      r <- body tx ;;
      _ <- Commit tx ;;
      ret r
  | Some tx => body tx
  end.

(** [fmt.Sprintf] of [%d] on a non-negative number. *)
Definition itoa (n : nat) : string := NilEmpty.string_of_uint (Nat.to_uint n).

(** [fmt.Sprintf] of the tuple format with its fourteen numbers
    [index+1] ... [index+14]:
    [($%d, $%d, $%d, $%d, $%d, $%d, $%d, $%d, $%d, $%d, $%d, $%d, $%d, $%d),] *)
Definition tuple_text (index : nat) : string :=
  ("($" ++ itoa (index + 1) ++ ", $" ++ itoa (index + 2)
   ++ ", $" ++ itoa (index + 3) ++ ", $" ++ itoa (index + 4)
   ++ ", $" ++ itoa (index + 5) ++ ", $" ++ itoa (index + 6)
   ++ ", $" ++ itoa (index + 7) ++ ", $" ++ itoa (index + 8)
   ++ ", $" ++ itoa (index + 9) ++ ", $" ++ itoa (index + 10)
   ++ ", $" ++ itoa (index + 11) ++ ", $" ++ itoa (index + 12)
   ++ ", $" ++ itoa (index + 13) ++ ", $" ++ itoa (index + 14)
   ++ "),")%string%nat.

(** The body of the loop of [SaveHits], at position [i]: fourteen appends
    to [args], one tuple written to [query]. *)
Fixpoint SaveHits_loop (i : nat) (hits : list Hit) (args : list value)
  (query : string) : list value * string :=
  match hits with
  | [] => (args, query)
  | hit :: rest =>
      let args := args ++ [null_int64 (Hit_TenantID hit)] in
      let args := args ++ [VText (Hit_Fingerprint hit)] in
      let args := args ++ [VText (Hit_Path hit)] in
      let args := args ++ [VText (Hit_URL hit)] in
      let args := args ++ [VText (Hit_Language hit)] in
      let args := args ++ [VText (Hit_UserAgent hit)] in
      let args := args ++ [VText (Hit_Ref hit)] in
      let args := args ++ [VText (Hit_OS hit)] in
      let args := args ++ [VText (Hit_OSVersion hit)] in
      let args := args ++ [VText (Hit_Browser hit)] in
      let args := args ++ [VText (Hit_BrowserVersion hit)] in
      let args := args ++ [VBool (Hit_Desktop hit)] in
      let args := args ++ [VBool (Hit_Mobile hit)] in
      let args := args ++ [VTime (Hit_Time hit)] in
      let index := (i * 14)%nat in
      let query := (query ++ tuple_text index)%string in
      SaveHits_loop (S i) rest args query
  end.

(** The string literal that opens the statement of [SaveHits]: the header
    with the blank that follows VALUES. *)
Definition insert_hit_header : string := (insert_hit_head ++ " ")%string.

(** [queryStr[:len(queryStr)-1]] *)
Definition drop_last (s : string) : string :=
  substring 0 (String.length s - 1) s.

(** SaveHits *)
Definition SaveHits (hits : list Hit) : M (option error) :=
  let '(args, query) :=
    SaveHits_loop 0 hits [] insert_hit_header in
  let queryStr := query in
  err <- DB_Exec (SqlText (drop_last queryStr)) args ;;
  match err with
  | Some e => ret (Some e)
  | None => ret None
  end.

(** [($1::bigint IS NULL OR tenant_id = $1)] *)
Definition tenant_scope : expr :=
  Or (IsNull (CastBigint (Param 1))) (Equal (Col "tenant_id") (Param 1)).

(** DeleteHitsByDay *)
Definition DeleteHitsByDay (tx : option nat) (tenantID : option Z) (day : Z)
  : M (option error) :=
  with_tx tx (fun tx =>
    (* DELETE FROM "hit" WHERE ($1::bigint IS NULL OR tenant_id = $1)
       AND time >= $2 AND time < $2 + INTERVAL '1 day' *)
    let query :=
      Sql (DELETE "hit"
             (And (And tenant_scope
                       (AtLeast (Col "time") (Param 2)))
                  (Less (Col "time") (PlusOneDay (Param 2))))) in
    err <- Tx_Exec tx query [null_int64 tenantID; VTime day] ;;
    match err with
    | Some e => ret (Some e)
    | None => ret None
    end).

Definition scan_day (v : value) : option Z :=
  match v with
  | VDate d => Some d
  | _ => None
  end.

Definition scan_string (v : value) : option string :=
  match v with
  | VText s => Some s
  | _ => None
  end.

(** Days *)
Definition Days (tenantID : option Z) : M (list Z * option error) :=
  (* SELECT DISTINCT date("time") FROM "hit"
     WHERE ($1::bigint IS NULL OR tenant_id = $1)
     AND date("time") < current_date *)
  let query :=
    Sql (SELECT true [DateOf (Col "time")] "hit"
           (And tenant_scope (Less (DateOf (Col "time")) CurrentDate))) in
  '(days, err) <- DB_Select scan_day query [null_int64 tenantID] ;;
  match err with
  | Some e => ret ([], Some e)
  | None => ret (days, None)
  end.

(** Paths *)
Definition Paths (tenantID : option Z) (day : Z) : M (list string * option error) :=
  (* SELECT DISTINCT "path" FROM "hit"
     WHERE ($1::bigint IS NULL OR tenant_id = $1) AND "day" = $2 *)
  let query :=
    Sql (SELECT true [Col "path"] "hit"
           (And tenant_scope (Equal (Col "day") (Param 2)))) in
  '(paths, err) <- DB_Select scan_string query [null_int64 tenantID; VTime day] ;;
  match err with
  | Some e => ret ([], Some e)
  | None => ret (paths, None)
  end.

(** [UPDATE "t" SET visitors = $1 WHERE id = $2] *)
Definition update_visitors (table : string) : query :=
  Sql (UPDATE table [ ("visitors", Param 1) ] (Equal (Col "id") (Param 2))).

(** [INSERT INTO "t" (c1, ..., cn) VALUES (:c1, ..., :cn)] *)
Definition insert_named (table : string) (cols : list string) : query :=
  Sql (INSERT table cols [ map Named cols ]).

(** [SELECT id, visitors FROM "t" WHERE w] *)
Definition select_id_visitors (table : string) (w : expr) : query :=
  Sql (SELECT false [Col "id"; Col "visitors"] table w).

(** The first three conjuncts of every lookup:
    [($1::bigint IS NULL OR tenant_id = $1) AND "day" = $2
     AND LOWER("path") = LOWER($3)] *)
Definition day_path_scope : expr :=
  And (And tenant_scope (Equal (Col "day") (Param 2)))
      (Equal (Lower (Col "path")) (Lower (Param 3))).

Definition is_nil (err : option error) : bool :=
  match err with
  | None => true
  | Some _ => false
  end.

(** SaveVisitorStats *)
Definition SaveVisitorStats (tx : option nat) (entity : VisitorStats)
  : M (option error) :=
  with_tx tx (fun tx =>
    let existing := new in
    (* SELECT id, visitors FROM "visitor_stats"
       WHERE ($1::bigint IS NULL OR tenant_id = $1)
       AND "day" = $2 AND LOWER("path") = LOWER($3) *)
    '(existing, err) <-
      Tx_Get db_scan tx existing
        (select_id_visitors "visitor_stats" day_path_scope)
        [ null_int64 (TenantID (base entity)); VDate (Day (base entity));
          VText (Path (base entity)) ] ;;
    if is_nil err then
      (* existing.Visitors += entity.Visitors *)
      let existing :=
        with_base
          (mkStats (ID (base existing)) (TenantID (base existing))
             (Day (base existing)) (Path (base existing))
             (int_add (Visitors (base existing)) (Visitors (base entity))))
          existing in
      (* existing.PlatformDesktop += entity.PlatformDesktop *)
      let existing :=
        mkVisitorStats (VisitorStats_Stats existing)
          (int_add (PlatformDesktop existing) (PlatformDesktop entity))
          (PlatformMobile existing) (PlatformUnknown existing) in
      (* existing.PlatformMobile += entity.PlatformMobile *)
      let existing :=
        mkVisitorStats (VisitorStats_Stats existing) (PlatformDesktop existing)
          (int_add (PlatformMobile existing) (PlatformMobile entity))
          (PlatformUnknown existing) in
      (* existing.PlatformUnknown += entity.PlatformUnknown *)
      let existing :=
        mkVisitorStats (VisitorStats_Stats existing) (PlatformDesktop existing)
          (PlatformMobile existing)
          (int_add (PlatformUnknown existing) (PlatformUnknown entity)) in
      (* UPDATE "visitor_stats" SET visitors = $1, platform_desktop = $2,
         platform_mobile = $3, platform_unknown = $4 WHERE id = $5 *)
      err <-
        Tx_Exec tx
          (Sql (UPDATE "visitor_stats"
                  [ ("visitors", Param 1); ("platform_desktop", Param 2);
                    ("platform_mobile", Param 3); ("platform_unknown", Param 4) ]
                  (Equal (Col "id") (Param 5))))
          [ VInt (Visitors (base existing)); VInt (PlatformDesktop existing);
            VInt (PlatformMobile existing); VInt (PlatformUnknown existing);
            VInt (ID (base existing)) ] ;;
      match err with
      | Some e => ret (Some e)
      | None => ret None
      end
    else
      (* INSERT INTO "visitor_stats" ("tenant_id", "day", "path", "visitors",
         "platform_desktop", "platform_mobile", "platform_unknown")
         VALUES (:tenant_id, :day, :path, :visitors, :platform_desktop,
         :platform_mobile, :platform_unknown) *)
      '(rows, err) <-
        Tx_NamedQuery tx
          (Sql (INSERT "visitor_stats"
                  [ "tenant_id"; "day"; "path"; "visitors"; "platform_desktop";
                    "platform_mobile"; "platform_unknown" ]
                  [ [ Named "tenant_id"; Named "day"; Named "path";
                      Named "visitors"; Named "platform_desktop";
                      Named "platform_mobile"; Named "platform_unknown" ] ]))
          (db_fields entity) ;;
      match err with
      | Some e => ret (Some e)
      | None =>
          _ <- closeRows rows ;;
          ret None
      end).

(** createUpdateEntity *)
Definition createUpdateEntity {E} `{StatsEntity E} (tx : nat)
  (entity existing : E) (found : bool) (insertQuery updateQuery : query)
  : M (option error) :=
  if found then
    let visitors := int_add (GetVisitors existing) (GetVisitors entity) in
    err <- Tx_Exec tx updateQuery [VInt visitors; VInt (GetID existing)] ;;
    match err with
    | Some e => ret (Some e)
    | None => ret None
    end
  else
    '(rows, err) <- Tx_NamedQuery tx insertQuery (db_fields entity) ;;
    match err with
    | Some e => ret (Some e)
    | None =>
        _ <- closeRows rows ;;
        ret None
    end.

(** SaveVisitorTimeStats *)
Definition SaveVisitorTimeStats (tx : option nat) (entity : VisitorTimeStats)
  : M (option error) :=
  with_tx tx (fun tx =>
    let existing := new in
    (* SELECT id, visitors FROM "visitor_time_stats"
       WHERE ($1::bigint IS NULL OR tenant_id = $1) AND "day" = $2
       AND LOWER("path") = LOWER($3) AND "hour" = $4 *)
    '(existing, err) <-
      Tx_Get db_scan tx existing
        (select_id_visitors "visitor_time_stats"
           (And day_path_scope (Equal (Col "hour") (Param 4))))
        [ null_int64 (TenantID (base entity)); VDate (Day (base entity));
          VText (Path (base entity)); VInt (Hour entity) ] ;;
    err <-
      createUpdateEntity tx entity existing (is_nil err)
        (insert_named "visitor_time_stats"
           [ "tenant_id"; "day"; "path"; "hour"; "visitors" ])
        (update_visitors "visitor_time_stats") ;;
    match err with
    | Some e => ret (Some e)
    | None => ret None
    end).

(** SaveLanguageStats *)
Definition SaveLanguageStats (tx : option nat) (entity : LanguageStats)
  : M (option error) :=
  with_tx tx (fun tx =>
    let existing := new in
    (* SELECT id, visitors FROM "language_stats"
       WHERE ($1::bigint IS NULL OR tenant_id = $1) AND "day" = $2
       AND LOWER("path") = LOWER($3) AND LOWER("language") = LOWER($4) *)
    '(existing, err) <-
      Tx_Get db_scan tx existing
        (select_id_visitors "language_stats"
           (And day_path_scope
                (Equal (Lower (Col "language")) (Lower (Param 4)))))
        [ null_int64 (TenantID (base entity)); VDate (Day (base entity));
          VText (Path (base entity)); VText (Language entity) ] ;;
    err <-
      createUpdateEntity tx entity existing (is_nil err)
        (insert_named "language_stats"
           [ "tenant_id"; "day"; "path"; "language"; "visitors" ])
        (update_visitors "language_stats") ;;
    match err with
    | Some e => ret (Some e)
    | None => ret None
    end).

(** SaveReferrerStats *)
Definition SaveReferrerStats (tx : option nat) (entity : ReferrerStats)
  : M (option error) :=
  with_tx tx (fun tx =>
    let existing := new in
    (* SELECT id, visitors FROM "referrer_stats"
       WHERE ($1::bigint IS NULL OR tenant_id = $1) AND "day" = $2
       AND LOWER("path") = LOWER($3) AND LOWER("referrer") = LOWER($4) *)
    '(existing, err) <-
      Tx_Get db_scan tx existing
        (select_id_visitors "referrer_stats"
           (And day_path_scope
                (Equal (Lower (Col "referrer")) (Lower (Param 4)))))
        [ null_int64 (TenantID (base entity)); VDate (Day (base entity));
          VText (Path (base entity)); VText (Referrer entity) ] ;;
    err <-
      createUpdateEntity tx entity existing (is_nil err)
        (insert_named "referrer_stats"
           [ "tenant_id"; "day"; "path"; "referrer"; "visitors" ])
        (update_visitors "referrer_stats") ;;
    match err with
    | Some e => ret (Some e)
    | None => ret None
    end).

(** SaveOSStats *)
Definition SaveOSStats (tx : option nat) (entity : OSStats)
  : M (option error) :=
  with_tx tx (fun tx =>
    let existing := new in
    (* SELECT id, visitors FROM "os_stats"
       WHERE ($1::bigint IS NULL OR tenant_id = $1) AND "day" = $2
       AND LOWER("path") = LOWER($3) AND "os" = $4 AND "os_version" = $5 *)
    '(existing, err) <-
      Tx_Get db_scan tx existing
        (select_id_visitors "os_stats"
           (And (And day_path_scope (Equal (Col "os") (Param 4)))
                (Equal (Col "os_version") (Param 5))))
        [ null_int64 (TenantID (base entity)); VDate (Day (base entity));
          VText (Path (base entity)); VText (OS entity);
          VText (OSVersion entity) ] ;;
    err <-
      createUpdateEntity tx entity existing (is_nil err)
        (insert_named "os_stats"
           [ "tenant_id"; "day"; "path"; "os"; "os_version"; "visitors" ])
        (update_visitors "os_stats") ;;
    match err with
    | Some e => ret (Some e)
    | None => ret None
    end).

(** SaveBrowserStats *)
Definition SaveBrowserStats (tx : option nat) (entity : BrowserStats)
  : M (option error) :=
  with_tx tx (fun tx =>
    let existing := new in
    (* SELECT id, visitors FROM "browser_stats"
       WHERE ($1::bigint IS NULL OR tenant_id = $1) AND "day" = $2
       AND LOWER("path") = LOWER($3) AND "browser" = $4 AND "browser_version" = $5 *)
    '(existing, err) <-
      Tx_Get db_scan tx existing
        (select_id_visitors "browser_stats"
           (And (And day_path_scope (Equal (Col "browser") (Param 4)))
                (Equal (Col "browser_version") (Param 5))))
        [ null_int64 (TenantID (base entity)); VDate (Day (base entity));
          VText (Path (base entity)); VText (Browser entity);
          VText (BrowserVersion entity) ] ;;
    err <-
      createUpdateEntity tx entity existing (is_nil err)
        (insert_named "browser_stats"
           [ "tenant_id"; "day"; "path"; "browser"; "browser_version";
             "visitors" ])
        (update_visitors "browser_stats") ;;
    match err with
    | Some e => ret (Some e)
    | None => ret None
    end).

(** * Vocabulary of the properties *)

(** ** Worlds *)

(** The world after one call has reached the engine: the call is on the
    trace and its fault flag is consumed. *)
Definition stepped (w : World) (ev : event) : World :=
  mkWorld (committed w) (open_txs w) (next_tx w) (tl (faults w))
    (order w) (today w) (logged w) (trace w ++ [ev]).

(** The world after [DB_Beginx] has opened a transaction. *)
Definition begun (w : World) : World :=
  mkWorld (committed w) ((next_tx w, committed w) :: open_txs w)
    (S (next_tx w)) (tl (faults w)) (order w) (today w) (logged w)
    (trace w ++ [Begin (next_tx w)]).

(** In [w'] the engine has no fault left to give, and it has kept the row
    order and the date of [w]. *)
Definition quiet (w w' : World) : Prop :=
  faults w' = [] /\ order w' = order w /\ today w' = today w.

(** The same world with another schedule of faults. *)
Definition with_faults (fs : list bool) (w : World) : World :=
  mkWorld (committed w) (open_txs w) (next_tx w) fs (order w) (today w)
    (logged w) (trace w).

(** A store that has never been written to, on an engine without faults
    that returns rows in table order. *)
Definition fresh_world : World :=
  mkWorld empty_database [] 0 [] [] 19800 [] [].

(** ** Reading a row that conforms to its schema *)

(** Every row of a table conforms to the schema. *)
Definition conforming (s : schema) (rs : list Row) : bool :=
  forallb (row_conforms s) rs.

(** The first column of a schema with a given name. *)
Fixpoint find_column (s : schema) (c : string) : option column :=
  match s with
  | [] => None
  | k :: s' => if String.eqb c (col_name k) then Some k else find_column s' c
  end.

(** The content of a column of a given kind. *)
Definition row_int (c : string) (r : Row) : Z :=
  match row_get c r with Some (VInt n) => n | _ => 0 end.

Definition row_opt_int (c : string) (r : Row) : option Z :=
  match row_get c r with Some (VInt n) => Some n | _ => None end.

Definition row_text (c : string) (r : Row) : string :=
  match row_get c r with Some (VText s) => s | _ => EmptyString end.

Definition row_time (c : string) (r : Row) : Z :=
  match row_get c r with Some (VTime t) => t | _ => 0 end.

Definition row_date (c : string) (r : Row) : Z :=
  match row_get c r with Some (VDate d) => d | _ => 0 end.

(** ** Scope and day of a hit *)

(** [scope is global OR row.tenant_id == scope.tenant_id] *)
Definition in_scope (scope : option Z) (r : Row) : bool :=
  match scope with
  | None => true
  | Some t =>
      match row_opt_int "tenant_id" r with
      | Some n => n =? t
      | None => false
      end
  end.

(** The value of the tenant clause on a row: unknown when the scope names a
    tenant and the row has none. *)
Definition scope_value (scope : option Z) (r : Row) : value :=
  match scope with
  | None => VBool true
  | Some t =>
      match row_opt_int "tenant_id" r with
      | Some n => VBool (n =? t)
      | None => VNull
      end
  end.

(** [t] lies in [day 00:00, day+1 00:00). *)
Definition in_day (day t : Z) : bool :=
  (day * one_day <=? t) && (t <? (day + 1) * one_day).

(** The database without the hits of a scope on a day: every other hit is
    kept as it is, every other table too. *)
Definition without_day (scope : option Z) (day : Z) (db : Database) : Database :=
  set_table T_hit
    (mkTable
       (filter (fun r => negb (in_scope scope r
                               && in_day day (row_time "time" r)))
          (rows (hit db)))
       (serial (hit db)))
    db.

(** A hit of the scope on a day before [today]. *)
Definition past_day_of (today : Z) (scope : option Z) (r : Row) : bool :=
  in_scope scope r && (date_of (row_time "time" r) <? today).

(** The day in a result row of [Days]. *)
Definition day_cell (row : list value) : Z :=
  match row with
  | [VDate d] => d
  | _ => 0
  end.

Fixpoint ascending (l : list Z) : bool :=
  match l with
  | a :: ((b :: _) as l') => (a <=? b) && ascending l'
  | _ => true
  end.

(** ** The statement of [SaveHits] *)

(** The fourteen values one pass of the loop appends to [args]. *)
Definition Hit_args (h : Hit) : list value :=
  [ null_int64 (Hit_TenantID h); VText (Hit_Fingerprint h);
    VText (Hit_Path h); VText (Hit_URL h); VText (Hit_Language h);
    VText (Hit_UserAgent h); VText (Hit_Ref h); VText (Hit_OS h);
    VText (Hit_OSVersion h); VText (Hit_Browser h);
    VText (Hit_BrowserVersion h); VBool (Hit_Desktop h);
    VBool (Hit_Mobile h); VTime (Hit_Time h) ].

(** The row of ["hit"] that carries the fourteen fields of a hit. *)
Definition Hit_row (h : Hit) : Row :=
  [ ("tenant_id", null_int64 (Hit_TenantID h));
    ("fingerprint", VText (Hit_Fingerprint h));
    ("path", VText (Hit_Path h));
    ("url", VText (Hit_URL h));
    ("language", VText (Hit_Language h));
    ("user_agent", VText (Hit_UserAgent h));
    ("ref", VText (Hit_Ref h));
    ("os", VText (Hit_OS h));
    ("os_version", VText (Hit_OSVersion h));
    ("browser", VText (Hit_Browser h));
    ("browser_version", VText (Hit_BrowserVersion h));
    ("desktop", VBool (Hit_Desktop h));
    ("mobile", VBool (Hit_Mobile h));
    ("time", VTime (Hit_Time h)) ].

(** One tuple of the statement as [SaveHits] leaves it after the slice:
    the text of [tuple_text] without its last comma. *)
Definition tuple_body (index : nat) : string :=
  ("($" ++ itoa (index + 1) ++ ", $" ++ itoa (index + 2)
   ++ ", $" ++ itoa (index + 3) ++ ", $" ++ itoa (index + 4)
   ++ ", $" ++ itoa (index + 5) ++ ", $" ++ itoa (index + 6)
   ++ ", $" ++ itoa (index + 7) ++ ", $" ++ itoa (index + 8)
   ++ ", $" ++ itoa (index + 9) ++ ", $" ++ itoa (index + 10)
   ++ ", $" ++ itoa (index + 11) ++ ", $" ++ itoa (index + 12)
   ++ ", $" ++ itoa (index + 13) ++ ", $" ++ itoa (index + 14)
   ++ ")")%string%nat.

(** The fourteen parameter numbers of the tuple at [index]. *)
Definition placeholders (index : nat) : list nat :=
  map (fun k => (index + k)%nat) (seq 1 14).

(** The tokens of [tuple_body]. *)
Definition tuple_tokens (index : nat) : list token :=
  [ TLParen; TParam (index + 1); TComma; TParam (index + 2); TComma;
    TParam (index + 3); TComma; TParam (index + 4); TComma;
    TParam (index + 5); TComma; TParam (index + 6); TComma;
    TParam (index + 7); TComma; TParam (index + 8); TComma;
    TParam (index + 9); TComma; TParam (index + 10); TComma;
    TParam (index + 11); TComma; TParam (index + 12); TComma;
    TParam (index + 13); TComma; TParam (index + 14); TRParen ]%nat.

(** The text of [n + 1] tuples from position [i] on, without the comma
    that the loop writes behind the last one. *)
Fixpoint values_body (i n : nat) : string :=
  match n with
  | O => tuple_body (i * 14)
  | S n' => (tuple_body (i * 14) ++ "," ++ values_body (S i) n')%string
  end.

(** The parameter numbers of [n] tuples from position [i] on. *)
Fixpoint tuples_from (i n : nat) : list (list nat) :=
  match n with
  | O => []
  | S n' => placeholders (i * 14) :: tuples_from (S i) n'
  end.

(** ** The six merges as one operation *)

Inductive entity : Type :=
| PerPage (e : VisitorStats)
| PerHour (e : VisitorTimeStats)
| PerLanguage (e : LanguageStats)
| PerReferrer (e : ReferrerStats)
| PerOS (e : OSStats)
| PerBrowser (e : BrowserStats).

Definition Save (tx : option nat) (e : entity) : M (option error) :=
  match e with
  | PerPage e => SaveVisitorStats tx e
  | PerHour e => SaveVisitorTimeStats tx e
  | PerLanguage e => SaveLanguageStats tx e
  | PerReferrer e => SaveReferrerStats tx e
  | PerOS e => SaveOSStats tx e
  | PerBrowser e => SaveBrowserStats tx e
  end.

Definition table_of (e : entity) : table_name :=
  match e with
  | PerPage _ => T_visitor_stats
  | PerHour _ => T_visitor_time_stats
  | PerLanguage _ => T_language_stats
  | PerReferrer _ => T_referrer_stats
  | PerOS _ => T_os_stats
  | PerBrowser _ => T_browser_stats
  end.

Definition table_text (e : entity) : string :=
  match e with
  | PerPage _ => "visitor_stats"
  | PerHour _ => "visitor_time_stats"
  | PerLanguage _ => "language_stats"
  | PerReferrer _ => "referrer_stats"
  | PerOS _ => "os_stats"
  | PerBrowser _ => "browser_stats"
  end.

Definition stats_of (e : entity) : Stats :=
  match e with
  | PerPage e => base e
  | PerHour e => base e
  | PerLanguage e => base e
  | PerReferrer e => base e
  | PerOS e => base e
  | PerBrowser e => base e
  end.

Definition entity_fields (e : entity) : list (string * value) :=
  match e with
  | PerPage e => db_fields e
  | PerHour e => db_fields e
  | PerLanguage e => db_fields e
  | PerReferrer e => db_fields e
  | PerOS e => db_fields e
  | PerBrowser e => db_fields e
  end.

(** *** The statements of a merge, as the six methods write them *)

Definition lookup_clause (e : entity) : expr :=
  match e with
  | PerPage _ => day_path_scope
  | PerHour _ => And day_path_scope (Equal (Col "hour") (Param 4))
  | PerLanguage _ =>
      And day_path_scope (Equal (Lower (Col "language")) (Lower (Param 4)))
  | PerReferrer _ =>
      And day_path_scope (Equal (Lower (Col "referrer")) (Lower (Param 4)))
  | PerOS _ =>
      And (And day_path_scope (Equal (Col "os") (Param 4)))
          (Equal (Col "os_version") (Param 5))
  | PerBrowser _ =>
      And (And day_path_scope (Equal (Col "browser") (Param 4)))
          (Equal (Col "browser_version") (Param 5))
  end.

Definition lookup_args (e : entity) : list value :=
  [ null_int64 (TenantID (stats_of e)); VDate (Day (stats_of e));
    VText (Path (stats_of e)) ] ++
  match e with
  | PerPage _ => []
  | PerHour e => [VInt (Hour e)]
  | PerLanguage e => [VText (Language e)]
  | PerReferrer e => [VText (Referrer e)]
  | PerOS e => [VText (OS e); VText (OSVersion e)]
  | PerBrowser e => [VText (Browser e); VText (BrowserVersion e)]
  end.

Definition lookup_query (e : entity) : query :=
  select_id_visitors (table_text e) (lookup_clause e).

(** The columns of an aggregate row that hold the key and the counters of
    its dimension, with the values an entity gives them. *)
Definition own_columns (e : entity) : list (string * value) :=
  match e with
  | PerPage e =>
      [ ("visitors", VInt (Visitors (base e)));
        ("platform_desktop", VInt (PlatformDesktop e));
        ("platform_mobile", VInt (PlatformMobile e));
        ("platform_unknown", VInt (PlatformUnknown e)) ]
  | PerHour e =>
      [ ("hour", VInt (Hour e)); ("visitors", VInt (Visitors (base e))) ]
  | PerLanguage e =>
      [ ("language", VText (Language e));
        ("visitors", VInt (Visitors (base e))) ]
  | PerReferrer e =>
      [ ("referrer", VText (Referrer e));
        ("visitors", VInt (Visitors (base e))) ]
  | PerOS e =>
      [ ("os", VText (OS e)); ("os_version", VText (OSVersion e));
        ("visitors", VInt (Visitors (base e))) ]
  | PerBrowser e =>
      [ ("browser", VText (Browser e));
        ("browser_version", VText (BrowserVersion e));
        ("visitors", VInt (Visitors (base e))) ]
  end.

Definition insert_statement (e : entity) : statement :=
  let cols := ["tenant_id"; "day"; "path"] ++ map fst (own_columns e) in
  INSERT (table_text e) cols [map Named cols].

Definition update_statement (e : entity) : statement :=
  match e with
  | PerPage _ =>
      UPDATE "visitor_stats"
        [ ("visitors", Param 1); ("platform_desktop", Param 2);
          ("platform_mobile", Param 3); ("platform_unknown", Param 4) ]
        (Equal (Col "id") (Param 5))
  | _ =>
      UPDATE (table_text e) [ ("visitors", Param 1) ]
        (Equal (Col "id") (Param 2))
  end.

(** The arguments of the update when the lookup returned the row [found]:
    the lookup reads [id] and [visitors] only, the platform counters of
    [existing] are the zeros of [new]. *)
Definition update_args (e : entity) (found : Row) : list value :=
  let v := VInt (int_add (row_int "visitors" found) (Visitors (stats_of e))) in
  match e with
  | PerPage e =>
      [ v; VInt (int_add 0 (PlatformDesktop e));
        VInt (int_add 0 (PlatformMobile e));
        VInt (int_add 0 (PlatformUnknown e)); VInt (row_int "id" found) ]
  | _ => [ v; VInt (row_int "id" found) ]
  end.

(** *** The key tuple of a row *)

(** The key fields of a dimension beside tenant, day and path, as the
    lookup compares them: text of the language and referrer dimensions
    folded to lower case, everything else as it is. *)
Definition own_key (e : entity) : list value :=
  match e with
  | PerPage _ => []
  | PerHour e => [VInt (Hour e)]
  | PerLanguage e => [VText (lower (Language e))]
  | PerReferrer e => [VText (lower (Referrer e))]
  | PerOS e => [VText (OS e); VText (OSVersion e)]
  | PerBrowser e => [VText (Browser e); VText (BrowserVersion e)]
  end.

Definition row_own_key (t : table_name) (r : Row) : list value :=
  match t with
  | T_hit | T_visitor_stats => []
  | T_visitor_time_stats => [VInt (row_int "hour" r)]
  | T_language_stats => [VText (lower (row_text "language" r))]
  | T_referrer_stats => [VText (lower (row_text "referrer" r))]
  | T_os_stats => [VText (row_text "os" r); VText (row_text "os_version" r)]
  | T_browser_stats =>
      [VText (row_text "browser" r); VText (row_text "browser_version" r)]
  end.

Definition values_eqb (a b : list value) : bool :=
  if list_eq_dec value_eq_dec a b then true else false.

(** The WHERE clause of the lookup of a merge, as a predicate on rows. *)
Definition key_matches (e : entity) (r : Row) : bool :=
  in_scope (TenantID (stats_of e)) r
  && (row_date "day" r =? Day (stats_of e))
  && String.eqb (lower (row_text "path" r)) (lower (Path (stats_of e)))
  && values_eqb (row_own_key (table_of e) r) (own_key e).



(** Two updates of one dimension whose key tuples differ at most in the
    letter case of the path, of the language or of the referrer. *)
Definition differ_only_in_case (a b : entity) : bool :=
  match a, b with
  | PerPage _, PerPage _ | PerHour _, PerHour _
  | PerLanguage _, PerLanguage _ | PerReferrer _, PerReferrer _
  | PerOS _, PerOS _ | PerBrowser _, PerBrowser _ =>
      values_eqb [null_int64 (TenantID (stats_of a))]
        [null_int64 (TenantID (stats_of b))]
      && (Day (stats_of a) =? Day (stats_of b))
      && String.eqb (lower (Path (stats_of a))) (lower (Path (stats_of b)))
      && values_eqb (own_key a) (own_key b)
  | _, _ => false
  end.

(** *** What a merge does *)

(** The row a lookup without fault returns: of the rows that match, the one
    the engine puts first. *)
Definition found_row (order : list nat) (e : entity) (db : Database)
  : option Row :=
  hd_error (arrange order
              (filter (key_matches e) (rows (get_table (table_of e) db)))).

(** The row the lookup hands to the merge: none when the lookup fails. *)
Definition looked_up (e : entity) (w : World) (db : Database) : option Row :=
  if hd false (faults w) then None else found_row (order w) e db.

(** The row the insert branch of a merge creates. *)
Definition entity_row (e : entity) (id : Z) : Row :=
  [ ("id", VInt id); ("tenant_id", null_int64 (TenantID (stats_of e)));
    ("day", VDate (Day (stats_of e))); ("path", VText (Path (stats_of e))) ]
  ++ own_columns e.

(** What the update branch writes to the row it found: the sum for the
    visitor counter; for a page row the three platform counters too, each
    the sum of zero and the delta, since the lookup does not read them. *)
Definition bumped (e : entity) (found : Row) (r : Row) : Row :=
  let r :=
    row_set "visitors"
      (VInt (int_add (row_int "visitors" found) (Visitors (stats_of e)))) r in
  match e with
  | PerPage e =>
      row_set "platform_unknown" (VInt (int_add 0 (PlatformUnknown e)))
        (row_set "platform_mobile" (VInt (int_add 0 (PlatformMobile e)))
           (row_set "platform_desktop" (VInt (int_add 0 (PlatformDesktop e))) r))
  | _ => r
  end.

(** The database after the update branch and after the insert branch. *)
Definition updated (e : entity) (found : Row) (db : Database) : Database :=
  let t := get_table (table_of e) db in
  set_table (table_of e)
    (mkTable
       (map (fun r => if row_int "id" r =? row_int "id" found
                      then bumped e found r else r) (rows t))
       (serial t))
    db.

Definition inserted (e : entity) (db : Database) : Database :=
  let t := get_table (table_of e) db in
  set_table (table_of e)
    (mkTable (rows t ++ [entity_row e (serial t)]) (serial t + 1)) db.

(** The database after a merge whose write went through. *)
Definition merge_result (e : entity) (w : World) (db : Database) : Database :=
  match looked_up e w db with
  | Some r => updated e r db
  | None => inserted e db
  end.

(** The merge on an engine without faults, as a function on databases:
    find, then increment or insert. *)
Definition merged (order : list nat) (e : entity) (db : Database) : Database :=
  match found_row order e db with
  | Some r => updated e r db
  | None => inserted e db
  end.

(** The calls a merge makes inside the transaction [tx]. *)
Definition merge_calls (e : entity) (tx : nat) (w : World) (db : Database)
  : list event :=
  Statement (Some tx) (lookup_query e) (mkBindings (lookup_args e) []) ::
  match looked_up e w db with
  | Some r =>
      [ Statement (Some tx) (Sql (update_statement e))
          (mkBindings (update_args e r) []) ]
  | None =>
      Statement (Some tx) (Sql (insert_statement e))
        (mkBindings [] (entity_fields e))
      :: (if hd false (tl (faults w)) then [] else [CloseRows])
  end.

(** ** Stores and entities of the examples *)

(** The page/day entity of the scenario: all tenants, 2024-01-01 (day 19723
    of the epoch), path [/a]. *)
Definition page_a (visitors desktop mobile unknown : Z) : VisitorStats :=
  mkVisitorStats (mkStats 0 None 19723 "/a" visitors) desktop mobile unknown.

Definition page_a_row (id visitors desktop mobile unknown : Z) : Row :=
  [ ("id", VInt id); ("tenant_id", VNull); ("day", VDate 19723);
    ("path", VText "/a"); ("visitors", VInt visitors);
    ("platform_desktop", VInt desktop); ("platform_mobile", VInt mobile);
    ("platform_unknown", VInt unknown) ].

(** The page entities of the letter-case example: tenant 1, 2024-01-01. *)
Definition page_Home : entity :=
  PerPage (mkVisitorStats (mkStats 0 (Some 1) 19723 "/Home" 3) 1 1 1).

Definition page_home : entity :=
  PerPage (mkVisitorStats (mkStats 0 (Some 1) 19723 "/home" 4) 2 1 1).

(** The language entity of the examples: tenant 1, 2024-01-01, path [/a],
    language [en]. *)
Definition english (visitors : Z) : LanguageStats :=
  mkLanguageStats (mkStats 0 (Some 1) 19723 "/a" visitors) "en".

Definition english_row (id visitors : Z) : Row :=
  [ ("id", VInt id); ("tenant_id", VInt 1); ("day", VDate 19723);
    ("path", VText "/a"); ("language", VText "en");
    ("visitors", VInt visitors) ].

(** A store that holds the one language row [english_row 1 1], seen from
    inside the open transaction 0. *)
Definition english_database : Database :=
  set_table T_language_stats (mkTable [english_row 1 1] 2) empty_database.

Definition joined_world (fs : list bool) : World :=
  mkWorld english_database [(0%nat, english_database)] 1 fs [] 19800 [] [].

(** A hit of tenant 1 on path [/a], one hundred seconds into day 0. *)
Definition a_hit : Hit :=
  mkHit (Some 1) "fp" "/a" "https://example.com/a" "en" "agent" EmptyString
    "Linux" EmptyString "Firefox" "80" true false 100.

Definition hit_at (tenant : option Z) (path : string) (t : Z) : Hit :=
  mkHit tenant "fp" path "https://example.com" "en" "agent" EmptyString
    "Linux" EmptyString "Firefox" "80" true false t.

(** Three hits, written in this order: tenant 1 on day 2, tenant 2 on day 1,
    tenant 1 on day 1. *)
Definition three_hits : list Hit :=
  [ hit_at (Some 1) "/a" (2 * one_day + 5);
    hit_at (Some 2) "/b" (1 * one_day + 7);
    hit_at (Some 1) "/c" (1 * one_day + 3600) ].

Definition three_hits_world : World :=
  mkWorld
    (set_table T_hit (mkTable (map Hit_row three_hits) 1) empty_database)
    [] 0 [] [] 19800 [] [].

(** ** Calls inside a transaction *)

(** A call a method makes inside the transaction [tx]: a statement sent on
    [tx], or the closing of the rows of one. *)
Definition inside_call (tx : nat) (ev : event) : bool :=
  match ev with
  | Statement (Some h) _ _ => Nat.eqb h tx
  | CloseRows => true
  | _ => false
  end.

(** From [w] to [w'] nothing has happened but calls inside [tx]: the
    committed state is the same, no transaction was begun or ended, every
    other transaction sees what it saw. *)
Definition inside (tx : nat) (w w' : World) : Prop :=
  committed w' = committed w /\
  next_tx w' = next_tx w /\
  map fst (open_txs w') = map fst (open_txs w) /\
  (forall h, h <> tx -> view_of h (open_txs w') = view_of h (open_txs w)) /\
  exists calls,
    trace w' = trace w ++ calls /\ forallb (inside_call tx) calls = true.

(** [m] returns in every world, and does nothing but calls inside [tx]. *)
Definition stays_inside (tx : nat) {A} (m : M A) : Prop :=
  forall w, exists a w', m w = Ret a w' /\ inside tx w w'.

(** ** The end of a transaction *)

(** The world with one more line in the log. *)
Definition note (msg : string) (w : World) : World :=
  mkWorld (committed w) (open_txs w) (next_tx w) (faults w) (order w)
    (today w) (logged w ++ [msg]) (trace w).

(** The world after [Commit] on the open transaction [tx]: the view of [tx]
    is committed, or, when the engine fails the commit, dropped with a line
    in the log. *)
Definition committing (tx : nat) (w : World) : World :=
  let w1 := stepped w (CommitTx tx) in
  if hd false (faults w) then
    note "error committing transaction: driver: bad connection"
      (end_tx tx false w1)
  else end_tx tx true w1.

(** The world after [Rollback] on the open transaction [tx]. *)
Definition rolling_back (tx : nat) (w : World) : World :=
  let w1 := stepped w (RollbackTx tx) in
  if hd false (faults w) then
    note "error rolling back transaction: driver: bad connection"
      (end_tx tx false w1)
  else end_tx tx false w1.

(** What a method called without a transaction leaves behind: from [w] to
    [w'] one transaction, [tx], was begun and committed, with calls inside
    it in between; it is open no more. *)
Definition bracketed (tx : nat) (w w' : World) : Prop :=
  next_tx w' = S tx /\
  view_of tx (open_txs w') = None /\
  exists calls,
    trace w' = trace w ++ Begin tx :: calls ++ [CommitTx tx]
    /\ forallb (inside_call tx) calls = true.

(** ** The world after a merge *)

(** The world a merge leaves when it has run inside the open transaction
    [tx], whose view was [db]: the lookup, then the update, or the insert
    and the closing of its rows. *)
Definition after_merge (e : entity) (tx : nat) (w : World) (db : Database)
  : World :=
  let w1 :=
    stepped w (Statement (Some tx) (lookup_query e)
                 (mkBindings (lookup_args e) [])) in
  match looked_up e w db with
  | Some r =>
      let w2 :=
        stepped w1 (Statement (Some tx) (Sql (update_statement e))
                      (mkBindings (update_args e r) [])) in
      if hd false (faults w1) then w2
      else install (Some tx) (updated e r db) w2
  | None =>
      let w2 :=
        stepped w1 (Statement (Some tx) (Sql (insert_statement e))
                      (mkBindings [] (entity_fields e))) in
      if hd false (faults w1) then w2
      else
        let w3 := stepped (install (Some tx) (inserted e db) w2) CloseRows in
        if hd false (faults w2) then
          note "error closing rows: driver: bad connection" w3
        else w3
  end.

(** ** The window of [DeleteHitsByDay] *)

(** [t] lies in the twenty-four hours that start at the instant [from]. *)
Definition in_window (from t : Z) : bool :=
  (from <=? t) && (t <? from + one_day).

(** The database without the hits of a scope in the twenty-four hours from
    [from]: every other hit is kept as it is, every other table too. *)
Definition without_window (scope : option Z) (from : Z) (db : Database)
  : Database :=
  set_table T_hit
    (mkTable
       (filter (fun r => negb (in_scope scope r
                               && in_window from (row_time "time" r)))
          (rows (hit db)))
       (serial (hit db)))
    db.

(** ** The call of [DeleteHitsByDay] *)

(** The statement of [DeleteHitsByDay]. *)
Definition delete_statement : statement :=
  DELETE "hit"
    (And (And tenant_scope (AtLeast (Col "time") (Param 2)))
         (Less (Col "time") (PlusOneDay (Param 2)))).

(** The call [DeleteHitsByDay] makes inside [tx], with its two arguments. *)
Definition delete_call (tx : nat) (scope : option Z) (from : Z) : event :=
  Statement (Some tx) (Sql delete_statement)
    (mkBindings [null_int64 scope; VTime from] []).

(** ** Hits saved and days listed *)

(** The days [Days] lists for a scope: the distinct days before [today] of
    the hits of the scope, in the order the engine chooses. *)
Definition listed_days (today : Z) (order : list nat) (scope : option Z)
  (db : Database) : list Z :=
  map day_cell
    (arrange order
       (nodup row_eq_dec
          (map (fun r => [VDate (date_of (row_time "time" r))])
             (filter (past_day_of today scope) (rows (hit db)))))).

(** The table ["hit"] with the rows of a batch behind the rows it holds. *)
Definition with_hits (hits : list Hit) (db : Database) : Database :=
  set_table T_hit
    (mkTable (rows (hit db) ++ map Hit_row hits) (serial (hit db))) db.

(** ** Ids, and calls that do not reach the engine *)

(** The ids of a table are its own: no two rows share one, and each was
    drawn from the sequence before its present value. *)
Definition ids_below_serial (t : Table) : Prop :=
  NoDup (map (row_int "id") (rows t)) /\
  Forall (fun r => row_int "id" r < serial t) (rows t).

(** From [w] to [w'] the engine was not reached: nothing but the trace has
    changed. *)
Definition untouched (w w' : World) : Prop :=
  committed w' = committed w /\ open_txs w' = open_txs w /\
  next_tx w' = next_tx w /\ faults w' = faults w /\ logged w' = logged w.

(** Two names of tables are the same or not. *)
Definition table_name_eq_dec (a b : table_name) : {a = b} + {a <> b}.
Proof. decide equality. Defined.

(** ** Two merges of one key *)

(** The row a merge has written: the row it found, with its new counters,
    or the row it inserted. *)
Definition written_row (order : list nat) (e : entity) (db : Database) : Row :=
  match found_row order e db with
  | Some f => bumped e f f
  | None => entity_row e (serial (get_table (table_of e) db))
  end.


(** * Properties *)

Unset Implicit Arguments.

(** ** The engine calls, one step at a time *)

Lemma run_query_eq (on : option nat) (q : query) (b : bindings) (w : World)
  (db : Database) :
  target on w = Some db ->
  run_query on q b w =
  let w1 := stepped w (Statement on q b) in
  if hd false (faults w) then Ret (no_result, Some ErrBadConn) w1
  else
    match bind_opt (parse q) (fun s => execute (today w) (order w) b s db) with
    | None => Ret (no_result, Some ErrSQL) w1
    | Some (db', res) => Ret (res, None) (install on db' w1)
    end.
Proof.
  intros Ht. unfold run_query, bind, emit, take_fault, ret.
  replace (target on _) with (target on w) by (destruct on; reflexivity).
  rewrite Ht. cbn.
  destruct (hd false (faults w)); [reflexivity|].
  destruct (bind_opt _ _) as [[db' res]|]; destruct on; reflexivity.
Qed.

Lemma view_of_set_view (tx : nat) (db db' : Database) (txs : list (nat * Database)) :
  view_of tx txs = Some db -> view_of tx (set_view tx db' txs) = Some db'.
Proof.
  induction txs as [|[h old] txs IH]; [discriminate|].
  cbn [view_of set_view]. destruct (Nat.eqb tx h) eqn:E.
  - intros _. cbn [view_of]. now rewrite E.
  - intro H. cbn [view_of]. rewrite E. now apply IH.
Qed.

Lemma set_view_same (tx : nat) (db : Database) (txs : list (nat * Database)) :
  view_of tx txs = Some db -> set_view tx db txs = txs.
Proof.
  induction txs as [|[h old] txs IH]; [reflexivity|].
  cbn [view_of set_view]. destruct (Nat.eqb tx h) eqn:E.
  - now intros [= ->].
  - intro H. now rewrite IH.
Qed.

Lemma install_same (tx : nat) (db : Database) (w : World) :
  view_of tx (open_txs w) = Some db -> install (Some tx) db w = w.
Proof.
  intro H. unfold install. rewrite (set_view_same _ _ _ H). now destruct w.
Qed.

Lemma NewTx_ok (w : World) :
  hd false (faults w) = false -> NewTx w = Ret (next_tx w) (begun w).
Proof.
  intro Hf. unfold NewTx, DB_Beginx, bind, emit, take_fault, ret. cbn.
  rewrite Hf. reflexivity.
Qed.

Lemma Commit_ok (tx : nat) (w : World) (db : Database) :
  view_of tx (open_txs w) = Some db ->
  hd false (faults w) = false ->
  Commit tx w = Ret tt (end_tx tx true (stepped w (CommitTx tx))).
Proof.
  intros Hv Hf. unfold Commit, Tx_Commit, bind, emit, take_fault, ret. cbn.
  rewrite Hv. cbn. rewrite Hf. reflexivity.
Qed.

Lemma with_tx_quiet {A} (tx : option nat) (body : nat -> M A) (w : World)
  (db db' : Database) (r : A) :
  target tx w = Some db ->
  faults w = [] ->
  (forall h w0,
      view_of h (open_txs w0) = Some db -> quiet w w0 ->
      exists w1,
        body h w0 = Ret r w1 /\ view_of h (open_txs w1) = Some db'
        /\ quiet w w1) ->
  exists w',
    with_tx tx body w = Ret r w' /\ target tx w' = Some db' /\ quiet w w'.
Proof.
  intros Ht Hf Hbody. destruct tx as [h|].
  - apply (Hbody h w Ht). repeat split; assumption.
  - cbn in Ht. injection Ht as <-.
    unfold with_tx, bind.
    rewrite NewTx_ok by (rewrite Hf; reflexivity).
    destruct (Hbody (next_tx w) (begun w)) as [w1 [Hrun [Hview [Hf1 [Ho1 Ht1]]]]].
    { cbn. now rewrite Nat.eqb_refl. }
    { repeat split; cbn; try reflexivity. now rewrite Hf. }
    rewrite Hrun.
    rewrite (Commit_ok _ _ _ Hview) by (rewrite Hf1; reflexivity).
    eexists. split; [reflexivity|].
    unfold quiet. cbn. rewrite Hview, Hf1. repeat split; assumption.
Qed.

Lemma Tx_Exec_eq (tx : nat) (s : statement) (args : list value) (w : World)
  (db db' : Database) (res : result_set) :
  view_of tx (open_txs w) = Some db ->
  execute (today w) (order w) (mkBindings args []) s db = Some (db', res) ->
  Tx_Exec tx (Sql s) args w
  = let w1 := stepped w (Statement (Some tx) (Sql s) (mkBindings args [])) in
    if hd false (faults w) then Ret (Some ErrBadConn) w1
    else Ret None (install (Some tx) db' w1).
Proof.
  intros Hv He. unfold Tx_Exec, bind.
  rewrite (run_query_eq (Some tx) _ _ w db Hv). cbv zeta.
  destruct (hd false (faults w)); [reflexivity|].
  cbn [parse bind_opt]. rewrite He. reflexivity.
Qed.

Lemma Tx_Exec_ok (tx : nat) (s : statement) (args : list value) (w : World)
  (db db' : Database) (res : result_set) :
  view_of tx (open_txs w) = Some db ->
  faults w = [] ->
  execute (today w) (order w) (mkBindings args []) s db = Some (db', res) ->
  exists w',
    Tx_Exec tx (Sql s) args w = Ret None w'
    /\ view_of tx (open_txs w') = Some db' /\ quiet w w'.
Proof.
  intros Hv Hf He. unfold Tx_Exec, bind.
  rewrite (run_query_eq (Some tx) _ _ w db Hv). cbv zeta.
  rewrite Hf. cbn [hd parse bind_opt]. rewrite He.
  eexists. split; [reflexivity|]. split.
  - cbn. now apply (view_of_set_view tx db).
  - unfold quiet. cbn. rewrite Hf. repeat split; reflexivity.
Qed.

Lemma Tx_NamedQuery_eq (tx : nat) (s : statement) (fields : list (string * value))
  (w : World) (db db' : Database) (res : result_set) :
  view_of tx (open_txs w) = Some db ->
  execute (today w) (order w) (mkBindings [] fields) s db = Some (db', res) ->
  Tx_NamedQuery tx (Sql s) fields w
  = let w1 := stepped w (Statement (Some tx) (Sql s) (mkBindings [] fields)) in
    if hd false (faults w) then Ret (tt, Some ErrBadConn) w1
    else Ret (tt, None) (install (Some tx) db' w1).
Proof.
  intros Hv He. unfold Tx_NamedQuery, bind.
  rewrite (run_query_eq (Some tx) _ _ w db Hv). cbv zeta.
  destruct (hd false (faults w)); [reflexivity|].
  cbn [parse bind_opt]. rewrite He. reflexivity.
Qed.

Lemma closeRows_eq (rows : unit) (w : World) :
  closeRows rows w
  = Ret tt
      (let w1 := stepped w CloseRows in
       if hd false (faults w) then
         mkWorld (committed w1) (open_txs w1) (next_tx w1) (faults w1)
           (order w1) (today w1)
           (logged w1 ++ [("error closing rows: " ++ error_text ErrBadConn)%string])
           (trace w1)
       else w1).
Proof.
  unfold closeRows, Rows_Close, bind, emit, take_fault, ret, Printf. cbn.
  destruct (hd false (faults w)); reflexivity.
Qed.

(** ** Rows that conform to their schema *)

Lemma row_get_conforms (s : schema) :
  forall (r : Row) (c : string) (k : column),
    row_conforms s r = true ->
    find_column s c = Some k ->
    exists v, row_get c r = Some v
              /\ has_kind (col_kind k) (col_nullable k) v = true.
Proof.
  induction s as [|k0 s IH]; intros r c k Hc Hf; [discriminate|].
  destruct r as [|[n v] r]; [discriminate|].
  cbn [row_conforms] in Hc.
  apply andb_prop in Hc as [Hc Hrest]. apply andb_prop in Hc as [Hname Hkind].
  apply String.eqb_eq in Hname. subst n.
  cbn [find_column] in Hf. cbn [row_get].
  destruct (String.eqb c (col_name k0)).
  - injection Hf as <-. exists v. split; [reflexivity | exact Hkind].
  - exact (IH r c k Hrest Hf).
Qed.

Section ConformingRow.

Variable s : schema.
Variable r : Row.
Hypothesis Hconforms : row_conforms s r = true.

(** A column of the schema is in the row, with a value of its kind. *)
Ltac column_value Hf :=
  let v := fresh "v" in
  let Hv := fresh "Hv" in
  let Hk := fresh "Hk" in
  destruct (row_get_conforms s r _ _ Hconforms Hf) as [v [Hv Hk]];
  rewrite Hv; destruct v; try discriminate; reflexivity.

Lemma row_get_int (c : string) :
  find_column s c = Some (mkColumn c KInt false) ->
  row_get c r = Some (VInt (row_int c r)).
Proof. intro Hf. unfold row_int. column_value Hf. Qed.

Lemma row_get_opt_int (c : string) :
  find_column s c = Some (mkColumn c KInt true) ->
  row_get c r = Some (null_int64 (row_opt_int c r)).
Proof. intro Hf. unfold row_opt_int. column_value Hf. Qed.

Lemma row_get_text (c : string) :
  find_column s c = Some (mkColumn c KText false) ->
  row_get c r = Some (VText (row_text c r)).
Proof. intro Hf. unfold row_text. column_value Hf. Qed.

Lemma row_get_time (c : string) :
  find_column s c = Some (mkColumn c KTime false) ->
  row_get c r = Some (VTime (row_time c r)).
Proof. intro Hf. unfold row_time. column_value Hf. Qed.

Lemma row_get_date (c : string) :
  find_column s c = Some (mkColumn c KDate false) ->
  row_get c r = Some (VDate (row_date c r)).
Proof. intro Hf. unfold row_date. column_value Hf. Qed.

End ConformingRow.

Lemma conforming_In (s : schema) (rs : list Row) (r : Row) :
  conforming s rs = true -> In r rs -> row_conforms s r = true.
Proof.
  unfold conforming. rewrite forallb_forall. auto.
Qed.

Lemma row_conforms_set (s : schema) :
  forall (r : Row) (c : string) (k : column) (v : value),
    row_conforms s r = true ->
    find_column s c = Some k ->
    has_kind (col_kind k) (col_nullable k) v = true ->
    row_conforms s (row_set c v r) = true.
Proof.
  induction s as [|k0 s IH]; intros r c k v Hc Hf Hk; [discriminate|].
  destruct r as [|[n v0] r]; [discriminate|].
  cbn [row_conforms] in Hc.
  apply andb_prop in Hc as [Hc Hrest]. apply andb_prop in Hc as [Hname Hkind].
  apply String.eqb_eq in Hname. subst n.
  cbn [find_column] in Hf. cbn [row_set].
  destruct (String.eqb c (col_name k0)).
  - injection Hf as <-. cbn [row_conforms].
    now rewrite String.eqb_refl, Hk, Hrest.
  - cbn [row_conforms]. rewrite String.eqb_refl, Hkind.
    now rewrite (IH r c k v Hrest Hf Hk).
Qed.

Ltac conforms_after_set :=
  repeat first
    [ assumption
    | eapply row_conforms_set; [ | reflexivity | reflexivity ] ].

Lemma row_get_set_other (c c' : string) (v : value) (r : Row) :
  c <> c' -> row_get c (row_set c' v r) = row_get c r.
Proof.
  intro Hne. induction r as [|[n v0] r IH]; [reflexivity|].
  cbn [row_set]. destruct (String.eqb c' n) eqn:E; cbn [row_get].
  - apply String.eqb_eq in E. subst n.
    now rewrite (proj2 (String.eqb_neq c c') Hne).
  - now rewrite IH.
Qed.

Lemma find_column_has (s : schema) (c : string) (k : column) :
  find_column s c = Some k -> has_column s c = true.
Proof.
  unfold has_column. induction s as [|k0 s IH]; cbn [find_column existsb].
  - discriminate.
  - destruct (String.eqb c (col_name k0)); cbn [orb]; auto.
Qed.

Lemma Hit_row_conforms (h : Hit) : row_conforms hit_schema (Hit_row h) = true.
Proof. destruct h as [[t|] ? ? ? ? ? ? ? ? ? ? ? ? ?]; reflexivity. Qed.

(** ** The value of the WHERE clauses *)

Lemma is_Eq_Z (a b : Z) : is_Eq (a ?= b) = (a =? b).
Proof.
  destruct (Z.eqb_spec a b) as [->|Hne].
  - now rewrite Z.compare_refl.
  - destruct (a ?= b) eqn:E; try reflexivity.
    apply Z.compare_eq in E. contradiction.
Qed.

Lemma is_Eq_string (a b : string) : is_Eq (String.compare a b) = String.eqb a b.
Proof.
  destruct (String.eqb_spec a b) as [->|Hne].
  - pose proof (String.compare_antisym b b) as H.
    destruct (String.compare b b); [reflexivity | discriminate..].
  - destruct (String.compare a b) eqn:E; try reflexivity.
    apply String.compare_eq_iff in E. contradiction.
Qed.

Lemma eval_tenant_scope (s : schema) (today : Z) (scope : option Z)
  (rest : list value) (nm : list (string * value)) (r : Row) :
  row_conforms s r = true ->
  find_column s "tenant_id" = Some (mkColumn "tenant_id" KInt true) ->
  eval today (mkBindings (null_int64 scope :: rest) nm) r tenant_scope
  = Some (scope_value scope r).
Proof.
  intros Hc Hf. unfold tenant_scope, scope_value.
  cbn [eval positional nth_param nth_error bind_opt].
  rewrite (row_get_opt_int s r Hc "tenant_id" Hf).
  destruct scope as [t|], (row_opt_int "tenant_id" r) as [n|];
    cbn; rewrite ?is_Eq_Z; try destruct (n =? t); reflexivity.
Qed.

Lemma where_scope_and (scope : option Z) (r : Row) (x : bool) :
  match sql_and (scope_value scope r) (VBool x) with
  | Some (VBool y) => Some y
  | Some VNull => Some false
  | _ => None
  end = Some (in_scope scope r && x).
Proof.
  unfold scope_value, in_scope.
  destruct scope as [t|]; [destruct (row_opt_int "tenant_id" r) as [n|]|];
    [destruct (n =? t)| |]; destruct x; reflexivity.
Qed.

Lemma id_where (today : Z) (s : schema) (args : list value) (n : nat) (i : Z)
  (r : Row) :
  row_conforms s r = true ->
  find_column s "id" = Some (mkColumn "id" KInt false) ->
  nth_param args n = Some (VInt i) ->
  eval_where today (mkBindings args []) (Equal (Col "id") (Param n)) r
  = Some (row_int "id" r =? i).
Proof.
  intros Hc Hid Hn. unfold eval_where. cbn [eval positional].
  rewrite (row_get_int s r Hc "id" Hid), Hn.
  cbn [bind_opt comparison_value compare_values]. now rewrite is_Eq_Z.
Qed.

Lemma select_rows_filter (p : Row -> option bool) (q : Row -> bool)
  (rs : list Row) :
  (forall r, In r rs -> p r = Some (q r)) ->
  select_rows p rs = Some (filter q rs).
Proof.
  induction rs as [|r rs IH]; intro H; [reflexivity|].
  cbn [select_rows filter]. rewrite (H r (or_introl eq_refl)).
  rewrite IH by (intros r' Hr'; apply H; now right).
  reflexivity.
Qed.

Lemma update_rows_map (p : Row -> option bool) (f : Row -> option Row)
  (q : Row -> bool) (g : Row -> Row) (rs : list Row) :
  (forall r, In r rs -> p r = Some (q r)) ->
  (forall r, In r rs -> q r = true -> f r = Some (g r)) ->
  update_rows p f rs = Some (map (fun r => if q r then g r else r) rs).
Proof.
  induction rs as [|r rs IH]; intros Hp Hf; [reflexivity|].
  cbn [update_rows map]. rewrite (Hp r (or_introl eq_refl)).
  rewrite IH; [|intros; apply Hp; now right|intros; apply Hf; auto; now right].
  destruct (q r) eqn:E; [|reflexivity].
  now rewrite (Hf r (or_introl eq_refl) E).
Qed.

Lemma map_opt_map {A B} (f : A -> option B) (g : A -> B) (l : list A) :
  (forall x, In x l -> f x = Some (g x)) -> map_opt f l = Some (map g l).
Proof.
  induction l as [|x l IH]; intro H; [reflexivity|].
  cbn [map_opt map]. rewrite (H x (or_introl eq_refl)).
  rewrite IH by (intros y Hy; apply H; now right). reflexivity.
Qed.

(** ** The order of the rows of a result *)

Lemma insert_at_perm {A} (n : nat) (x : A) (l : list A) :
  Permutation (insert_at n x l) (x :: l).
Proof.
  revert n. induction l as [|y l IH]; intros [|n]; cbn; try reflexivity.
  rewrite IH. apply perm_swap.
Qed.

(** Every script gives a permutation of the rows. *)
Lemma arrange_perm {A} (script : list nat) (l : list A) :
  Permutation (arrange script l) l.
Proof.
  revert script. induction l as [|x l IH]; intro script; cbn; [reflexivity|].
  rewrite insert_at_perm. now rewrite IH.
Qed.

Lemma insert_at_split {A} (x : A) (p1 p2 : list A) :
  insert_at (List.length p1) x (p1 ++ p2) = p1 ++ x :: p2.
Proof.
  induction p1 as [|y p1 IH]; cbn.
  - now destruct p2.
  - now rewrite IH.
Qed.

(** Every order of the rows is the choice of some script. *)
Lemma arrange_complete {A} (l p : list A) :
  Permutation l p -> exists script, arrange script l = p.
Proof.
  revert p. induction l as [|x l IH]; intros p Hp.
  - apply Permutation_nil in Hp. subst p. now exists [].
  - assert (Hin : In x p) by (apply (Permutation_in _ Hp); now left).
    apply in_split in Hin as [p1 [p2 ->]].
    apply Permutation_cons_app_inv in Hp.
    destruct (IH _ Hp) as [script Hs].
    exists (List.length p1 :: script). cbn. rewrite Hs.
    apply insert_at_split.
Qed.

Lemma arrange_nil {A} (script : list nat) (l : list A) :
  arrange script l = [] -> l = [].
Proof.
  intro H. apply Permutation_nil. rewrite <- H. apply arrange_perm.
Qed.

Lemma insert_at_map {A B} (f : A -> B) (n : nat) (x : A) (l : list A) :
  insert_at n (f x) (map f l) = map f (insert_at n x l).
Proof.
  revert n. induction l as [|y l IH]; intros [|n]; cbn; try reflexivity.
  now rewrite IH.
Qed.

Lemma arrange_map {A B} (f : A -> B) (script : list nat) (l : list A) :
  arrange script (map f l) = map f (arrange script l).
Proof.
  revert script. induction l as [|x l IH]; intro script; cbn; [reflexivity|].
  now rewrite IH, insert_at_map.
Qed.

(** ** The text of [SaveHits] and its parse *)

Lemma append_assoc (a b c : string) : ((a ++ b) ++ c = a ++ (b ++ c))%string.
Proof. induction a as [|x a IH]; cbn; [reflexivity | now rewrite IH]. Qed.

Lemma append_nil_r (a : string) : (a ++ EmptyString)%string = a.
Proof. induction a as [|x a IH]; cbn; [reflexivity | now rewrite IH]. Qed.

Lemma drop_last_snoc (s : string) (c : ascii) :
  drop_last (s ++ String c EmptyString) = s.
Proof.
  unfold drop_last.
  assert (Hlen : forall t, (String.length (t ++ String c EmptyString) - 1)%nat
                           = String.length t).
  { induction t as [|x t IH]; cbn; [reflexivity|].
    cbn in IH. destruct (String.length (t ++ String c EmptyString)) eqn:E.
    - destruct t; discriminate.
    - cbn in IH. rewrite Nat.sub_0_r in IH. now rewrite IH. }
  rewrite Hlen.
  induction s as [|x s IH]; cbn; [reflexivity | now rewrite IH].
Qed.

Lemma strip_prefix_app (p s : string) : strip_prefix p (p ++ s) = Some s.
Proof.
  induction p as [|x p IH]; cbn; [reflexivity|].
  now rewrite Ascii.eqb_refl.
Qed.

Lemma lex_digits (d : uint) (n : nat) (rest : string) :
  lex (Digits n) (NilEmpty.string_of_uint d ++ rest)
  = lex (Digits (Nat.of_uint_acc d n)) rest.
Proof.
  revert n.
  induction d; intro n; cbn [NilEmpty.string_of_uint String.append];
    [reflexivity|..];
    cbn [lex]; 
    match goal with |- context [digit_of ?c] =>
      let v := eval vm_compute in (digit_of c) in change (digit_of c) with v end;
    cbv iota; rewrite IHd; cbn [Nat.of_uint_acc];
    rewrite Nat.tail_mul_spec;
    match goal with
    | |- lex (Digits (Nat.of_uint_acc _ ?a)) _ = lex (Digits (Nat.of_uint_acc _ ?b)) _ =>
        replace a with b by lia
    end; reflexivity.
Qed.

Lemma to_uint_not_Nil (n : nat) : Nat.to_uint n <> Nil.
Proof.
  intro E. pose proof (Unsigned.of_to n) as H. rewrite E in H. cbn in H.
  subst n. discriminate.
Qed.

Lemma lex_param (n : nat) (rest : string) :
  lex Dollar (itoa n ++ rest) = lex (Digits n) rest.
Proof.
  unfold itoa. pose proof (Unsigned.of_to n) as H.
  destruct (Nat.to_uint n) eqn:E; [now apply to_uint_not_Nil in E|..];
    cbn [NilEmpty.string_of_uint String.append lex];
    match goal with |- context [digit_of ?c] =>
      let v := eval vm_compute in (digit_of c) in change (digit_of c) with v end;
    cbv iota; rewrite lex_digits;
    unfold Nat.of_uint in H; cbn [Nat.of_uint_acc] in H;
    rewrite Nat.tail_mul_spec in H; cbn [Nat.mul Nat.add] in H; rewrite H;
    reflexivity.
Qed.

Lemma lex_open (s : string) :
  lex Idle (String "(" (String "$" s)) = option_map (cons TLParen) (lex Dollar s).
Proof. cbn. destruct (lex Dollar s); reflexivity. Qed.

Lemma lex_next (n : nat) (s : string) :
  lex (Digits n) (String "," (String " " (String "$" s)))
  = option_map (fun ts => TParam n :: TComma :: ts) (lex Dollar s).
Proof. cbn. destruct (lex Dollar s); reflexivity. Qed.

Lemma lex_close (n : nat) (s : string) :
  lex (Digits n) (String ")" s)
  = option_map (fun ts => TParam n :: TRParen :: ts) (lex Idle s).
Proof. cbn. destruct (lex Idle s); reflexivity. Qed.

Lemma lex_comma (s : string) :
  lex Idle (String "," s) = option_map (cons TComma) (lex Idle s).
Proof. cbn. destruct (lex Idle s); reflexivity. Qed.

Lemma tuple_text_body (index : nat) :
  tuple_text index = (tuple_body index ++ ",")%string.
Proof.
  unfold tuple_text, tuple_body. rewrite !append_assoc. reflexivity.
Qed.

Lemma lex_tuple_body (index : nat) (rest : string) (ts : list token) :
  lex Idle rest = Some ts ->
  lex Idle (tuple_body index ++ rest) = Some (tuple_tokens index ++ ts).
Proof.
  intro Hrest. unfold tuple_body.
  rewrite !append_assoc. cbn [String.append].
  rewrite lex_open, lex_param.
  repeat (rewrite lex_next, lex_param).
  rewrite lex_close, Hrest. reflexivity.
Qed.

Lemma parse_tuple_tokens (index : nat) (ts : list token) :
  parse_values ExpectTuple (tuple_tokens index ++ ts)
  = option_map (cons (placeholders index)) (parse_values AfterTuple ts).
Proof. reflexivity. Qed.

Lemma parse_values_body (n i : nat) :
  bind_opt (lex Idle (values_body i n)) (parse_values ExpectTuple)
  = Some (tuples_from i (S n)).
Proof.
  revert i. induction n as [|n IH]; intro i; cbn [values_body tuples_from].
  - rewrite <- (append_nil_r (tuple_body (i * 14))) at 1.
    rewrite (lex_tuple_body _ EmptyString []) by reflexivity.
    cbn [bind_opt]. rewrite parse_tuple_tokens. reflexivity.
  - specialize (IH (S i)).
    destruct (lex Idle (values_body (S i) n)) as [ts|] eqn:E; [|discriminate].
    cbn [bind_opt] in IH.
    rewrite (lex_tuple_body _ _ (TComma :: ts)).
    + cbn [bind_opt]. rewrite parse_tuple_tokens. cbn [parse_values].
      rewrite IH. reflexivity.
    + cbn [String.append]. rewrite lex_comma, E. reflexivity.
Qed.

Lemma SaveHits_loop_eq (hits : list Hit) (i : nat) (args : list value) (q : string) :
  hits <> [] ->
  SaveHits_loop i hits args q
  = (args ++ flat_map Hit_args hits,
     (q ++ values_body i (List.length hits - 1) ++ ",")%string).
Proof.
  revert i args q. induction hits as [|h hits IH]; intros i args q Hne;
    [congruence|].
  cbn [SaveHits_loop]. destruct hits as [|h' hits].
  - cbn [SaveHits_loop flat_map List.length Nat.sub values_body].
    rewrite tuple_text_body, <- !app_assoc, app_nil_r. reflexivity.
  - rewrite IH by discriminate.
    cbn [flat_map List.length Nat.sub values_body].
    rewrite Nat.sub_0_r, tuple_text_body, <- !app_assoc, !append_assoc.
    reflexivity.
Qed.

Lemma SaveHits_text_parses (hits : list Hit) :
  hits <> [] ->
  parse_sql (drop_last (snd (SaveHits_loop 0 hits [] insert_hit_header)))
  = Some (INSERT "hit" insert_hit_columns
            (map (map Param) (tuples_from 0 (List.length hits)))).
Proof.
  intro Hne. rewrite SaveHits_loop_eq by exact Hne. cbn [snd].
  rewrite <- append_assoc, drop_last_snoc.
  unfold parse_sql, insert_hit_header.
  rewrite append_assoc, strip_prefix_app. cbn [bind_opt String.append].
  change (lex Idle (String " " ?s)) with (bind_opt (lex Idle s) (flush Idle)).
  destruct hits as [|h hits]; [congruence|]. cbn [List.length Nat.sub].
  rewrite Nat.sub_0_r.
  pose proof (parse_values_body (List.length hits) 0) as H.
  destruct (lex Idle (values_body 0 (List.length hits))) as [ts|]; [|discriminate].
  cbn [bind_opt flush] in *. rewrite H. reflexivity.
Qed.

Lemma nth_param_app (pre l post : list value) (k : nat) (v : value) :
  nth_param l k = Some v ->
  nth_param (pre ++ l ++ post) (List.length pre + k) = Some v.
Proof.
  destruct k as [|k]; [discriminate|]. cbn [nth_param]. intro H.
  rewrite Nat.add_succ_r. cbn [nth_param].
  rewrite nth_error_app2 by lia.
  replace (List.length pre + k - List.length pre)%nat with k by lia.
  rewrite nth_error_app1; [exact H|].
  apply nth_error_Some. congruence.
Qed.

Lemma insert_hits (today : Z) (b : bindings) (hs : list Hit) :
  forall (i : nat) (pre post : list value) (t : Table),
    List.length pre = (i * 14)%nat ->
    positional b = pre ++ flat_map Hit_args hs ++ post ->
    forallb (forallb (resolves [] b))
      (map (map Param) (tuples_from i (List.length hs))) = true /\
    insert_tuples today b hit_schema insert_hit_columns
      (map (map Param) (tuples_from i (List.length hs))) t
    = Some (mkTable (rows t ++ map Hit_row hs) (serial t)).
Proof.
  induction hs as [|h hs IH]; intros i pre post t Hlen Hargs.
  - cbn. rewrite app_nil_r. destruct t; split; reflexivity.
  - cbn [flat_map] in Hargs. rewrite <- app_assoc in Hargs.
    assert (Hk : forall k v, nth_param (Hit_args h) k = Some v ->
                   nth_param (positional b) (i * 14 + k) = Some v).
    { intros k v Hv. rewrite Hargs, <- Hlen. now apply nth_param_app. }
    destruct (IH (S i) (pre ++ Hit_args h) post
                (mkTable (rows t ++ [Hit_row h]) (serial t))) as [IH1 IH2].
    { rewrite length_app, Hlen. cbn. lia. }
    { rewrite Hargs, <- !app_assoc. reflexivity. }
    cbn [List.length tuples_from map forallb].
    unfold placeholders. cbn [seq map forallb resolves map_opt eval insert_tuples].
    repeat match goal with
           | |- context [nth_param (positional b) (i * 14 + ?k)] =>
               rewrite (Hk k _ eq_refl)
           end.
    split.
    + rewrite IH1. reflexivity.
    + fold (Hit_args h).
      change (combine insert_hit_columns (Hit_args h)) with (Hit_row h).
      change (new_row hit_schema (serial t) (Hit_row h)) with (Hit_row h).
      rewrite Hit_row_conforms.
      change (next_serial hit_schema (serial t)) with (serial t).
      cbn [List.length Nat.eqb andb].
      rewrite IH2. cbn [rows serial]. rewrite <- app_assoc. reflexivity.
Qed.

(** ** SaveHits *)

(** C9: for a batch that is not empty, [SaveHits] fails exactly when the
    engine fails its one statement, and then the committed state is what
    it was; otherwise the table [hit] is the old rows, untouched, followed
    by one row per hit with the fourteen fields of that hit, in order. *)
Theorem SaveHits_all_or_nothing (w : World) (hits : list Hit) :
  hits <> [] ->
  exists w',
    SaveHits hits w
      = Ret (if hd false (faults w) then Some ErrBadConn else None) w' /\
    committed w' =
      (if hd false (faults w) then committed w
       else set_table T_hit
              (mkTable (rows (hit (committed w)) ++ map Hit_row hits)
                 (serial (hit (committed w))))
              (committed w)) /\
    open_txs w' = open_txs w.
Proof.
  intro Hne. unfold SaveHits, DB_Exec, bind.
  pose proof (SaveHits_text_parses hits Hne) as Hparse.
  pose proof (SaveHits_loop_eq hits 0 [] insert_hit_header Hne) as Hloop.
  destruct (SaveHits_loop 0 hits [] insert_hit_header) as [args query].
  injection Hloop as Hargs Hquery. cbn [snd] in Hparse. cbn [Datatypes.app] in Hargs.
  rewrite (run_query_eq None _ _ w (committed w)) by reflexivity.
  cbv zeta.
  destruct (hd false (faults w)).
  - eexists. cbn. repeat split; reflexivity.
  - cbn [parse bind_opt]. rewrite Hparse. cbn [bind_opt].
    destruct (insert_hits (today w) (mkBindings args []) hits 0 [] []
                (hit (committed w))) as [Hres Hins].
    { reflexivity. }
    { cbn. rewrite app_nil_r. exact Hargs. }
    unfold execute.
    change (resolve_table "hit") with (Some T_hit).
    cbv iota beta zeta.
    destruct hits as [|h hits]; [congruence|].
    cbn [List.length tuples_from map] in *.
    change (forallb (has_column (schema_of T_hit)) insert_hit_columns) with true.
    cbn [andb]. rewrite Hres.
    change (schema_of T_hit) with hit_schema.
    change (get_table T_hit (committed w)) with (hit (committed w)).
    rewrite Hins. cbn [bind_opt].
    eexists. cbn. repeat split; reflexivity.
Qed.

Lemma SaveHits_all_or_nothing_witness :
  exists w',
    SaveHits [a_hit] fresh_world = Ret None w' /\
    committed w' =
      set_table T_hit (mkTable [Hit_row a_hit] 1) (committed fresh_world) /\
    open_txs w' = [].
Proof.
  apply (SaveHits_all_or_nothing fresh_world [a_hit]). discriminate.
Defined.

(** C10: on the empty sequence the builder leaves the header alone, the
    slice takes its last character (the blank after VALUES), the text that is
    executed has no tuple, the engine rejects it: [SaveHits] returns a
    failure and writes nothing. *)
Theorem SaveHits_empty_batch_fails (w : World) :
  exists e w',
    SaveHits [] w = Ret (Some e) w' /\
    committed w' = committed w /\
    open_txs w' = open_txs w /\
    trace w' =
      trace w ++ [Statement None (SqlText (drop_last insert_hit_header))
                    (mkBindings [] [])] /\
    drop_last insert_hit_header = insert_hit_head /\
    parse_sql (drop_last insert_hit_header) = None.
Proof.
  unfold SaveHits, DB_Exec, bind. cbn [SaveHits_loop].
  rewrite (run_query_eq None _ _ w (committed w)) by reflexivity.
  cbv zeta.
  assert (Hp : parse_sql (drop_last insert_hit_header) = None)
    by (vm_compute; reflexivity).
  cbn [parse bind_opt]. rewrite Hp. cbn [bind_opt].
  destruct (hd false (faults w)); cbn;
    do 2 eexists; (split; [reflexivity|]); repeat split; try reflexivity.
Qed.

(** C4, as stated, fails: [SaveHits] neither joins a transaction that is
    open nor opens one.  With the transaction [tx] open, the saved row is
    committed at once and is not in the view of [tx]; the only call on the
    trace is the statement, sent on the pool. *)
Lemma SaveHits_joins_no_transaction :
  exists tx w0 w1,
    DB_Beginx fresh_world = Ret (tx, None) w0 /\
    SaveHits [a_hit] w0 = Ret None w1 /\
    option_map (fun db => rows (hit db)) (view_of tx (open_txs w1)) = Some [] /\
    rows (hit (committed w1)) = [Hit_row a_hit] /\
    (forall ev, In ev (skipn (List.length (trace w0)) (trace w1)) ->
       exists text b, ev = Statement None (SqlText text) b).
Proof.
  eexists. eexists. eexists.
  split; [vm_compute; reflexivity|].
  split; [vm_compute; reflexivity|].
  split; [reflexivity|].
  split; [reflexivity|].
  intros ev Hin. cbn in Hin. destruct Hin as [<-|[]].
  do 2 eexists. reflexivity.
Qed.

(** C4, amended: [SaveHits] takes no transaction.  Whatever the batch and
    the state of the engine, it makes exactly one call, its statement, on
    the pool; it begins and commits nothing, and no open transaction sees a
    change. *)
Theorem SaveHits_single_statement_on_the_pool (w : World) (hits : list Hit) :
  let built := SaveHits_loop 0 hits [] insert_hit_header in
  exists err w',
    SaveHits hits w = Ret err w' /\
    trace w' =
      trace w ++ [Statement None (SqlText (drop_last (snd built)))
                    (mkBindings (fst built) [])] /\
    open_txs w' = open_txs w /\
    next_tx w' = next_tx w /\
    logged w' = logged w.
Proof.
  unfold SaveHits, DB_Exec, bind.
  destruct (SaveHits_loop 0 hits [] insert_hit_header) as [args query].
  rewrite (run_query_eq None _ _ w (committed w)) by reflexivity.
  cbv zeta.
  destruct (hd false (faults w)).
  - do 2 eexists. cbn. repeat split; reflexivity.
  - destruct (bind_opt _ _) as [[db' res]|];
      do 2 eexists; cbn; repeat split; reflexivity.
Qed.

(** ** DeleteHitsByDay *)

Lemma delete_where (today : Z) (scope : option Z) (day : Z) (r : Row) :
  row_conforms hit_schema r = true ->
  eval_where today (mkBindings [null_int64 scope; VTime (day * one_day)] [])
    (And (And tenant_scope (AtLeast (Col "time") (Param 2)))
         (Less (Col "time") (PlusOneDay (Param 2)))) r
  = Some (in_scope scope r && in_day day (row_time "time" r)).
Proof.
  intro Hc. unfold eval_where. cbn [eval].
  rewrite (eval_tenant_scope hit_schema _ _ _ _ _ Hc eq_refl).
  cbn [eval positional nth_param nth_error bind_opt].
  rewrite (row_get_time hit_schema r Hc "time" eq_refl).
  cbn [bind_opt comparison_value compare_values].
  change (is_Ge (?a ?= ?b)) with (a >=? b).
  change (is_Lt (?a ?= ?b)) with (a <? b).
  rewrite Z.geb_leb.
  replace (day * one_day + one_day) with ((day + 1) * one_day) by ring.
  unfold in_day.
  set (a := day * one_day <=? _). set (c := _ <? _).
  pose proof (where_scope_and scope r (a && c)) as H.
  destruct (scope_value scope r) as [| | |y| |], a, c; try discriminate H;
    cbn in *; try exact H; try destruct y; try exact H.
Qed.

Lemma execute_delete_day (today : Z) (order : list nat) (scope : option Z)
  (day : Z) (db : Database) :
  conforming hit_schema (rows (hit db)) = true ->
  execute today order (mkBindings [null_int64 scope; VTime (day * one_day)] [])
    (DELETE "hit"
       (And (And tenant_scope (AtLeast (Col "time") (Param 2)))
            (Less (Col "time") (PlusOneDay (Param 2)))))
    db
  = Some (without_day scope day db, no_result).
Proof.
  intro Hc. unfold execute. change (resolve_table "hit") with (Some T_hit).
  cbv iota beta zeta.
  change (schema_of T_hit) with hit_schema.
  change (get_table T_hit db) with (hit db).
  match goal with
  | |- context [resolves ?s ?b ?e] =>
      replace (resolves s b e) with true by (destruct scope; reflexivity)
  end.
  rewrite (select_rows_filter _
             (fun r => negb (in_scope scope r && in_day day (row_time "time" r)))).
  - reflexivity.
  - intros r Hr. rewrite delete_where; [reflexivity|].
    exact (conforming_In _ _ _ Hc Hr).
Qed.

(** C8: called for the calendar day [day], that is with the timestamp of its
    midnight, [DeleteHitsByDay] leaves in the table ["hit"] exactly the rows
    that are outside the scope or outside [day 00:00, day+1 00:00), each as
    it was and in the order it had, and changes no other table.  A tenant
    scope matches the rows of that tenant only, the global scope matches all.
    The result is seen by the caller's transaction when one is given and is
    committed otherwise. *)
Theorem DeleteHitsByDay_deletes_the_day (w : World) (tx : option nat)
  (db : Database) (scope : option Z) (day : Z) :
  target tx w = Some db ->
  conforming hit_schema (rows (hit db)) = true ->
  faults w = [] ->
  exists w',
    DeleteHitsByDay tx scope (day * one_day) w = Ret None w' /\
    target tx w' = Some (without_day scope day db).
Proof.
  intros Ht Hc Hf. unfold DeleteHitsByDay.
  destruct (with_tx_quiet tx
      (fun tx =>
         err <- Tx_Exec tx
           (Sql (DELETE "hit"
                   (And (And tenant_scope (AtLeast (Col "time") (Param 2)))
                        (Less (Col "time") (PlusOneDay (Param 2))))))
           [null_int64 scope; VTime (day * one_day)] ;;
         match err with Some e => ret (Some e) | None => ret None end)%store
      w db (without_day scope day db) None Ht Hf) as [w' [Hrun [Hview _]]].
  - intros h w0 Hv [Hf0 [Ho0 Ht0]].
    destruct (Tx_Exec_ok h _ _ w0 db _ _ Hv Hf0
                (execute_delete_day (today w0) (order w0) scope day db Hc))
      as [w1 [Hrun [Hview Hq]]].
    exists w1. unfold bind. rewrite Hrun. split; [reflexivity|].
    split; [exact Hview|].
    destruct Hq as [? [? ?]]. repeat split; congruence.
  - exists w'. split; assumption.
Qed.

Lemma DeleteHitsByDay_deletes_the_day_witness :
  exists w',
    DeleteHitsByDay None (Some 1) (1 * one_day) three_hits_world = Ret None w' /\
    target None w' = Some (without_day (Some 1) 1 (committed three_hits_world)).
Proof.
  apply (DeleteHitsByDay_deletes_the_day three_hits_world None
           (committed three_hits_world) (Some 1) 1); reflexivity.
Defined.

(** The purge of the example: of the three hits, only the hit of tenant 1 on
    day 1 goes; the hit of tenant 2 on day 1 and the hit of tenant 1 on day 2
    stay.  With the global scope both hits of day 1 go. *)
Lemma without_day_example :
  rows (hit (without_day (Some 1) 1 (committed three_hits_world)))
    = map Hit_row [ hit_at (Some 1) "/a" (2 * one_day + 5);
                    hit_at (Some 2) "/b" (1 * one_day + 7) ]
  /\ rows (hit (without_day None 1 (committed three_hits_world)))
    = map Hit_row [ hit_at (Some 1) "/a" (2 * one_day + 5) ].
Proof. split; reflexivity. Qed.

(** ** Days and Paths *)

Lemma days_where (today : Z) (scope : option Z) (r : Row) :
  row_conforms hit_schema r = true ->
  eval_where today (mkBindings [null_int64 scope] [])
    (And tenant_scope (Less (DateOf (Col "time")) CurrentDate)) r
  = Some (in_scope scope r && (date_of (row_time "time" r) <? today)).
Proof.
  intro Hc. unfold eval_where. cbn [eval].
  rewrite (eval_tenant_scope hit_schema _ _ _ _ _ Hc eq_refl).
  rewrite (row_get_time hit_schema r Hc "time" eq_refl).
  cbn [bind_opt comparison_value compare_values].
  change (is_Lt (?a ?= ?b)) with (a <? b).
  apply where_scope_and.
Qed.

Lemma execute_days (today : Z) (order : list nat) (scope : option Z)
  (db : Database) :
  conforming hit_schema (rows (hit db)) = true ->
  execute today order (mkBindings [null_int64 scope] [])
    (SELECT true [DateOf (Col "time")] "hit"
       (And tenant_scope (Less (DateOf (Col "time")) CurrentDate)))
    db
  = Some (db,
          mkResult ["date"]
            (arrange order
               (nodup row_eq_dec
                  (map (fun r => [VDate (date_of (row_time "time" r))])
                     (filter (past_day_of today scope) (rows (hit db))))))).
Proof.
  intro Hc. unfold execute. change (resolve_table "hit") with (Some T_hit).
  cbv iota beta zeta.
  change (schema_of T_hit) with hit_schema.
  change (get_table T_hit db) with (hit db).
  match goal with
  | |- context [(resolves ?s ?b ?e && forallb ?f ?l)%bool] =>
      replace (resolves s b e && forallb f l)%bool with true
        by (destruct scope; reflexivity)
  end.
  rewrite (select_rows_filter _ (past_day_of today scope)).
  - cbn [bind_opt].
    rewrite (map_opt_map _ (fun r => [VDate (date_of (row_time "time" r))])).
    + reflexivity.
    + intros r Hr. apply filter_In in Hr as [Hr _].
      cbn [map_opt eval].
      rewrite (row_get_time hit_schema r (conforming_In _ _ _ Hc Hr) "time" eq_refl).
      reflexivity.
  - intros r Hr. apply days_where. exact (conforming_In _ _ _ Hc Hr).
Qed.

(** C6, amended: [Days] returns, each exactly once and in the order the
    engine chooses, the calendar days before the current date on which the
    scope has a hit; the current day is never among them. *)
Theorem Days_distinct_past_days (w : World) (scope : option Z) :
  conforming hit_schema (rows (hit (committed w))) = true ->
  hd false (faults w) = false ->
  exists days w',
    Days scope w = Ret (days, None) w' /\
    committed w' = committed w /\
    NoDup days /\
    (forall d,
        In d days <->
        d < today w /\
        exists r, In r (rows (hit (committed w)))
                  /\ in_scope scope r = true
                  /\ date_of (row_time "time" r) = d).
Proof.
  intros Hc Hf. unfold Days, DB_Select, bind.
  rewrite (run_query_eq None _ _ w (committed w)) by reflexivity.
  cbv zeta. rewrite Hf. cbn [parse bind_opt].
  rewrite (execute_days _ _ _ _ Hc). cbn [tuples].
  set (kept := filter (past_day_of (today w) scope) (rows (hit (committed w)))).
  set (cells := map (fun r => [VDate (date_of (row_time "time" r))]) kept).
  set (out := arrange (order w) (nodup row_eq_dec cells)).
  assert (Hin : forall x, In x out <-> In x cells).
  { intro x. unfold out. split; intro H.
    - apply (Permutation_in _ (arrange_perm _ _)) in H. now apply nodup_In in H.
    - apply (Permutation_in _ (Permutation_sym (arrange_perm (order w) _))).
      now apply nodup_In. }
  assert (Hshape : forall x, In x out -> x = [VDate (day_cell x)]).
  { intros x Hx. apply Hin in Hx. unfold cells in Hx.
    apply in_map_iff in Hx as [r [<- _]]. reflexivity. }
  rewrite (map_opt_map _ day_cell).
  2:{ intros x Hx. rewrite (Hshape x Hx). reflexivity. }
  exists (map day_cell out). eexists. split; [reflexivity|].
  split; [reflexivity|]. split.
  - assert (Hnd : NoDup out).
    { unfold out.
      apply (Permutation_NoDup (Permutation_sym (arrange_perm (order w) _))).
      apply NoDup_nodup. }
    clear Hin. induction out as [|x out IH]; cbn; constructor.
    + intro Hx. apply in_map_iff in Hx as [y [Hy Hyin]].
      inversion Hnd as [|? ? Hnot _]; subst. apply Hnot.
      rewrite (Hshape x (or_introl eq_refl)).
      rewrite (Hshape y (or_intror Hyin)) in Hyin. now rewrite <- Hy.
    + apply IH; [intros y Hy; apply Hshape; now right|].
      now inversion Hnd.
  - intro d. rewrite in_map_iff. split.
    + intros [x [Hd Hx]]. pose proof (Hshape x Hx) as Hs.
      apply Hin in Hx. unfold cells in Hx.
      apply in_map_iff in Hx as [r [Hr Hrin]].
      apply filter_In in Hrin as [Hrin Hq].
      unfold past_day_of in Hq. apply andb_prop in Hq as [Hsc Hlt].
      rewrite <- Hr in Hd. cbn in Hd. subst d.
      split; [now apply Z.ltb_lt|]. exists r. auto.
    + intros [Hlt [r [Hrin [Hsc Hd]]]].
      exists [VDate d]. split; [reflexivity|]. apply Hin. unfold cells.
      apply in_map_iff. exists r. split; [now rewrite Hd|].
      apply filter_In. split; [exact Hrin|].
      unfold past_day_of. rewrite Hsc, Hd. now apply Z.ltb_lt.
Qed.

Lemma Days_distinct_past_days_witness :
  exists days w',
    Days (Some 1) three_hits_world = Ret (days, None) w' /\
    committed w' = committed three_hits_world /\
    NoDup days /\
    (forall d,
        In d days <->
        d < today three_hits_world /\
        exists r, In r (rows (hit (committed three_hits_world)))
                  /\ in_scope (Some 1) r = true
                  /\ date_of (row_time "time" r) = d).
Proof.
  apply (Days_distinct_past_days three_hits_world (Some 1)); reflexivity.
Defined.

(** C6, as stated, fails: the query of [Days] has no ORDER BY.  On an engine
    that returns rows in table order, hits written for day 2 and then for
    day 1 are listed as [2; 1]. *)
Lemma Days_not_ascending :
  exists w',
    Days None three_hits_world = Ret ([2; 1], None) w' /\
    ascending [2; 1] = false.
Proof.
  eexists. split; [vm_compute; reflexivity | reflexivity].
Qed.

(** The query of [Paths] names a column ["day"] that ["hit"] does not have:
    the engine rejects it whatever the table holds. *)
Lemma Paths_never_succeeds (w : World) (tenantID : option Z) (day : Z) :
  exists e w',
    Paths tenantID day w = Ret ([], Some e) w' /\ committed w' = committed w.
Proof.
  unfold Paths, DB_Select, bind.
  rewrite (run_query_eq None _ _ w (committed w)) by reflexivity.
  cbv zeta.
  destruct (hd false (faults w)).
  - do 2 eexists. split; reflexivity.
  - destruct tenantID; cbn; do 2 eexists; split; reflexivity.
Qed.

(** C5: with the hit [a_hit] (path [/a], day 0) saved, [Paths] for day 0
    returns a failure and no path, where the claim has the path [/a]. *)
Theorem Paths_fails_on_a_saved_hit :
  exists w1 w2,
    SaveHits [a_hit] fresh_world = Ret None w1 /\
    rows (hit (committed w1)) = [Hit_row a_hit] /\
    date_of (Hit_Time a_hit) = 0 /\
    Paths None 0 w1 = Ret ([], Some ErrSQL) w2.
Proof.
  eexists. eexists.
  split; [vm_compute; reflexivity|].
  split; [reflexivity|].
  split; [reflexivity|].
  vm_compute. reflexivity.
Qed.

(** ** The lookup, the update and the insert of a merge *)

Lemma values_eqb_eq (a b : list value) : values_eqb a b = true <-> a = b.
Proof.
  unfold values_eqb. destruct (list_eq_dec value_eq_dec a b); split;
    congruence.
Qed.

Lemma values_eqb_int (a b : Z) : values_eqb [VInt a] [VInt b] = (a =? b).
Proof.
  destruct (Z.eqb_spec a b) as [->|Hne].
  - now apply values_eqb_eq.
  - destruct (values_eqb [VInt a] [VInt b]) eqn:E; [|reflexivity].
    apply values_eqb_eq in E. congruence.
Qed.

Lemma values_eqb_text (a b : string) :
  values_eqb [VText a] [VText b] = String.eqb a b.
Proof.
  destruct (String.eqb_spec a b) as [->|Hne].
  - now apply values_eqb_eq.
  - destruct (values_eqb [VText a] [VText b]) eqn:E; [|reflexivity].
    apply values_eqb_eq in E. congruence.
Qed.

Lemma values_eqb_text2 (a a' b b' : string) :
  values_eqb [VText a; VText a'] [VText b; VText b']
  = String.eqb a b && String.eqb a' b'.
Proof.
  destruct (String.eqb_spec a b) as [->|Hne];
    [destruct (String.eqb_spec a' b') as [->|Hne]|].
  - now apply values_eqb_eq.
  - destruct (values_eqb _ _) eqn:E; [|reflexivity].
    apply values_eqb_eq in E. congruence.
  - destruct (values_eqb _ _) eqn:E; [|reflexivity].
    apply values_eqb_eq in E. congruence.
Qed.

(** The SELECT of a lookup, on a table whose rows conform. *)
Lemma execute_lookup (today : Z) (order : list nat) (b : bindings)
  (T : string) (t : table_name) (W : expr) (q : Row -> bool) (db : Database) :
  resolve_table T = Some t ->
  resolves (schema_of t) b W = true ->
  find_column (schema_of t) "id" = Some (mkColumn "id" KInt false) ->
  find_column (schema_of t) "visitors" = Some (mkColumn "visitors" KInt false) ->
  conforming (schema_of t) (rows (get_table t db)) = true ->
  (forall r, row_conforms (schema_of t) r = true ->
             eval_where today b W r = Some (q r)) ->
  execute today order b (SELECT false [Col "id"; Col "visitors"] T W) db
  = Some (db,
          mkResult ["id"; "visitors"]
            (map (fun r => [VInt (row_int "id" r); VInt (row_int "visitors" r)])
               (arrange order (filter q (rows (get_table t db)))))).
Proof.
  intros HT HW Hid Hvis Hc Hq. unfold execute. rewrite HT, HW.
  assert (Hres : forallb (resolves (schema_of t) b) [Col "id"; Col "visitors"]
                 = true).
  { cbn [forallb resolves].
    rewrite (find_column_has _ _ _ Hid), (find_column_has _ _ _ Hvis).
    reflexivity. }
  rewrite Hres. cbn [andb].
  rewrite (select_rows_filter _ q)
    by (intros r Hr; apply Hq; exact (conforming_In _ _ _ Hc Hr)).
  cbn [bind_opt].
  rewrite (map_opt_map _
             (fun r => [VInt (row_int "id" r); VInt (row_int "visitors" r)])).
  - cbn [bind_opt]. rewrite arrange_map. reflexivity.
  - intros r Hr. apply filter_In in Hr as [Hr _].
    pose proof (conforming_In _ _ _ Hc Hr) as Hrc.
    cbn [map_opt eval].
    rewrite (row_get_int _ r Hrc "id" Hid), (row_get_int _ r Hrc "visitors" Hvis).
    reflexivity.
Qed.

Ltac where_cases scope r :=
  unfold scope_value, in_scope;
  destruct scope as [?t|];
    [destruct (row_opt_int "tenant_id" r) as [?n|]|];
    [match goal with |- context [(?n =? ?t)] => destruct (n =? t) end| |];
  repeat match goal with
         | |- context [Z.eqb ?a ?b] => destruct (Z.eqb a b)
         | |- context [String.eqb ?a ?b] => destruct (String.eqb a b)
         end;
  reflexivity.

Lemma lookup_where (today : Z) (e : entity) (r : Row) :
  row_conforms (schema_of (table_of e)) r = true ->
  eval_where today (mkBindings (lookup_args e) []) (lookup_clause e) r
  = Some (key_matches e r).
Proof.
  intro Hc. unfold eval_where, key_matches, lookup_args.
  destruct e as [e|e|e|e|e|e];
    cbn [lookup_clause table_of stats_of own_key row_own_key Datatypes.app] in *;
    unfold day_path_scope; cbn [eval];
    rewrite (eval_tenant_scope _ _ _ _ _ _ Hc eq_refl);
    cbn [positional nth_param nth_error bind_opt];
    rewrite ?(row_get_date _ r Hc "day" eq_refl),
            ?(row_get_text _ r Hc "path" eq_refl),
            ?(row_get_int _ r Hc "hour" eq_refl),
            ?(row_get_text _ r Hc "language" eq_refl),
            ?(row_get_text _ r Hc "referrer" eq_refl),
            ?(row_get_text _ r Hc "os" eq_refl),
            ?(row_get_text _ r Hc "os_version" eq_refl),
            ?(row_get_text _ r Hc "browser" eq_refl),
            ?(row_get_text _ r Hc "browser_version" eq_refl);
    cbn [bind_opt comparison_value compare_values];
    rewrite ?is_Eq_Z, ?is_Eq_string, ?values_eqb_int, ?values_eqb_text,
            ?values_eqb_text2;
    change (values_eqb [] []) with true;
    where_cases (TenantID (base e)) r.
Qed.

Lemma execute_update (today : Z) (order : list nat) (e : entity) (found : Row)
  (db : Database) :
  conforming (schema_of (table_of e)) (rows (get_table (table_of e) db)) = true ->
  execute today order (mkBindings (update_args e found) [])
    (update_statement e) db
  = Some (updated e found db, no_result).
Proof.
  intro Hc. unfold updated.
  assert (Hstep :
    forall T sets n,
      resolve_table T = Some (table_of e) ->
      forallb (fun ce => has_column (schema_of (table_of e)) (fst ce)
                         && resolves (schema_of (table_of e))
                              (mkBindings (update_args e found) []) (snd ce))
        sets = true ->
      nth_param (update_args e found) n = Some (VInt (row_int "id" found)) ->
      (forall r, row_conforms (schema_of (table_of e)) r = true ->
         match assign today (mkBindings (update_args e found) []) r sets r with
         | Some r' => if row_conforms (schema_of (table_of e)) r'
                      then Some r' else None
         | None => None
         end = Some (bumped e found r)) ->
      execute today order (mkBindings (update_args e found) [])
        (UPDATE T sets (Equal (Col "id") (Param n))) db
      = Some (set_table (table_of e)
                (mkTable
                   (map (fun r => if row_int "id" r =? row_int "id" found
                                  then bumped e found r else r)
                      (rows (get_table (table_of e) db)))
                   (serial (get_table (table_of e) db))) db, no_result)).
  { intros T sets n HT Hsets Hn Hassign. unfold execute. rewrite HT.
    cbv zeta. cbn [resolves positional]. rewrite Hn.
    replace (has_column (schema_of (table_of e)) "id") with true
      by (destruct e; reflexivity).
    cbn [andb]. rewrite Hsets.
    rewrite (update_rows_map _ _
               (fun r => row_int "id" r =? row_int "id" found)
               (bumped e found)).
    - reflexivity.
    - intros r Hr. apply (id_where today (schema_of (table_of e)));
        [exact (conforming_In _ _ _ Hc Hr) | destruct e; reflexivity | exact Hn].
    - intros r Hr _. apply Hassign. exact (conforming_In _ _ _ Hc Hr). }
  destruct e as [e|e|e|e|e|e]; apply Hstep; try reflexivity;
    intros r Hr; cbn [assign eval positional nth_param nth_error update_args
                      bumped stats_of table_of] in *;
    match goal with
    | |- context [row_conforms ?s ?r'] =>
        replace (row_conforms s r') with true
          by (symmetry; conforms_after_set)
    end;
    reflexivity.
Qed.

Lemma execute_insert (today : Z) (order : list nat) (e : entity)
  (db : Database) :
  execute today order (mkBindings [] (entity_fields e)) (insert_statement e) db
  = Some (inserted e db, no_result).
Proof.
  destruct e as [[[id [t|] day path vis] ? ? ?]|[[id [t|] day path vis] ?]
                |[[id [t|] day path vis] ?]|[[id [t|] day path vis] ?]
                |[[id [t|] day path vis] ? ?]|[[id [t|] day path vis] ? ?]];
    reflexivity.
Qed.


(** ** The merge inside a transaction *)

Section JoinedMerge.

Variable tx : nat.
Variable w : World.
Variable db : Database.
Hypothesis Hview : view_of tx (open_txs w) = Some db.

(** The lookup of a merge: the call of [tx.Get] and what it returns. *)
Lemma Tx_Get_lookup {E} (scan : string -> value -> E -> option E) (dest : E)
  (e : entity) :
  conforming (schema_of (table_of e)) (rows (get_table (table_of e) db)) = true ->
  Tx_Get scan tx dest (lookup_query e) (lookup_args e) w
  = Ret
      match looked_up e w db with
      | Some r =>
          match scan_row scan ["id"; "visitors"]
                  [VInt (row_int "id" r); VInt (row_int "visitors" r)] dest with
          | Some d => (d, None)
          | None => (dest, Some ErrScan)
          end
      | None =>
          (dest, Some (if hd false (faults w) then ErrBadConn else ErrNoRows))
      end
      (stepped w (Statement (Some tx) (lookup_query e)
                    (mkBindings (lookup_args e) []))).
Proof.
  intro Hc. unfold Tx_Get, bind, looked_up, found_row.
  rewrite (run_query_eq (Some tx) _ _ w db Hview). cbv zeta.
  destruct (hd false (faults w)); [reflexivity|].
  unfold lookup_query, select_id_visitors. cbn [parse bind_opt].
  rewrite (execute_lookup (today w) (order w) _ (table_text e) (table_of e)
             (lookup_clause e) (key_matches e) db).
  - rewrite install_same by (cbn; exact Hview).
    cbn [tuples columns].
    destruct (arrange (order w) (filter (key_matches e) _)) as [|r rs];
      cbn [map hd_error]; [reflexivity|].
    destruct (scan_row _ _ _ _); reflexivity.
  - destruct e; reflexivity.
  - destruct e; reflexivity.
  - destruct e; reflexivity.
  - destruct e; reflexivity.
  - exact Hc.
  - intros r Hr. now apply lookup_where.
Qed.

(** The end of each case of [Save_joined]: the view, the trace, the
    committed state and the faults of the final world. *)
Ltac finish_merge :=
  cbn;
  split; [first [exact Hview | apply (view_of_set_view _ _ _ _ Hview)] |];
  split; [rewrite <- ?app_assoc; reflexivity|];
  split; [reflexivity|];
  let Hf := fresh "Hf" in
  intro Hf; unfold quiet; cbn; rewrite Hf in *;
  try match goal with E : hd false (tl []) = true |- _ => discriminate E end;
  repeat split; reflexivity.

(** One merge method, run call by call: the lookup, then the update or the
    insert with the closing of its rows. *)
Ltac merge_joined ent scanned Hc :=
  unfold with_tx, bind;
  rewrite (Tx_Get_lookup db_scan new ent Hc);
  unfold merge_result, merge_calls;
  let w1 := fresh "w1" in
  set (w1 := stepped w _);
  let r := fresh "r" in
  destruct (looked_up ent w db) as [r|];
  [ change (scan_row db_scan ["id"; "visitors"]
              [VInt (row_int "id" r); VInt (row_int "visitors" r)] new)
      with (Some (with_base (mkStats (row_int "id" r) None 0 EmptyString
                               (row_int "visitors" r)) scanned));
    cbv beta iota; unfold createUpdateEntity, is_nil, bind;
    match goal with
    | |- context [Tx_Exec tx ?q ?a w1] =>
        change (Tx_Exec tx q a w1)
          with (Tx_Exec tx (Sql (update_statement ent))
                  (update_args ent r) w1)
    end;
    rewrite (Tx_Exec_eq tx (update_statement ent) (update_args ent r)
               w1 db _ _ Hview (execute_update _ _ ent r db Hc));
    cbv zeta; change (faults w1) with (tl (faults w));
    destruct (hd false (tl (faults w))) eqn:?E2;
    (eexists; split; [reflexivity|]; finish_merge)
  | cbv beta iota; unfold createUpdateEntity, is_nil, bind;
    match goal with
    | |- context [Tx_NamedQuery tx ?q ?a w1] =>
        change (Tx_NamedQuery tx q a w1)
          with (Tx_NamedQuery tx (Sql (insert_statement ent))
                  (entity_fields ent) w1)
    end;
    rewrite (Tx_NamedQuery_eq tx (insert_statement ent)
               (entity_fields ent) w1 db _ _ Hview
               (execute_insert _ _ ent db));
    cbv zeta; change (faults w1) with (tl (faults w));
    destruct (hd false (tl (faults w))) eqn:?E2;
    [ eexists; split; [reflexivity|]; finish_merge
    | rewrite closeRows_eq; eexists; split; [reflexivity|]; cbv zeta;
      match goal with
      | |- context [if ?c then _ else _] => destruct c
      end; finish_merge ] ].

(** Each of the six merges, inside the transaction [tx]: what it returns,
    what the transaction sees afterwards, and the calls it made.  The flag
    of the lookup is the first of [faults w], the flag of the write the
    second. *)
Lemma Save_joined (e : entity) :
  conforming (schema_of (table_of e)) (rows (get_table (table_of e) db)) = true ->
  exists w',
    Save (Some tx) e w
      = Ret (if hd false (tl (faults w)) then Some ErrBadConn else None) w' /\
    view_of tx (open_txs w')
      = Some (if hd false (tl (faults w)) then db else merge_result e w db) /\
    trace w' = trace w ++ merge_calls e tx w db /\
    committed w' = committed w /\
    (faults w = [] -> quiet w w').
Proof.
  intro Hc.
  destruct e as [e|e|e|e|e|e]; unfold Save.
  - unfold SaveVisitorStats.
    merge_joined (PerPage e) (new : VisitorStats) Hc.
  - unfold SaveVisitorTimeStats.
    merge_joined (PerHour e) (new : VisitorTimeStats) Hc.
  - unfold SaveLanguageStats.
    merge_joined (PerLanguage e) (new : LanguageStats) Hc.
  - unfold SaveReferrerStats.
    merge_joined (PerReferrer e) (new : ReferrerStats) Hc.
  - unfold SaveOSStats.
    merge_joined (PerOS e) (new : OSStats) Hc.
  - unfold SaveBrowserStats.
    merge_joined (PerBrowser e) (new : BrowserStats) Hc.
Qed.

End JoinedMerge.

Lemma Save_with_tx (tx : option nat) (e : entity) :
  Save tx e = with_tx tx (fun h => Save (Some h) e).
Proof. destruct e, tx; reflexivity. Qed.

Lemma Save_quiet (tx : option nat) (e : entity) (w : World) (db : Database) :
  target tx w = Some db ->
  conforming (schema_of (table_of e)) (rows (get_table (table_of e) db)) = true ->
  faults w = [] ->
  exists w',
    Save tx e w = Ret None w' /\
    target tx w' = Some (merged (order w) e db) /\
    quiet w w'.
Proof.
  intros Ht Hc Hf. rewrite Save_with_tx.
  apply (with_tx_quiet tx _ w db _ None Ht Hf).
  intros h w0 Hv [Hf0 [Ho0 Ht0]].
  destruct (Save_joined h w0 db Hv e Hc) as [w1 [Hrun [Hview [_ [_ Hq]]]]].
  rewrite Hf0 in Hrun, Hview. cbn [hd tl] in Hrun, Hview.
  exists w1. split; [exact Hrun|]. split.
  - rewrite Hview. unfold merge_result, merged, looked_up.
    rewrite Hf0, Ho0. reflexivity.
  - destruct (Hq Hf0) as [? [? ?]]. repeat split; congruence.
Qed.

(** ** The branch of a merge *)

(** C2, amended: in each of the six merges the error of the lookup is never
    returned; it only selects the branch.  The update is sent when the lookup
    ran and found a row; the insert is sent in every other case, when no row
    matches and when the lookup itself failed alike.  The merge returns a
    failure exactly when the statement of the branch it took fails. *)
Theorem merge_branch_follows_any_lookup_error (e : entity) (tx : nat)
  (w : World) (db : Database) :
  view_of tx (open_txs w) = Some db ->
  conforming (schema_of (table_of e)) (rows (get_table (table_of e) db)) = true ->
  let lookup_fails := hd false (faults w) in
  let write_fails := hd false (tl (faults w)) in
  let lookup :=
    Statement (Some tx) (lookup_query e) (mkBindings (lookup_args e) []) in
  exists w' calls,
    Save (Some tx) e w
      = Ret (if write_fails then Some ErrBadConn else None) w' /\
    trace w' = trace w ++ lookup :: calls /\
    match (if lookup_fails then None else found_row (order w) e db) with
    | Some r =>
        calls = [ Statement (Some tx) (Sql (update_statement e))
                    (mkBindings (update_args e r) []) ]
    | None =>
        calls = Statement (Some tx) (Sql (insert_statement e))
                  (mkBindings [] (entity_fields e))
                :: (if write_fails then [] else [CloseRows])
    end.
Proof.
  intros Hv Hc. cbv zeta.
  destruct (Save_joined tx w db Hv e Hc) as [w' [Hrun [_ [Htrace _]]]].
  exists w'. unfold merge_calls, looked_up in Htrace.
  eexists. split; [exact Hrun|]. split; [exact Htrace|].
  destruct (if hd false (faults w) then None else found_row (order w) e db);
    reflexivity.
Qed.

Lemma merge_branch_follows_any_lookup_error_witness :
  exists w' calls,
    Save (Some 0%nat) (PerLanguage (english 1)) (joined_world [true])
      = Ret None w' /\
    trace w' =
      Statement (Some 0%nat) (lookup_query (PerLanguage (english 1)))
        (mkBindings (lookup_args (PerLanguage (english 1))) []) :: calls /\
    calls = [ Statement (Some 0%nat)
                (Sql (insert_statement (PerLanguage (english 1))))
                (mkBindings [] (entity_fields (PerLanguage (english 1))));
              CloseRows ].
Proof.
  apply (merge_branch_follows_any_lookup_error (PerLanguage (english 1)) 0
           (joined_world [true]) english_database); reflexivity.
Defined.

(** C2, as stated, fails: a lookup that fails is not reported and sends the
    merge to the insert branch.  With the row of the key in the table and a
    fault on the second call of the engine (the first is the begin of the
    transaction, the second the lookup), the merge returns success and the
    table holds a second row of the same key. *)
Lemma lookup_failure_takes_the_insert_branch :
  exists w1 w2,
    SaveLanguageStats None (english 1) fresh_world = Ret None w1 /\
    rows (language_stats (committed w1)) = [english_row 1 1] /\
    SaveLanguageStats None (english 1) (with_faults [false; true] w1)
      = Ret None w2 /\
    rows (language_stats (committed w2)) = [english_row 1 1; english_row 2 1].
Proof.
  eexists. eexists.
  split; [vm_compute; reflexivity|].
  split; [reflexivity|].
  split; [vm_compute; reflexivity|].
  reflexivity.
Qed.

(** ** The counters of the page row *)

(** C1: the page/day merge reads back only [id] and [visitors], so what the
    update writes to the three platform counters is the delta alone.  In the
    scenario the second merge leaves {visitors:5, desktop:0, mobile:2,
    unknown:0}, not the sums {5, 2, 3, 0}. *)
Theorem SaveVisitorStats_overwrites_platform_counters :
  exists w1 w2,
    SaveVisitorStats None (page_a 3 2 1 0) fresh_world = Ret None w1 /\
    SaveVisitorStats None (page_a 2 0 2 0) w1 = Ret None w2 /\
    rows (visitor_stats (committed w1)) = [page_a_row 1 3 2 1 0] /\
    rows (visitor_stats (committed w2)) = [page_a_row 1 5 0 2 0] /\
    rows (visitor_stats (committed w2)) <> [page_a_row 1 5 2 3 0].
Proof.
  eexists. eexists.
  split; [vm_compute; reflexivity|].
  split; [vm_compute; reflexivity|].
  split; [reflexivity|].
  split; [reflexivity|].
  vm_compute. discriminate.
Qed.

(** C3: a counter of the page/day row goes down under merges whose deltas are
    all non-negative.  The platform counters are not read back by the lookup,
    so the second merge writes its own delta 0 over the stored 1. *)
Theorem SaveVisitorStats_decrements_platform_desktop :
  exists w1 w2,
    SaveVisitorStats None (page_a 1 1 0 0) fresh_world = Ret None w1 /\
    SaveVisitorStats None (page_a 1 0 1 0) w1 = Ret None w2 /\
    map (row_get "platform_desktop") (rows (visitor_stats (committed w1)))
      = [Some (VInt 1)] /\
    map (row_get "platform_desktop") (rows (visitor_stats (committed w2)))
      = [Some (VInt 0)].
Proof.
  eexists. eexists.
  split; [vm_compute; reflexivity|].
  split; [vm_compute; reflexivity|].
  split; reflexivity.
Qed.

(** ** One row per key tuple *)

Lemma null_int64_inj (a b : option Z) : null_int64 a = null_int64 b -> a = b.
Proof. destruct a, b; cbn; congruence. Qed.

Lemma differ_only_in_case_keys (a b : entity) :
  differ_only_in_case a b = true ->
  table_of a = table_of b
  /\ TenantID (stats_of a) = TenantID (stats_of b)
  /\ Day (stats_of a) = Day (stats_of b)
  /\ lower (Path (stats_of a)) = lower (Path (stats_of b))
  /\ own_key a = own_key b.
Proof.
  intro H.
  assert (Hkeys :
    values_eqb [null_int64 (TenantID (stats_of a))]
      [null_int64 (TenantID (stats_of b))]
    && (Day (stats_of a) =? Day (stats_of b))
    && String.eqb (lower (Path (stats_of a))) (lower (Path (stats_of b)))
    && values_eqb (own_key a) (own_key b) = true
    /\ table_of a = table_of b).
  { destruct a, b; try discriminate H; split; try exact H; reflexivity. }
  destruct Hkeys as [Hk Ht]. split; [exact Ht|].
  apply andb_prop in Hk as [Hk Hown]. apply andb_prop in Hk as [Hk Hpath].
  apply andb_prop in Hk as [Hten Hday].
  apply values_eqb_eq in Hten, Hown. apply Z.eqb_eq in Hday.
  apply String.eqb_eq in Hpath.
  repeat split; try assumption.
  apply null_int64_inj. congruence.
Qed.

Lemma key_matches_case (a b : entity) (r : Row) :
  differ_only_in_case a b = true -> key_matches b r = key_matches a r.
Proof.
  intro H. destruct (differ_only_in_case_keys a b H) as [Ht [Hn [Hd [Hp Hk]]]].
  unfold key_matches. now rewrite Ht, Hn, Hd, Hp, Hk.
Qed.

Ltac other_columns :=
  unfold row_opt_int, row_date, row_text, row_int;
  rewrite ?row_get_set_other by discriminate.


Lemma key_matches_bumped (e e' : entity) (found r : Row) :
  table_of e' = table_of e ->
  key_matches e' (bumped e found r) = key_matches e' r.
Proof.
  intro Ht. unfold key_matches, in_scope. rewrite Ht. unfold bumped.
  destruct e; cbn [table_of row_own_key]; other_columns; reflexivity.
Qed.

Lemma key_matches_entity_row (e : entity) (id : Z) :
  key_matches e (entity_row e id) = true.
Proof.
  unfold key_matches, in_scope.
  assert (Hown : row_own_key (table_of e) (entity_row e id) = own_key e)
    by (destruct e; reflexivity).
  rewrite Hown.
  replace (values_eqb (own_key e) (own_key e)) with true
    by (symmetry; now apply values_eqb_eq).
  change (row_date "day" (entity_row e id)) with (Day (stats_of e)).
  change (row_text "path" (entity_row e id)) with (Path (stats_of e)).
  change (row_opt_int "tenant_id" (entity_row e id))
    with (match null_int64 (TenantID (stats_of e)) with
          | VInt n => Some n
          | _ => None
          end).
  rewrite Z.eqb_refl, String.eqb_refl.
  destruct (TenantID (stats_of e)) as [t|]; cbn; [now rewrite Z.eqb_refl|reflexivity].
Qed.


Lemma found_row_None (order : list nat) (e : entity) (db : Database) (r : Row) :
  found_row order e db = None ->
  In r (rows (get_table (table_of e) db)) -> key_matches e r = false.
Proof.
  unfold found_row. intros H Hr.
  destruct (arrange order _) as [|x l] eqn:E; [|discriminate].
  apply arrange_nil in E.
  destruct (key_matches e r) eqn:Hk; [|reflexivity].
  assert (Hin : In r (filter (key_matches e) (rows (get_table (table_of e) db))))
    by (apply filter_In; auto).
  rewrite E in Hin. destruct Hin.
Qed.

Lemma found_row_Some (order : list nat) (e : entity) (db : Database) (r : Row) :
  found_row order e db = Some r ->
  In r (rows (get_table (table_of e) db)) /\ key_matches e r = true.
Proof.
  unfold found_row. intro H.
  destruct (arrange order _) as [|x l] eqn:E; [discriminate|].
  injection H as ->.
  assert (Hin : In r (arrange order
                        (filter (key_matches e) (rows (get_table (table_of e) db)))))
    by (rewrite E; now left).
  apply (Permutation_in _ (arrange_perm _ _)) in Hin.
  now apply filter_In in Hin.
Qed.

Lemma found_row_exists (order : list nat) (e : entity) (db : Database) (r : Row) :
  In r (rows (get_table (table_of e) db)) -> key_matches e r = true ->
  exists f, found_row order e db = Some f.
Proof.
  intros Hr Hk. destruct (found_row order e db) as [f|] eqn:E; [eauto|].
  rewrite (found_row_None order e db r E Hr) in Hk. discriminate.
Qed.

Lemma get_set_table (t : table_name) (x : Table) (db : Database) :
  get_table t (set_table t x db) = x.
Proof. destruct t; reflexivity. Qed.

Lemma rows_updated (e : entity) (found : Row) (db : Database) :
  rows (get_table (table_of e) (updated e found db))
  = map (fun r => if row_int "id" r =? row_int "id" found
                  then bumped e found r else r)
      (rows (get_table (table_of e) db)).
Proof. unfold updated. now rewrite get_set_table. Qed.

Lemma rows_inserted (e : entity) (db : Database) :
  rows (get_table (table_of e) (inserted e db))
  = rows (get_table (table_of e) db)
    ++ [entity_row e (serial (get_table (table_of e) db))].
Proof. unfold inserted. now rewrite get_set_table. Qed.


Lemma entity_row_conforms (e : entity) (id : Z) :
  row_conforms (schema_of (table_of e)) (entity_row e id) = true.
Proof.
  destruct e as [e|e|e|e|e|e]; unfold entity_row;
    destruct (TenantID (stats_of _)); reflexivity.
Qed.

Lemma bumped_conforms (e : entity) (found r : Row) :
  row_conforms (schema_of (table_of e)) r = true ->
  row_conforms (schema_of (table_of e)) (bumped e found r) = true.
Proof.
  intro Hc. unfold bumped. destruct e; cbn [table_of] in *; conforms_after_set.
Qed.

Lemma merged_conforming (order : list nat) (e : entity) (db : Database) :
  conforming (schema_of (table_of e)) (rows (get_table (table_of e) db)) = true ->
  conforming (schema_of (table_of e))
    (rows (get_table (table_of e) (merged order e db))) = true.
Proof.
  intro Hc. unfold merged, conforming in *.
  rewrite forallb_forall in *.
  destruct (found_row order e db) as [f|].
  - rewrite rows_updated. intros r Hr. apply in_map_iff in Hr as [r0 [<- Hr0]].
    destruct (_ =? _); [apply bumped_conforms|]; now apply Hc.
  - rewrite rows_inserted. intros r Hr. apply in_app_iff in Hr as [Hr|[<-|[]]].
    + now apply Hc.
    + apply entity_row_conforms.
Qed.


(** The letter-case example run: [/Home] then [/home] leave one row. *)
Lemma Home_then_home_is_one_row :
  exists w1 w2,
    Save None page_Home fresh_world = Ret None w1 /\
    Save None page_home w1 = Ret None w2 /\
    map (fun r => (row_get "path" r, row_get "visitors" r))
      (rows (visitor_stats (committed w2)))
    = [ (Some (VText "/Home"), Some (VInt 7)) ].
Proof.
  eexists. eexists.
  split; [vm_compute; reflexivity|].
  split; [vm_compute; reflexivity|].
  reflexivity.
Qed.

(** ** The visitor counter of a merge *)

(** Within its range an [int] addition is the mathematical one. *)
Lemma wrap_int_small (z : Z) : - 2 ^ 63 <= z < 2 ^ 63 -> wrap_int z = z.
Proof.
  intro H. unfold wrap_int. rewrite Z.mod_small; lia.
Qed.

(** A column that is set reads back the value set. *)
Lemma row_get_set_same (c : string) (v v0 : value) (r : Row) :
  row_get c r = Some v0 -> row_get c (row_set c v r) = Some v.
Proof.
  induction r as [|[n v1] r IH]; [discriminate|].
  cbn [row_get row_set]. destruct (String.eqb c n) eqn:E; cbn [row_get]; rewrite E.
  - reflexivity.
  - exact IH.
Qed.

(** An update writes the counter read by the lookup plus the delta. *)
Lemma visitors_bumped (e : entity) (found r : Row) :
  row_conforms (schema_of (table_of e)) r = true ->
  row_int "visitors" (bumped e found r)
  = int_add (row_int "visitors" found) (Visitors (stats_of e)).
Proof.
  intro Hc.
  assert (Hv : row_get "visitors" r = Some (VInt (row_int "visitors" r)))
    by (apply (row_get_int _ r Hc); destruct e; reflexivity).
  unfold bumped, row_int.
  destruct e; rewrite ?row_get_set_other by discriminate;
    rewrite (row_get_set_same _ _ _ _ Hv); reflexivity.
Qed.

(** The counter the lookup reads back does grow: under a merge with a
    non-negative delta, and as long as the sum stays in the range of [int],
    the visitor counter of no row of the table goes down. *)
Lemma merged_visitors_grow (order : list nat) (e : entity) (db : Database) :
  conforming (schema_of (table_of e)) (rows (get_table (table_of e) db)) = true ->
  NoDup (map (row_int "id") (rows (get_table (table_of e) db))) ->
  0 <= Visitors (stats_of e) ->
  (forall r, In r (rows (get_table (table_of e) db)) ->
             - 2 ^ 63 <= row_int "visitors" r
             /\ row_int "visitors" r + Visitors (stats_of e) < 2 ^ 63) ->
  Forall2 (fun r r' => row_int "visitors" r <= row_int "visitors" r')
    (rows (get_table (table_of e) db))
    (firstn (List.length (rows (get_table (table_of e) db)))
       (rows (get_table (table_of e) (merged order e db)))).
Proof.
  intros Hc Hid Hdelta Hrange. unfold merged.
  destruct (found_row order e db) as [f|] eqn:E.
  - apply found_row_Some in E as [Hf _].
    rewrite rows_updated. rewrite <- (length_map
      (fun r => if row_int "id" r =? row_int "id" f then bumped e f r else r)).
    rewrite firstn_all.
    assert (Hsame : forall r, In r (rows (get_table (table_of e) db)) ->
                      row_int "id" r = row_int "id" f -> r = f).
    { revert Hid Hf. generalize (rows (get_table (table_of e) db)).
      induction l as [|x l IH]; intros Hnd Hin r Hr Heq; [destruct Hr|].
      cbn [map] in Hnd. inversion Hnd as [|? ? Hnot Hnd']; subst.
      destruct Hr as [->|Hr], Hin as [->|Hin]; try reflexivity.
      - exfalso. apply Hnot. rewrite Heq. now apply in_map.
      - exfalso. apply Hnot. rewrite <- Heq. now apply in_map.
      - now apply IH. }
    revert Hsame Hrange Hc. generalize (rows (get_table (table_of e) db)).
    induction l as [|x l IH]; intros Hsame Hrange Hc; cbn [map]; constructor.
    + destruct (row_int "id" x =? row_int "id" f) eqn:Eid; [|lia].
      apply Z.eqb_eq in Eid.
      rewrite (Hsame x (or_introl eq_refl) Eid) in *.
      unfold conforming in Hc. cbn [forallb] in Hc.
      apply andb_prop in Hc as [Hcf _].
      rewrite (visitors_bumped e f f Hcf). unfold int_add.
      destruct (Hrange f (or_introl eq_refl)) as [Hlo Hhi].
      rewrite wrap_int_small; lia.
    + apply IH.
      * intros r Hr. apply Hsame. now right.
      * intros r Hr. apply Hrange. now right.
      * unfold conforming in *. cbn [forallb] in Hc.
        now apply andb_prop in Hc as [_ Hc].
  - rewrite rows_inserted, firstn_app, firstn_all, Nat.sub_diag. cbn [firstn].
    rewrite app_nil_r. clear.
    induction (rows (get_table (table_of e) db)) as [|x l IH];
      constructor; [lia | exact IH].
Qed.

(** ** Calls inside a transaction *)

Lemma inside_refl (tx : nat) (w : World) : inside tx w w.
Proof.
  repeat split. exists []. now rewrite app_nil_r.
Qed.

Lemma inside_trans (tx : nat) (w1 w2 w3 : World) :
  inside tx w1 w2 -> inside tx w2 w3 -> inside tx w1 w3.
Proof.
  intros [Hc [Hn [Hk [Hv [c1 [Ht1 Hf1]]]]]] [Hc' [Hn' [Hk' [Hv' [c2 [Ht2 Hf2]]]]]].
  repeat split; try congruence.
  - intros h Hh. rewrite (Hv' h Hh). now apply Hv.
  - exists (c1 ++ c2). rewrite Ht2, Ht1, app_assoc, forallb_app, Hf1, Hf2.
    now split.
Qed.

Lemma stays_ret (tx : nat) {A} (a : A) : stays_inside tx (ret a).
Proof. intro w. exists a, w. split; [reflexivity | apply inside_refl]. Qed.

Lemma stays_bind (tx : nat) {A B} (m : M A) (k : A -> M B) :
  stays_inside tx m -> (forall a, stays_inside tx (k a)) ->
  stays_inside tx (bind m k).
Proof.
  intros Hm Hk w. destruct (Hm w) as [a [w1 [Hrun H1]]].
  destruct (Hk a w1) as [b [w2 [Hrun2 H2]]].
  exists b, w2. unfold bind. rewrite Hrun. split; [exact Hrun2|].
  exact (inside_trans _ _ _ _ H1 H2).
Qed.

Lemma map_fst_set_view (tx : nat) (db : Database) (txs : list (nat * Database)) :
  map fst (set_view tx db txs) = map fst txs.
Proof.
  induction txs as [|[h old] txs IH]; [reflexivity|].
  cbn [set_view]. destruct (Nat.eqb tx h); cbn [map fst]; [reflexivity|].
  now rewrite IH.
Qed.

Lemma view_of_set_view_other (tx h : nat) (db : Database)
  (txs : list (nat * Database)) :
  h <> tx -> view_of h (set_view tx db txs) = view_of h txs.
Proof.
  intro Hh. induction txs as [|[k old] txs IH]; [reflexivity|].
  cbn [set_view]. destruct (Nat.eqb tx k) eqn:E; cbn [view_of].
  - apply Nat.eqb_eq in E. subst k.
    now replace (Nat.eqb h tx) with false by (symmetry; now apply Nat.eqb_neq).
  - now rewrite IH.
Qed.

Lemma stays_run_query (tx : nat) (q : query) (b : bindings) :
  stays_inside tx (run_query (Some tx) q b).
Proof.
  intro w. unfold run_query, bind, emit, take_fault, ret. cbn [target open_txs].
  assert (Hone : forallb (inside_call tx) [Statement (Some tx) q b] = true)
    by (cbn; now rewrite Nat.eqb_refl).
  destruct (view_of tx (open_txs w)) as [db|] eqn:Hv.
  - cbn. destruct (hd false (faults w)).
    + do 2 eexists. split; [reflexivity|]. repeat split. cbn.
      exists [Statement (Some tx) q b]. now split.
    + destruct (bind_opt _ _) as [[db' res]|].
      * do 2 eexists. split; [reflexivity|]. cbn. repeat split.
        -- apply map_fst_set_view.
        -- intros h Hh. now apply view_of_set_view_other.
        -- exists [Statement (Some tx) q b]. now split.
      * do 2 eexists. split; [reflexivity|]. repeat split. cbn.
        exists [Statement (Some tx) q b]. now split.
  - do 2 eexists. split; [reflexivity|]. repeat split. cbn.
    exists [Statement (Some tx) q b]. now split.
Qed.

Lemma stays_Tx_Exec (tx : nat) (q : query) (args : list value) :
  stays_inside tx (Tx_Exec tx q args).
Proof.
  unfold Tx_Exec. apply stays_bind; [apply stays_run_query|].
  intros [res err]. apply stays_ret.
Qed.

Lemma stays_Tx_NamedQuery (tx : nat) (q : query) (fields : list (string * value)) :
  stays_inside tx (Tx_NamedQuery tx q fields).
Proof.
  unfold Tx_NamedQuery. apply stays_bind; [apply stays_run_query|].
  intros [res err]. apply stays_ret.
Qed.

Lemma stays_Tx_Get (tx : nat) {E} (scan : string -> value -> E -> option E)
  (dest : E) (q : query) (args : list value) :
  stays_inside tx (Tx_Get scan tx dest q args).
Proof.
  unfold Tx_Get. apply stays_bind; [apply stays_run_query|].
  intros [res [e|]]; [apply stays_ret|].
  destruct (tuples res) as [|first rest]; [apply stays_ret|].
  destruct (scan_row _ _ _ _); apply stays_ret.
Qed.

Lemma stays_closeRows (tx : nat) (rows : unit) : stays_inside tx (closeRows rows).
Proof.
  intro w. rewrite closeRows_eq. do 2 eexists. split; [reflexivity|].
  cbv zeta. destruct (hd false (faults w)); repeat split; cbn;
    exists [CloseRows]; now split.
Qed.

Lemma stays_createUpdateEntity (tx : nat) {E} `{StatsEntity E}
  (entity existing : E) (found : bool) (insertQuery updateQuery : query) :
  stays_inside tx
    (createUpdateEntity tx entity existing found insertQuery updateQuery).
Proof.
  unfold createUpdateEntity. destruct found.
  - apply stays_bind; [apply stays_Tx_Exec|]. intros [e|]; apply stays_ret.
  - apply stays_bind; [apply stays_Tx_NamedQuery|].
    intros [rows [e|]]; [apply stays_ret|].
    apply stays_bind; [apply stays_closeRows | intros _; apply stays_ret].
Qed.

Ltac stays_merge :=
  cbn [with_tx];
  apply stays_bind; [apply stays_Tx_Get|];
  let existing := fresh "existing" in
  let err := fresh "err" in
  intros [existing err];
  apply stays_bind; [apply stays_createUpdateEntity|];
  intros [?|]; apply stays_ret.

Lemma stays_Save (tx : nat) (e : entity) : stays_inside tx (Save (Some tx) e).
Proof.
  destruct e as [e|e|e|e|e|e]; unfold Save.
  - unfold SaveVisitorStats. cbn [with_tx].
    apply stays_bind; [apply stays_Tx_Get|]. intros [existing err].
    destruct (is_nil err).
    + apply stays_bind; [apply stays_Tx_Exec|]. intros [?|]; apply stays_ret.
    + apply stays_bind; [apply stays_Tx_NamedQuery|].
      intros [rows [?|]]; [apply stays_ret|].
      apply stays_bind; [apply stays_closeRows | intros _; apply stays_ret].
  - unfold SaveVisitorTimeStats. stays_merge.
  - unfold SaveLanguageStats. stays_merge.
  - unfold SaveReferrerStats. stays_merge.
  - unfold SaveOSStats. stays_merge.
  - unfold SaveBrowserStats. stays_merge.
Qed.

Lemma stays_DeleteHitsByDay (tx : nat) (tenantID : option Z) (day : Z) :
  stays_inside tx (DeleteHitsByDay (Some tx) tenantID day).
Proof.
  unfold DeleteHitsByDay. cbn [with_tx].
  apply stays_bind; [apply stays_Tx_Exec|]. intros [?|]; apply stays_ret.
Qed.

(** X1: given a transaction, each of the six merges and [DeleteHitsByDay]
    returns in every world, whatever the engine does.  It sends its
    statements on that transaction only; it begins, commits and rolls back
    nothing; the committed state and the view of every other transaction are
    what they were. *)
Theorem joined_calls_stay_inside_the_transaction (tx : nat) (e : entity)
  (tenantID : option Z) (day : Z) (w : World) :
  (exists err w', Save (Some tx) e w = Ret err w' /\ inside tx w w') /\
  (exists err w',
      DeleteHitsByDay (Some tx) tenantID day w = Ret err w' /\ inside tx w w').
Proof.
  split; [apply stays_Save | apply stays_DeleteHitsByDay].
Qed.

(** ** Methods called without a transaction *)

Lemma NewTx_fails (w : World) :
  hd false (faults w) = true ->
  NewTx w
  = Exit (note "error creating new transaction: driver: bad connection"
            (stepped w (Begin (next_tx w)))).
Proof.
  intro Hf. unfold NewTx, DB_Beginx, bind, emit, take_fault, ret. cbn.
  rewrite Hf. reflexivity.
Qed.

Lemma Commit_eq (tx : nat) (w : World) (db : Database) :
  view_of tx (open_txs w) = Some db ->
  Commit tx w = Ret tt (committing tx w).
Proof.
  intro Hv. unfold Commit, Tx_Commit, bind, emit, take_fault, ret, committing.
  cbn. rewrite Hv. cbn. destruct (hd false (faults w)); reflexivity.
Qed.

Lemma Rollback_eq (tx : nat) (w : World) (db : Database) :
  view_of tx (open_txs w) = Some db ->
  Rollback tx w = Ret tt (rolling_back tx w).
Proof.
  intro Hv. unfold Rollback, Tx_Rollback, bind, emit, take_fault, ret,
    rolling_back.
  cbn. rewrite Hv. cbn. destruct (hd false (faults w)); reflexivity.
Qed.

Lemma view_of_In (tx : nat) (txs : list (nat * Database)) :
  In tx (map fst txs) -> exists db, view_of tx txs = Some db.
Proof.
  induction txs as [|[h old] txs IH]; [intros []|].
  cbn [map fst view_of]. destruct (Nat.eqb tx h) eqn:E.
  - intros _. now exists old.
  - intros [Hh|Hin]; [|now apply IH].
    subst h. now rewrite Nat.eqb_refl in E.
Qed.

Lemma view_of_close_view (tx : nat) (txs : list (nat * Database)) :
  view_of tx (close_view tx txs) = None.
Proof.
  induction txs as [|[h old] txs IH]; [reflexivity|].
  cbn [close_view]. destruct (Nat.eqb tx h) eqn:E; [exact IH|].
  cbn [view_of]. now rewrite E.
Qed.

Lemma view_of_close_view_other (tx h : nat) (txs : list (nat * Database)) :
  h <> tx -> view_of h (close_view tx txs) = view_of h txs.
Proof.
  intro Hh. induction txs as [|[k old] txs IH]; [reflexivity|].
  cbn [close_view]. destruct (Nat.eqb tx k) eqn:E; cbn [view_of].
  - apply Nat.eqb_eq in E. subst k.
    now replace (Nat.eqb h tx) with false by (symmetry; now apply Nat.eqb_neq).
  - now rewrite IH.
Qed.

(** The opening of a method without a transaction, when the begin goes
    through: the body runs inside the new transaction, then the commit. *)
Lemma with_tx_own {A} (body : nat -> M A) (w : World) :
  hd false (faults w) = false ->
  stays_inside (next_tx w) (body (next_tx w)) ->
  exists r w1,
    body (next_tx w) (begun w) = Ret r w1 /\
    inside (next_tx w) (begun w) w1 /\
    with_tx None body w = Ret r (committing (next_tx w) w1).
Proof.
  intros Hf Hbody. destruct (Hbody (begun w)) as [r [w1 [Hrun Hin]]].
  exists r, w1. split; [exact Hrun|]. split; [exact Hin|].
  unfold with_tx, bind. rewrite (NewTx_ok w Hf), Hrun.
  destruct Hin as [_ [_ [Hk _]]].
  destruct (view_of_In (next_tx w) (open_txs w1)) as [db Hv].
  { rewrite Hk. cbn. now left. }
  now rewrite (Commit_eq _ _ _ Hv).
Qed.

Lemma trace_committing (tx : nat) (w : World) :
  trace (committing tx w) = trace w ++ [CommitTx tx].
Proof. unfold committing. cbv zeta. now destruct (hd false (faults w)). Qed.

Lemma open_txs_committing (tx : nat) (w : World) :
  open_txs (committing tx w) = close_view tx (open_txs w).
Proof. unfold committing. cbv zeta. now destruct (hd false (faults w)). Qed.

Lemma next_tx_committing (tx : nat) (w : World) :
  next_tx (committing tx w) = next_tx w.
Proof. unfold committing. cbv zeta. now destruct (hd false (faults w)). Qed.

(** What every method called without a transaction does around its body. *)
Lemma with_tx_brackets {A} (body : nat -> M A) (w : World) :
  hd false (faults w) = false ->
  stays_inside (next_tx w) (body (next_tx w)) ->
  exists r w', with_tx None body w = Ret r w' /\ bracketed (next_tx w) w w'.
Proof.
  intros Hf Hbody.
  destruct (with_tx_own body w Hf Hbody)
    as [r [w1 [_ [[_ [Hn [_ [_ [calls [Ht Hc]]]]]] Hrun]]]].
  exists r, (committing (next_tx w) w1). split; [exact Hrun|].
  unfold bracketed.
  rewrite next_tx_committing, open_txs_committing, trace_committing.
  split; [exact Hn|]. split; [apply view_of_close_view|].
  exists calls. split; [|exact Hc]. rewrite Ht. cbn [begun trace].
  now rewrite <- !app_assoc.
Qed.

(** X2: called without a transaction, once the begin has gone through, each
    of the six merges and [DeleteHitsByDay] returns.  It has begun one
    transaction, made its calls inside it and then committed it, also when a
    statement failed: it never rolls back.  That transaction is open no
    more. *)
Theorem standalone_calls_begin_and_commit_once (e : entity)
  (tenantID : option Z) (day : Z) (w : World) :
  hd false (faults w) = false ->
  (exists err w', Save None e w = Ret err w' /\ bracketed (next_tx w) w w') /\
  (exists err w',
      DeleteHitsByDay None tenantID day w = Ret err w'
      /\ bracketed (next_tx w) w w').
Proof.
  intros Hf. split.
  - rewrite Save_with_tx. apply with_tx_brackets; [exact Hf | apply stays_Save].
  - apply (with_tx_brackets
             (fun h => DeleteHitsByDay (Some h) tenantID day) w Hf).
    apply stays_DeleteHitsByDay.
Qed.

Lemma standalone_calls_begin_and_commit_once_witness :
  (exists err w',
      Save None page_Home three_hits_world = Ret err w'
      /\ bracketed 0 three_hits_world w') /\
  (exists err w',
      DeleteHitsByDay None (Some 1) one_day three_hits_world = Ret err w'
      /\ bracketed 0 three_hits_world w').
Proof.
  apply (standalone_calls_begin_and_commit_once page_Home (Some 1) one_day
           three_hits_world).
  reflexivity.
Defined.

(** X3: called without a transaction, when the engine fails the begin, the
    six merges and [DeleteHitsByDay] return no error: [NewTx] logs the
    failure and the process exits.  No statement was sent, nothing is
    written, no transaction is open. *)
Theorem standalone_calls_exit_when_begin_fails (e : entity)
  (tenantID : option Z) (day : Z) (w : World) :
  hd false (faults w) = true ->
  let w' :=
    note "error creating new transaction: driver: bad connection"
      (stepped w (Begin (next_tx w))) in
  Save None e w = Exit w' /\
  DeleteHitsByDay None tenantID day w = Exit w' /\
  committed w' = committed w /\
  open_txs w' = open_txs w.
Proof.
  intro Hf. cbv zeta. split; [|split; [|split; reflexivity]].
  - rewrite Save_with_tx. unfold with_tx, bind. now rewrite (NewTx_fails w Hf).
  - unfold DeleteHitsByDay, with_tx, bind. now rewrite (NewTx_fails w Hf).
Qed.

Lemma standalone_calls_exit_when_begin_fails_witness :
  let w := with_faults [true] fresh_world in
  let w' :=
    note "error creating new transaction: driver: bad connection"
      (stepped w (Begin (next_tx w))) in
  Save None page_Home w = Exit w' /\
  DeleteHitsByDay None None 0 w = Exit w' /\
  committed w' = committed w /\
  open_txs w' = open_txs w.
Proof.
  apply (standalone_calls_exit_when_begin_fails page_Home None 0
           (with_faults [true] fresh_world)).
  reflexivity.
Defined.

(** ** The world after a merge *)

Section JoinedMergeWorld.

Variable tx : nat.
Variable w : World.
Variable db : Database.
Hypothesis Hview : view_of tx (open_txs w) = Some db.

Ltac merge_world ent scanned Hc :=
  unfold with_tx, bind;
  rewrite (Tx_Get_lookup tx w db Hview db_scan new ent Hc);
  unfold after_merge;
  let w1 := fresh "w1" in
  set (w1 := stepped w _);
  let r := fresh "r" in
  destruct (looked_up ent w db) as [r|];
  [ change (scan_row db_scan ["id"; "visitors"]
              [VInt (row_int "id" r); VInt (row_int "visitors" r)] new)
      with (Some (with_base (mkStats (row_int "id" r) None 0 EmptyString
                               (row_int "visitors" r)) scanned));
    cbv beta iota; unfold createUpdateEntity, is_nil, bind;
    match goal with
    | |- context [Tx_Exec tx ?q ?a w1] =>
        change (Tx_Exec tx q a w1)
          with (Tx_Exec tx (Sql (update_statement ent))
                  (update_args ent r) w1)
    end;
    rewrite (Tx_Exec_eq tx (update_statement ent) (update_args ent r)
               w1 db _ _ Hview (execute_update _ _ ent r db Hc));
    cbv zeta; change (faults w1) with (tl (faults w));
    destruct (hd false (tl (faults w))); reflexivity
  | cbv beta iota; unfold createUpdateEntity, is_nil, bind;
    match goal with
    | |- context [Tx_NamedQuery tx ?q ?a w1] =>
        change (Tx_NamedQuery tx q a w1)
          with (Tx_NamedQuery tx (Sql (insert_statement ent))
                  (entity_fields ent) w1)
    end;
    rewrite (Tx_NamedQuery_eq tx (insert_statement ent)
               (entity_fields ent) w1 db _ _ Hview
               (execute_insert _ _ ent db));
    cbv zeta; change (faults w1) with (tl (faults w));
    destruct (hd false (tl (faults w)));
    [ reflexivity
    | rewrite closeRows_eq; cbv zeta; cbn [faults stepped install];
      destruct (hd false (tl (tl (faults w)))); reflexivity ] ].

(** Each of the six merges inside [tx], with the world it leaves. *)
Lemma Save_joined_world (e : entity) :
  conforming (schema_of (table_of e)) (rows (get_table (table_of e) db)) = true ->
  Save (Some tx) e w
  = Ret (if hd false (tl (faults w)) then Some ErrBadConn else None)
      (after_merge e tx w db).
Proof.
  intro Hc.
  destruct e as [e|e|e|e|e|e]; unfold Save.
  - unfold SaveVisitorStats.
    merge_world (PerPage e) (new : VisitorStats) Hc.
  - unfold SaveVisitorTimeStats.
    merge_world (PerHour e) (new : VisitorTimeStats) Hc.
  - unfold SaveLanguageStats.
    merge_world (PerLanguage e) (new : LanguageStats) Hc.
  - unfold SaveReferrerStats.
    merge_world (PerReferrer e) (new : ReferrerStats) Hc.
  - unfold SaveOSStats.
    merge_world (PerOS e) (new : OSStats) Hc.
  - unfold SaveBrowserStats.
    merge_world (PerBrowser e) (new : BrowserStats) Hc.
Qed.

Lemma view_after_merge (e : entity) :
  view_of tx (open_txs (after_merge e tx w db))
  = Some (if hd false (tl (faults w)) then db else merge_result e w db).
Proof.
  unfold after_merge, merge_result. cbv zeta. cbn [faults stepped].
  destruct (looked_up e w db) as [r|];
    destruct (hd false (tl (faults w))); cbn; try exact Hview;
    try (destruct (hd false (tl (tl (faults w)))); cbn);
    now apply (view_of_set_view tx db).
Qed.

End JoinedMergeWorld.

Lemma committed_after_merge (e : entity) (tx : nat) (w : World) (db : Database) :
  committed (after_merge e tx w db) = committed w.
Proof.
  unfold after_merge. cbv zeta. cbn [faults stepped].
  destruct (looked_up e w db) as [r|];
    destruct (hd false (tl (faults w))); cbn; try reflexivity.
  destruct (hd false (tl (tl (faults w)))); reflexivity.
Qed.

Lemma hd_skipn {A} (d : A) (n : nat) (l : list A) :
  hd d (skipn n l) = nth n l d.
Proof.
  revert l. induction n as [|n IH]; intros [|x l]; cbn; try reflexivity.
  apply IH.
Qed.

Lemma skipn_tl {A} (n : nat) (l : list A) : skipn n (tl l) = skipn (S n) l.
Proof. destruct l; [now destruct n | reflexivity]. Qed.

Lemma faults_after_merge (e : entity) (tx : nat) (w : World) (db : Database) :
  faults (after_merge e tx w db)
  = skipn (List.length (merge_calls e tx w db)) (faults w).
Proof.
  unfold after_merge, merge_calls. cbv zeta. cbn [faults stepped].
  destruct (looked_up e w db) as [r|]; cbn [List.length].
  - rewrite <- !skipn_tl. cbn [skipn].
    destruct (hd false (tl (faults w))); reflexivity.
  - destruct (hd false (tl (faults w))); cbn [List.length];
      rewrite <- !skipn_tl; cbn [skipn]; [reflexivity|].
    destruct (hd false (tl (tl (faults w)))); reflexivity.
Qed.

Lemma logged_after_merge (e : entity) (tx : nat) (w : World) (db : Database) :
  exists closing,
    logged (after_merge e tx w db) = logged w ++ closing /\
    (closing = [] \/ closing = ["error closing rows: driver: bad connection"]).
Proof.
  unfold after_merge. cbv zeta. cbn [faults stepped].
  destruct (looked_up e w db) as [r|];
    destruct (hd false (tl (faults w)));
    try (exists []; cbn; rewrite app_nil_r; split; [reflexivity | now left]).
  destruct (hd false (tl (tl (faults w)))).
  - eexists. split; [reflexivity | now right].
  - exists []. cbn. rewrite app_nil_r. split; [reflexivity | now left].
Qed.

(** A merge called without a transaction, when the begin goes through. *)
Lemma Save_standalone_world (e : entity) (w : World) :
  conforming (schema_of (table_of e))
    (rows (get_table (table_of e) (committed w))) = true ->
  hd false (faults w) = false ->
  Save None e w
  = Ret (if hd false (tl (tl (faults w))) then Some ErrBadConn else None)
      (committing (next_tx w)
         (after_merge e (next_tx w) (begun w) (committed w))).
Proof.
  intros Hc Hf. rewrite Save_with_tx. unfold with_tx, bind.
  rewrite (NewTx_ok w Hf).
  assert (Hv : view_of (next_tx w) (open_txs (begun w)) = Some (committed w))
    by (cbn; now rewrite Nat.eqb_refl).
  rewrite (Save_joined_world _ _ _ Hv e Hc).
  pose proof (view_after_merge _ _ _ Hv e) as Hv'.
  rewrite (Commit_eq _ _ _ Hv'). reflexivity.
Qed.

(** X4: what a merge without a transaction returns is the outcome of its
    write alone.  The flags of the engine are, in order, those of the begin,
    of the lookup, of the write, of the closing of the rows when there are
    rows, and of the deferred commit.  The merge is in the committed state
    only when the write and the commit both went through; when the write
    went through and the commit failed the merge returns [nil] all the same,
    and the failure is a line in the log. *)
Theorem Save_reports_the_write_not_the_commit (e : entity) (w : World) :
  conforming (schema_of (table_of e))
    (rows (get_table (table_of e) (committed w))) = true ->
  hd false (faults w) = false ->
  let tx := next_tx w in
  let calls := merge_calls e tx (begun w) (committed w) in
  let write_fails := nth 2 (faults w) false in
  let commit_fails := nth (S (List.length calls)) (faults w) false in
  exists w' closing,
    Save None e w = Ret (if write_fails then Some ErrBadConn else None) w' /\
    committed w' =
      (if write_fails || commit_fails then committed w
       else merge_result e (begun w) (committed w)) /\
    trace w' = trace w ++ Begin tx :: calls ++ [CommitTx tx] /\
    logged w' =
      logged w ++ closing ++
      (if commit_fails
       then ["error committing transaction: driver: bad connection"] else []) /\
    (closing = [] \/ closing = ["error closing rows: driver: bad connection"]).
Proof.
  intros Hc Hf. cbv zeta.
  assert (Hv : view_of (next_tx w) (open_txs (begun w)) = Some (committed w))
    by (cbn; now rewrite Nat.eqb_refl).
  set (w1 := after_merge e (next_tx w) (begun w) (committed w)).
  destruct (logged_after_merge e (next_tx w) (begun w) (committed w))
    as [closing [Hlog Hclosing]].
  exists (committing (next_tx w) w1), closing.
  replace (nth 2 (faults w) false) with (hd false (tl (tl (faults w))))
    by (destruct (faults w) as [|? [|? [|? ?]]]; reflexivity).
  split; [exact (Save_standalone_world e w Hc Hf)|].
  assert (Hcf : hd false (faults w1)
                = nth (S (List.length
                            (merge_calls e (next_tx w) (begun w) (committed w))))
                    (faults w) false).
  { unfold w1. rewrite faults_after_merge, hd_skipn.
    cbn [begun faults]. destruct (faults w); [|reflexivity].
    cbn [tl]. now destruct (List.length _). }
  rewrite <- Hcf.
  pose proof (view_after_merge _ _ _ Hv e) as Hv'. fold w1 in Hv'.
  cbn [begun faults] in Hv'.
  pose proof (committed_after_merge e (next_tx w) (begun w) (committed w)) as Hcm.
  fold w1 in Hcm. cbn [begun committed] in Hcm.
  split; [|split; [|split; [|exact Hclosing]]].
  - unfold committing. cbv zeta.
    destruct (hd false (faults w1)); cbn.
    + rewrite Hcm. now rewrite orb_true_r.
    + rewrite Hv', orb_false_r.
      now destruct (hd false (tl (tl (faults w)))).
  - rewrite trace_committing. unfold w1.
    pose proof (Save_joined _ _ _ Hv e Hc) as [w2 [Hrun [_ [Htrace _]]]].
    rewrite (Save_joined_world _ _ _ Hv e Hc) in Hrun.
    injection Hrun as <-. rewrite Htrace. cbn [begun trace].
    now rewrite <- !app_assoc.
  - unfold committing. cbv zeta. fold w1 in Hlog. cbn [begun logged] in Hlog.
    destruct (hd false (faults w1)); cbn; rewrite Hlog.
    + now rewrite <- app_assoc.
    + now rewrite app_nil_r.
Qed.

Lemma Save_reports_the_write_not_the_commit_witness :
  let e := PerLanguage (english 1) in
  let w := with_faults [false; false; false; false; true] fresh_world in
  exists w' closing,
    Save None e w = Ret None w' /\
    committed w' = committed w /\
    trace w' =
      Begin 0 :: merge_calls e 0 (begun w) (committed w) ++ [CommitTx 0] /\
    logged w' =
      closing ++ ["error committing transaction: driver: bad connection"] /\
    (closing = [] \/ closing = ["error closing rows: driver: bad connection"]).
Proof.
  apply (Save_reports_the_write_not_the_commit (PerLanguage (english 1))
           (with_faults [false; false; false; false; true] fresh_world));
    reflexivity.
Defined.

(** ** The window of [DeleteHitsByDay] *)

Lemma delete_where_window (today : Z) (scope : option Z) (from : Z) (r : Row) :
  row_conforms hit_schema r = true ->
  eval_where today (mkBindings [null_int64 scope; VTime from] [])
    (And (And tenant_scope (AtLeast (Col "time") (Param 2)))
         (Less (Col "time") (PlusOneDay (Param 2)))) r
  = Some (in_scope scope r && in_window from (row_time "time" r)).
Proof.
  intro Hc. unfold eval_where. cbn [eval].
  rewrite (eval_tenant_scope hit_schema _ _ _ _ _ Hc eq_refl).
  cbn [eval positional nth_param nth_error bind_opt].
  rewrite (row_get_time hit_schema r Hc "time" eq_refl).
  cbn [bind_opt comparison_value compare_values].
  change (is_Ge (?a ?= ?b)) with (a >=? b).
  change (is_Lt (?a ?= ?b)) with (a <? b).
  rewrite Z.geb_leb.
  unfold in_window.
  set (a := from <=? _). set (c := _ <? _).
  pose proof (where_scope_and scope r (a && c)) as H.
  destruct (scope_value scope r) as [| | |y| |], a, c; try discriminate H;
    cbn in *; try exact H; try destruct y; try exact H.
Qed.

Lemma execute_delete_window (today : Z) (order : list nat) (scope : option Z)
  (from : Z) (db : Database) :
  conforming hit_schema (rows (hit db)) = true ->
  execute today order (mkBindings [null_int64 scope; VTime from] [])
    delete_statement db
  = Some (without_window scope from db, no_result).
Proof.
  intro Hc. unfold execute, delete_statement.
  change (resolve_table "hit") with (Some T_hit).
  cbv iota beta zeta.
  change (schema_of T_hit) with hit_schema.
  change (get_table T_hit db) with (hit db).
  match goal with
  | |- context [resolves ?s ?b ?e] =>
      replace (resolves s b e) with true by (destruct scope; reflexivity)
  end.
  rewrite (select_rows_filter _
             (fun r => negb (in_scope scope r
                             && in_window from (row_time "time" r)))).
  - reflexivity.
  - intros r Hr. rewrite delete_where_window; [reflexivity|].
    exact (conforming_In _ _ _ Hc Hr).
Qed.

(** [DeleteHitsByDay] inside the open transaction [tx]. *)
Lemma DeleteHitsByDay_joined_world (tx : nat) (scope : option Z) (from : Z)
  (w : World) (db : Database) :
  view_of tx (open_txs w) = Some db ->
  conforming hit_schema (rows (hit db)) = true ->
  DeleteHitsByDay (Some tx) scope from w
  = let w1 := stepped w (delete_call tx scope from) in
    if hd false (faults w) then Ret (Some ErrBadConn) w1
    else Ret None (install (Some tx) (without_window scope from db) w1).
Proof.
  intros Hv Hc. unfold DeleteHitsByDay, with_tx, bind.
  change (Sql (DELETE _ _)) with (Sql delete_statement).
  rewrite (Tx_Exec_eq tx delete_statement _ w db _ _ Hv
             (execute_delete_window _ _ scope from db Hc)).
  cbv zeta. destruct (hd false (faults w)); reflexivity.
Qed.

(** X5: inside a transaction, [DeleteHitsByDay] deletes the hits of the
    scope whose time lies in the twenty-four hours that start at the instant
    it is given, a midnight or not, and changes nothing else; when the
    statement fails it returns the failure and the transaction sees what it
    saw.  It makes the one call. *)
Theorem DeleteHitsByDay_deletes_a_window_of_one_day (tx : nat) (scope : option Z)
  (from : Z) (w : World) (db : Database) :
  view_of tx (open_txs w) = Some db ->
  conforming hit_schema (rows (hit db)) = true ->
  let fails := hd false (faults w) in
  exists w',
    DeleteHitsByDay (Some tx) scope from w
      = Ret (if fails then Some ErrBadConn else None) w' /\
    view_of tx (open_txs w')
      = Some (if fails then db else without_window scope from db) /\
    trace w' = trace w ++ [delete_call tx scope from].
Proof.
  intros Hv Hc. cbv zeta.
  rewrite (DeleteHitsByDay_joined_world tx scope from w db Hv Hc). cbv zeta.
  destruct (hd false (faults w)); eexists; (split; [reflexivity|]); cbn;
    (split; [|reflexivity]).
  - exact Hv.
  - now apply (view_of_set_view tx db).
Qed.

Lemma DeleteHitsByDay_deletes_a_window_of_one_day_witness :
  let w := begun three_hits_world in
  exists w',
    DeleteHitsByDay (Some 0%nat) None (one_day + 3600) w = Ret None w' /\
    view_of 0 (open_txs w')
      = Some (without_window None (one_day + 3600) (committed three_hits_world)) /\
    trace w' = trace w ++ [delete_call 0 None (one_day + 3600)].
Proof.
  apply (DeleteHitsByDay_deletes_a_window_of_one_day 0 None (one_day + 3600)
           (begun three_hits_world) (committed three_hits_world));
    reflexivity.
Defined.

(** The window from one hour into day 1: the hit at 00:00:07 of day 1 stays,
    the hit at 01:00:00 of day 1 and the hit at 00:00:05 of day 2 go. *)
Lemma without_window_example :
  rows (hit (without_window None (one_day + 3600) (committed three_hits_world)))
  = map Hit_row [ hit_at (Some 2) "/b" (1 * one_day + 7) ].
Proof. reflexivity. Qed.

(** On a midnight the window is the calendar day. *)
Lemma in_window_day (day t : Z) :
  in_window (day * one_day) t = (date_of t =? day).
Proof.
  unfold in_window, date_of, one_day.
  destruct (t / 86400 =? day) eqn:E.
  - apply Z.eqb_eq in E. apply andb_true_iff. split.
    + apply Z.leb_le. subst day. pose proof (Z.mul_div_le t 86400). lia.
    + apply Z.ltb_lt. subst day.
      pose proof (Z.mul_succ_div_gt t 86400). lia.
  - apply Z.eqb_neq in E. apply andb_false_iff.
    destruct (Z_lt_ge_dec t (day * 86400)) as [Hlt|Hge].
    + left. apply Z.leb_gt. exact Hlt.
    + right. apply Z.ltb_ge.
      destruct (Z_lt_ge_dec t (day * 86400 + 86400)) as [Hlt'|Hge']; [|lia].
      exfalso. apply E. symmetry. apply (Z.div_unique t 86400 day (t - day * 86400)); lia.
Qed.

Lemma DeleteHitsByDay_standalone_world (scope : option Z) (from : Z) (w : World) :
  conforming hit_schema (rows (hit (committed w))) = true ->
  hd false (faults w) = false ->
  DeleteHitsByDay None scope from w
  = let tx := next_tx w in
    let w1 := stepped (begun w) (delete_call tx scope from) in
    if hd false (tl (faults w)) then Ret (Some ErrBadConn) (committing tx w1)
    else Ret None
           (committing tx
              (install (Some tx) (without_window scope from (committed w)) w1)).
Proof.
  intros Hc Hf.
  assert (Hv : view_of (next_tx w) (open_txs (begun w)) = Some (committed w))
    by (cbn; now rewrite Nat.eqb_refl).
  change (DeleteHitsByDay None scope from)
    with (with_tx None (fun h => DeleteHitsByDay (Some h) scope from)).
  unfold with_tx, bind. rewrite (NewTx_ok w Hf).
  rewrite (DeleteHitsByDay_joined_world (next_tx w) scope from (begun w)
             (committed w) Hv Hc).
  cbv zeta. cbn [begun faults].
  destruct (hd false (tl (faults w))).
  - erewrite Commit_eq; [reflexivity | exact Hv].
  - erewrite Commit_eq; [reflexivity|].
    cbn [install open_txs stepped]. exact (view_of_set_view _ _ _ _ Hv).
Qed.

(** ** Deleting, saving and listing days *)

(** X6: [DeleteHitsByDay] without a transaction makes three calls: the
    begin, the statement, the commit.  It returns the outcome of the
    statement.  The hits are gone from the committed state only when
    statement and commit both went through; a commit that fails leaves a
    line in the log and [nil] as the result. *)
Theorem DeleteHitsByDay_reports_the_statement_not_the_commit
  (scope : option Z) (from : Z) (w : World) :
  conforming hit_schema (rows (hit (committed w))) = true ->
  hd false (faults w) = false ->
  let tx := next_tx w in
  let statement_fails := nth 1 (faults w) false in
  let commit_fails := nth 2 (faults w) false in
  exists w',
    DeleteHitsByDay None scope from w
      = Ret (if statement_fails then Some ErrBadConn else None) w' /\
    committed w' =
      (if statement_fails || commit_fails then committed w
       else without_window scope from (committed w)) /\
    trace w' = trace w ++ [Begin tx; delete_call tx scope from; CommitTx tx] /\
    logged w' =
      logged w ++
      (if commit_fails
       then ["error committing transaction: driver: bad connection"] else []).
Proof.
  intros Hc Hf. cbv zeta.
  rewrite (DeleteHitsByDay_standalone_world scope from w Hc Hf). cbv zeta.
  replace (nth 1 (faults w) false) with (hd false (tl (faults w)))
    by (destruct (faults w) as [|? [|? ?]]; reflexivity).
  replace (nth 2 (faults w) false) with (hd false (tl (tl (faults w))))
    by (destruct (faults w) as [|? [|? [|? ?]]]; reflexivity).
  unfold committing. cbv zeta. cbn [faults stepped begun install].
  destruct (hd false (tl (faults w))), (hd false (tl (tl (faults w))));
    eexists; (split; [reflexivity|]); cbn;
    rewrite <- ?app_assoc, ?app_nil_r, ?Nat.eqb_refl; cbn;
    rewrite ?Nat.eqb_refl; repeat split; reflexivity.
Qed.

Lemma DeleteHitsByDay_reports_the_statement_not_the_commit_witness :
  let w := with_faults [false; false; true] three_hits_world in
  exists w',
    DeleteHitsByDay None None one_day w = Ret None w' /\
    committed w' = committed w /\
    trace w' = [Begin 0; delete_call 0 None one_day; CommitTx 0] /\
    logged w' = ["error committing transaction: driver: bad connection"].
Proof.
  apply (DeleteHitsByDay_reports_the_statement_not_the_commit None one_day
           (with_faults [false; false; true] three_hits_world)); reflexivity.
Defined.

(** [Days] when its statement goes through. *)
Lemma Days_eq (scope : option Z) (w : World) :
  conforming hit_schema (rows (hit (committed w))) = true ->
  hd false (faults w) = false ->
  exists w',
    Days scope w
    = Ret (listed_days (today w) (order w) scope (committed w), None) w' /\
    committed w' = committed w /\ faults w' = tl (faults w) /\
    order w' = order w /\ today w' = today w.
Proof.
  intros Hc Hf. unfold Days, DB_Select, bind.
  rewrite (run_query_eq None _ _ w (committed w)) by reflexivity.
  cbv zeta. rewrite Hf. cbn [parse bind_opt].
  rewrite (execute_days _ _ _ _ Hc). cbn [tuples].
  rewrite (map_opt_map _ day_cell).
  - eexists. split; [reflexivity|]. repeat split.
  - intros x Hx.
    apply (Permutation_in _ (arrange_perm _ _)) in Hx. apply nodup_In in Hx.
    apply in_map_iff in Hx as [r [<- _]]. reflexivity.
Qed.

Lemma listed_days_In (today : Z) (order : list nat) (scope : option Z)
  (db : Database) (d : Z) :
  In d (listed_days today order scope db) <->
  d < today /\
  exists r, In r (rows (hit db)) /\ in_scope scope r = true
            /\ date_of (row_time "time" r) = d.
Proof.
  unfold listed_days. rewrite in_map_iff. split.
  - intros [x [Hd Hx]].
    apply (Permutation_in _ (arrange_perm _ _)) in Hx. apply nodup_In in Hx.
    apply in_map_iff in Hx as [r [Hr Hrin]].
    apply filter_In in Hrin as [Hrin Hq].
    unfold past_day_of in Hq. apply andb_prop in Hq as [Hsc Hlt].
    subst x. cbn in Hd. subst d.
    split; [now apply Z.ltb_lt|]. exists r. auto.
  - intros [Hlt [r [Hrin [Hsc Hd]]]].
    exists [VDate d]. split; [reflexivity|].
    apply (Permutation_in _ (Permutation_sym (arrange_perm order _))).
    apply nodup_In. apply in_map_iff. exists r. split; [now rewrite Hd|].
    apply filter_In. split; [exact Hrin|].
    unfold past_day_of. rewrite Hsc, Hd. now apply Z.ltb_lt.
Qed.

Lemma conforming_filter (s : schema) (p : Row -> bool) (rs : list Row) :
  conforming s rs = true -> conforming s (filter p rs) = true.
Proof.
  unfold conforming. intro H. apply forallb_forall. intros r Hr.
  apply filter_In in Hr as [Hr _].
  now apply (proj1 (forallb_forall _ _) H).
Qed.

Lemma DeleteHitsByDay_quiet (scope : option Z) (from : Z) (w : World) :
  conforming hit_schema (rows (hit (committed w))) = true ->
  faults w = [] ->
  exists w',
    DeleteHitsByDay None scope from w = Ret None w' /\
    committed w' = without_window scope from (committed w) /\
    quiet w w'.
Proof.
  intros Hc Hf.
  rewrite (DeleteHitsByDay_standalone_world scope from w Hc)
    by (now rewrite Hf).
  cbv zeta. rewrite Hf. cbn [tl hd].
  eexists. split; [reflexivity|].
  unfold committing, quiet. cbn. rewrite Hf. cbn.
  rewrite ?Nat.eqb_refl. cbn. rewrite ?Nat.eqb_refl.
  repeat split; reflexivity.
Qed.

(** X7: after [DeleteHitsByDay] for a scope and a calendar day, [Days] for
    that scope lists the days it listed before, except that day. *)
Theorem a_deleted_day_is_no_longer_listed (scope : option Z) (day : Z)
  (w : World) :
  conforming hit_schema (rows (hit (committed w))) = true ->
  faults w = [] ->
  exists before w0 w1 after w2,
    Days scope w = Ret (before, None) w0 /\
    DeleteHitsByDay None scope (day * one_day) w = Ret None w1 /\
    Days scope w1 = Ret (after, None) w2 /\
    forall d, In d after <-> In d before /\ d <> day.
Proof.
  intros Hc Hf.
  destruct (Days_eq scope w Hc) as [w0 [Hdays0 _]]; [now rewrite Hf|].
  destruct (DeleteHitsByDay_quiet scope (day * one_day) w Hc Hf)
    as [w1 [Hdel [Hcm [Hf1 [Ho1 Ht1]]]]].
  assert (Hc1 : conforming hit_schema (rows (hit (committed w1))) = true).
  { rewrite Hcm. unfold without_window. cbn [set_table hit rows].
    now apply conforming_filter. }
  destruct (Days_eq scope w1 Hc1) as [w2 [Hdays1 _]]; [now rewrite Hf1|].
  do 5 eexists. split; [exact Hdays0|]. split; [exact Hdel|].
  split; [exact Hdays1|].
  intro d. rewrite !listed_days_In, Hcm, Ht1. cbn [without_window set_table hit rows].
  split.
  - intros [Hlt [r [Hin [Hsc Hd]]]].
    apply filter_In in Hin as [Hin Hkeep].
    rewrite Hsc, in_window_day, Hd in Hkeep. cbn in Hkeep.
    split; [split; [exact Hlt | exists r; auto]|].
    intros ->. now rewrite Z.eqb_refl in Hkeep.
  - intros [[Hlt [r [Hin [Hsc Hd]]]] Hne].
    split; [exact Hlt|]. exists r. split; [|auto].
    apply filter_In. split; [exact Hin|].
    rewrite Hsc, in_window_day, Hd. cbn.
    now replace (d =? day) with false by (symmetry; now apply Z.eqb_neq).
Qed.

Lemma a_deleted_day_is_no_longer_listed_witness :
  exists before w0 w1 after w2,
    Days (Some 1) three_hits_world = Ret (before, None) w0 /\
    DeleteHitsByDay None (Some 1) (1 * one_day) three_hits_world = Ret None w1 /\
    Days (Some 1) w1 = Ret (after, None) w2 /\
    forall d, In d after <-> In d before /\ d <> 1.
Proof.
  apply (a_deleted_day_is_no_longer_listed (Some 1) 1 three_hits_world);
    reflexivity.
Defined.

(** [SaveHits] on a batch that is not empty, when its statement goes
    through. *)
Lemma SaveHits_ok (hits : list Hit) (w : World) :
  hits <> [] ->
  hd false (faults w) = false ->
  exists w',
    SaveHits hits w = Ret None w' /\
    committed w' = with_hits hits (committed w) /\
    faults w' = tl (faults w) /\ order w' = order w /\ today w' = today w.
Proof.
  intros Hne Hf. unfold SaveHits, DB_Exec, bind.
  pose proof (SaveHits_text_parses hits Hne) as Hparse.
  pose proof (SaveHits_loop_eq hits 0 [] insert_hit_header Hne) as Hloop.
  destruct (SaveHits_loop 0 hits [] insert_hit_header) as [args query].
  injection Hloop as Hargs Hquery. cbn [snd] in Hparse.
  cbn [Datatypes.app] in Hargs.
  rewrite (run_query_eq None _ _ w (committed w)) by reflexivity.
  cbv zeta. rewrite Hf.
  cbn [parse bind_opt]. rewrite Hparse. cbn [bind_opt].
  destruct (insert_hits (today w) (mkBindings args []) hits 0 [] []
              (hit (committed w))) as [Hres Hins].
  { reflexivity. }
  { cbn. rewrite app_nil_r. exact Hargs. }
  unfold execute.
  change (resolve_table "hit") with (Some T_hit).
  cbv iota beta zeta.
  destruct hits as [|h hits]; [congruence|].
  cbn [List.length tuples_from map] in *.
  change (forallb (has_column (schema_of T_hit)) insert_hit_columns) with true.
  cbn [andb]. rewrite Hres.
  change (schema_of T_hit) with hit_schema.
  change (get_table T_hit (committed w)) with (hit (committed w)).
  rewrite Hins. cbn [bind_opt].
  eexists. cbn. repeat split; reflexivity.
Qed.

Lemma conforming_app (s : schema) (a b : list Row) :
  conforming s (a ++ b) = conforming s a && conforming s b.
Proof. apply forallb_app. Qed.

Lemma with_hits_conforming (hits : list Hit) (db : Database) :
  conforming hit_schema (rows (hit db)) = true ->
  conforming hit_schema (rows (hit (with_hits hits db))) = true.
Proof.
  intro Hc. unfold with_hits. cbn [set_table hit rows].
  rewrite conforming_app, Hc. cbn [andb].
  unfold conforming. apply forallb_forall. intros r Hr.
  apply in_map_iff in Hr as [h [<- _]]. apply Hit_row_conforms.
Qed.

(** X8: after [SaveHits], [Days] for a scope lists the days it listed
    before and, of the saved hits of that scope, the days that lie before
    the current date. *)
Theorem saved_hits_are_listed_by_Days (hits : list Hit) (scope : option Z)
  (w : World) :
  hits <> [] ->
  conforming hit_schema (rows (hit (committed w))) = true ->
  faults w = [] ->
  exists before w0 w1 after w2,
    Days scope w = Ret (before, None) w0 /\
    SaveHits hits w = Ret None w1 /\
    Days scope w1 = Ret (after, None) w2 /\
    forall d,
      In d after <->
      In d before \/
      (d < today w /\
       exists h, In h hits /\ in_scope scope (Hit_row h) = true
                 /\ date_of (Hit_Time h) = d).
Proof.
  intros Hne Hc Hf.
  destruct (Days_eq scope w Hc) as [w0 [Hdays0 _]]; [now rewrite Hf|].
  destruct (SaveHits_ok hits w Hne) as [w1 [Hsave [Hcm [Hf1 [Ho1 Ht1]]]]];
    [now rewrite Hf|].
  assert (Hc1 : conforming hit_schema (rows (hit (committed w1))) = true)
    by (rewrite Hcm; now apply with_hits_conforming).
  destruct (Days_eq scope w1 Hc1) as [w2 [Hdays1 _]];
    [now rewrite Hf1, Hf|].
  do 5 eexists. split; [exact Hdays0|]. split; [exact Hsave|].
  split; [exact Hdays1|].
  intro d. rewrite !listed_days_In, Hcm, Ht1.
  cbn [with_hits set_table hit rows]. split.
  - intros [Hlt [r [Hin [Hsc Hd]]]].
    apply in_app_iff in Hin as [Hin|Hin].
    + left. split; [exact Hlt|]. exists r. auto.
    + right. split; [exact Hlt|].
      apply in_map_iff in Hin as [h [<- Hh]]. exists h. auto.
  - intros [[Hlt [r [Hin [Hsc Hd]]]] | [Hlt [h [Hh [Hsc Hd]]]]].
    + split; [exact Hlt|]. exists r. split; [|auto].
      apply in_app_iff. now left.
    + split; [exact Hlt|]. exists (Hit_row h). split; [|auto].
      apply in_app_iff. right. now apply in_map.
Qed.

Lemma saved_hits_are_listed_by_Days_witness :
  exists before w0 w1 after w2,
    Days (Some 1) fresh_world = Ret (before, None) w0 /\
    SaveHits three_hits fresh_world = Ret None w1 /\
    Days (Some 1) w1 = Ret (after, None) w2 /\
    forall d,
      In d after <->
      In d before \/
      (d < today fresh_world /\
       exists h, In h three_hits /\ in_scope (Some 1) (Hit_row h) = true
                 /\ date_of (Hit_Time h) = d).
Proof.
  apply (saved_hits_are_listed_by_Days three_hits (Some 1) fresh_world);
    [discriminate | reflexivity | reflexivity].
Defined.

(** ** Rows and tables a merge leaves alone *)

Lemma get_set_table_other (t t' : table_name) (x : Table) (db : Database) :
  t' <> t -> get_table t' (set_table t x db) = get_table t' db.
Proof. destruct t, t'; intro H; try reflexivity; now destruct H. Qed.

Lemma id_bumped (e : entity) (found r : Row) :
  row_int "id" (bumped e found r) = row_int "id" r.
Proof. unfold bumped. destruct e; other_columns; reflexivity. Qed.

Lemma id_entity_row (e : entity) (id : Z) : row_int "id" (entity_row e id) = id.
Proof. reflexivity. Qed.

Lemma visitors_entity_row (e : entity) (id : Z) :
  row_int "visitors" (entity_row e id) = Visitors (stats_of e).
Proof. destruct e; reflexivity. Qed.

Lemma found_row_no_match (order : list nat) (e : entity) (db : Database) :
  (forall r, In r (rows (get_table (table_of e) db)) -> key_matches e r = false) ->
  found_row order e db = None.
Proof.
  intro H. unfold found_row.
  replace (filter (key_matches e) (rows (get_table (table_of e) db))) with (@nil Row).
  - reflexivity.
  - symmetry. induction (rows (get_table (table_of e) db)) as [|r rs IH];
      [reflexivity|].
    cbn [filter]. rewrite (H r (or_introl eq_refl)).
    apply IH. intros x Hx. apply H. now right.
Qed.

Lemma arrange_one {A} (script : list nat) (x : A) : arrange script [x] = [x].
Proof. cbn. now destruct (hd O script). Qed.

Lemma same_id_same_row (rs : list Row) (r f : Row) :
  NoDup (map (row_int "id") rs) -> In r rs -> In f rs ->
  row_int "id" r = row_int "id" f -> r = f.
Proof.
  induction rs as [|x rs IH]; intros Hnd Hr Hf Heq; [destruct Hr|].
  cbn [map] in Hnd. inversion Hnd as [|? ? Hnot Hnd']; subst.
  destruct Hr as [->|Hr], Hf as [->|Hf]; try reflexivity.
  - exfalso. apply Hnot. rewrite Heq. now apply in_map.
  - exfalso. apply Hnot. rewrite <- Heq. now apply in_map.
  - now apply IH.
Qed.

Lemma serial_updated (e : entity) (found : Row) (db : Database) :
  serial (get_table (table_of e) (updated e found db))
  = serial (get_table (table_of e) db).
Proof. unfold updated. now rewrite get_set_table. Qed.

Lemma serial_inserted (e : entity) (db : Database) :
  serial (get_table (table_of e) (inserted e db))
  = serial (get_table (table_of e) db) + 1.
Proof. unfold inserted. now rewrite get_set_table. Qed.

Lemma merged_ids (order : list nat) (e : entity) (db : Database) :
  ids_below_serial (get_table (table_of e) db) ->
  ids_below_serial (get_table (table_of e) (merged order e db)).
Proof.
  intros [Hnd Hlt]. unfold merged, ids_below_serial.
  destruct (found_row order e db) as [f|].
  - rewrite rows_updated, serial_updated, map_map.
    assert (Hid : forall r,
               row_int "id" (if row_int "id" r =? row_int "id" f
                             then bumped e f r else r) = row_int "id" r).
    { intro r. destruct (_ =? _); [apply id_bumped | reflexivity]. }
    split.
    + now rewrite (map_ext _ _ Hid).
    + apply Forall_map. eapply Forall_impl; [|exact Hlt].
      intros r Hr. cbv beta. now rewrite Hid.
  - rewrite rows_inserted, serial_inserted, map_app. cbn [map].
    rewrite id_entity_row. split.
    + apply (Permutation_NoDup (Permutation_cons_append _ _)).
      constructor; [|exact Hnd].
      intro Hin. apply in_map_iff in Hin as [r [Hr Hin]].
      rewrite Forall_forall in Hlt. specialize (Hlt r Hin). lia.
    + apply Forall_app. split.
      * eapply Forall_impl; [|exact Hlt]. intros r Hr. cbv beta in *. lia.
      * constructor; [|constructor]. rewrite id_entity_row. lia.
Qed.

(** X9: a merge keeps the ids of its table unique and below the next value
    of the sequence: the row it inserts takes the next value, whatever id
    the entity carries, and the row it updates keeps its id. *)
Theorem merges_keep_row_ids_unique (tx : option nat) (e : entity) (w : World)
  (db : Database) :
  target tx w = Some db ->
  conforming (schema_of (table_of e)) (rows (get_table (table_of e) db)) = true ->
  faults w = [] ->
  ids_below_serial (get_table (table_of e) db) ->
  exists w' db',
    Save tx e w = Ret None w' /\ target tx w' = Some db' /\
    ids_below_serial (get_table (table_of e) db').
Proof.
  intros Ht Hc Hf Hids.
  destruct (Save_quiet tx e w db Ht Hc Hf) as [w' [Hrun [Ht' _]]].
  exists w', (merged (order w) e db).
  split; [exact Hrun|]. split; [exact Ht'|]. now apply merged_ids.
Qed.

Lemma merges_keep_row_ids_unique_witness :
  exists w' db',
    Save None page_Home fresh_world = Ret None w' /\
    target None w' = Some db' /\
    ids_below_serial (get_table (table_of page_Home) db').
Proof.
  apply (merges_keep_row_ids_unique None page_Home fresh_world empty_database);
    try reflexivity.
  split; constructor.
Defined.

(** X10: on a table without a row of the key, a merge inserts one row, with
    the fields of the entity and the next id.  A second merge of the same
    key, up to letter case, inserts nothing: it writes to that row, and the
    visitor counter of the row is the sum of the two counts. *)
Theorem first_merge_inserts_second_adds (tx : option nat) (a b : entity)
  (w : World) (db : Database) :
  target tx w = Some db ->
  conforming (schema_of (table_of a)) (rows (get_table (table_of a) db)) = true ->
  faults w = [] ->
  differ_only_in_case a b = true ->
  (forall r, In r (rows (get_table (table_of a) db)) -> key_matches a r = false) ->
  Forall (fun r => row_int "id" r < serial (get_table (table_of a) db))
    (rows (get_table (table_of a) db)) ->
  let new := entity_row a (serial (get_table (table_of a) db)) in
  exists w1 w2 db2,
    Save tx a w = Ret None w1 /\ target tx w1 = Some (inserted a db) /\
    Save tx b w1 = Ret None w2 /\ target tx w2 = Some db2 /\
    rows (get_table (table_of a) db2)
    = rows (get_table (table_of a) db) ++ [bumped b new new] /\
    row_int "visitors" (bumped b new new)
    = int_add (Visitors (stats_of a)) (Visitors (stats_of b)).
Proof.
  intros Ht Hc Hf Hcase Hnone Hlt. cbv zeta.
  destruct (differ_only_in_case_keys a b Hcase) as [Htab _].
  destruct (Save_quiet tx a w db Ht Hc Hf) as [w1 [Hrun1 [Ht1 [Hf1 [Ho1 _]]]]].
  pose proof (merged_conforming (order w) a db Hc) as Hc1.
  unfold merged in Ht1, Hc1.
  rewrite (found_row_no_match (order w) a db Hnone) in Ht1, Hc1.
  rewrite Htab in Hc1 at 1. rewrite Htab in Hc1 at 1.
  destruct (Save_quiet tx b w1 _ Ht1 Hc1 Hf1) as [w2 [Hrun2 [Ht2 _]]].
  set (new := entity_row a (serial (get_table (table_of a) db))) in *.
  assert (Hfound : found_row (order w1) b (inserted a db) = Some new).
  { unfold found_row. rewrite <- Htab, rows_inserted, filter_app.
    replace (filter (key_matches b) (rows (get_table (table_of a) db)))
      with (@nil Row).
    - cbn [filter Datatypes.app]. fold new.
      rewrite (key_matches_case a b new Hcase).
      unfold new. rewrite key_matches_entity_row.
      now rewrite arrange_one.
    - symmetry. clear - Hnone Hcase.
      induction (rows (get_table (table_of a) db)) as [|r rs IH];
        [reflexivity|].
      cbn [filter]. rewrite (key_matches_case a b r Hcase).
      rewrite (Hnone r (or_introl eq_refl)).
      apply IH. intros x Hx. apply Hnone. now right. }
  unfold merged in Ht2. rewrite Hfound in Ht2.
  exists w1, w2, (updated b new (inserted a db)).
  split; [exact Hrun1|]. split; [exact Ht1|]. split; [exact Hrun2|].
  split; [exact Ht2|]. split.
  - rewrite Htab, rows_updated, <- Htab, rows_inserted, map_app. fold new.
    cbn [map]. rewrite Z.eqb_refl. f_equal.
    rewrite <- (map_id (rows (get_table (table_of a) db))) at 2.
    apply map_ext_in. intros r Hr.
    rewrite Forall_forall in Hlt. specialize (Hlt r Hr).
    unfold new. rewrite id_entity_row.
    now replace (row_int "id" r =? serial (get_table (table_of a) db))
      with false by (symmetry; apply Z.eqb_neq; lia).
  - rewrite visitors_bumped.
    + unfold new. now rewrite visitors_entity_row.
    + rewrite <- Htab. apply entity_row_conforms.
Qed.

Lemma first_merge_inserts_second_adds_witness :
  let new := entity_row page_Home 1 in
  exists w1 w2 db2,
    Save None page_Home fresh_world = Ret None w1 /\
    target None w1 = Some (inserted page_Home empty_database) /\
    Save None page_home w1 = Ret None w2 /\ target None w2 = Some db2 /\
    rows (get_table T_visitor_stats db2) = [] ++ [bumped page_home new new] /\
    row_int "visitors" (bumped page_home new new) = int_add 3 4.
Proof.
  apply (first_merge_inserts_second_adds None page_Home page_home fresh_world
           empty_database); try reflexivity.
  - intros r [].
  - constructor.
Defined.

(** X11: with unique ids, a merge leaves every row that its lookup does not
    match as it was and where it was.  So a merge for a tenant leaves alone
    the rows of every other tenant and the rows without tenant. *)
Theorem a_merge_leaves_other_rows_alone (tx : option nat) (e : entity)
  (w : World) (db : Database) :
  target tx w = Some db ->
  conforming (schema_of (table_of e)) (rows (get_table (table_of e) db)) = true ->
  faults w = [] ->
  NoDup (map (row_int "id") (rows (get_table (table_of e) db))) ->
  exists w' db',
    Save tx e w = Ret None w' /\ target tx w' = Some db' /\
    (forall i r,
        nth_error (rows (get_table (table_of e) db)) i = Some r ->
        key_matches e r = false ->
        nth_error (rows (get_table (table_of e) db')) i = Some r) /\
    (forall t i r,
        TenantID (stats_of e) = Some t ->
        nth_error (rows (get_table (table_of e) db)) i = Some r ->
        row_opt_int "tenant_id" r <> Some t ->
        nth_error (rows (get_table (table_of e) db')) i = Some r).
Proof.
  intros Ht Hc Hf Hnd.
  destruct (Save_quiet tx e w db Ht Hc Hf) as [w' [Hrun [Ht' _]]].
  exists w', (merged (order w) e db).
  split; [exact Hrun|]. split; [exact Ht'|].
  assert (Hkeep : forall i r,
             nth_error (rows (get_table (table_of e) db)) i = Some r ->
             key_matches e r = false ->
             nth_error (rows (get_table (table_of e) (merged (order w) e db))) i
             = Some r).
  { intros i r Hi Hother. unfold merged.
    destruct (found_row (order w) e db) as [f|] eqn:E.
    - apply found_row_Some in E as [Hfin Hk].
      rewrite rows_updated, nth_error_map, Hi. cbn [option_map].
      destruct (row_int "id" r =? row_int "id" f) eqn:Eid; [|reflexivity].
      apply Z.eqb_eq in Eid.
      rewrite (same_id_same_row _ r f Hnd (nth_error_In _ _ Hi) Hfin Eid)
        in Hother.
      congruence.
    - rewrite rows_inserted, nth_error_app1; [exact Hi|].
      apply nth_error_Some. now rewrite Hi. }
  split; [exact Hkeep|].
  intros t i r Hten Hi Hother. apply (Hkeep i r Hi).
  unfold key_matches, in_scope. rewrite Hten.
  destruct (row_opt_int "tenant_id" r) as [n|]; [|reflexivity].
  replace (n =? t) with false; [reflexivity|].
  symmetry. apply Z.eqb_neq. congruence.
Qed.

Lemma a_merge_leaves_other_rows_alone_witness :
  let e := PerLanguage (mkLanguageStats (mkStats 0 (Some 2) 19723 "/a" 1) "en") in
  exists w' db',
    Save (Some 0%nat) e (joined_world []) = Ret None w' /\
    target (Some 0%nat) w' = Some db' /\
    (forall i r,
        nth_error (rows (get_table T_language_stats english_database)) i = Some r ->
        key_matches e r = false ->
        nth_error (rows (get_table T_language_stats db')) i = Some r) /\
    (forall t i r,
        TenantID (stats_of e) = Some t ->
        nth_error (rows (get_table T_language_stats english_database)) i = Some r ->
        row_opt_int "tenant_id" r <> Some t ->
        nth_error (rows (get_table T_language_stats db')) i = Some r).
Proof.
  apply (a_merge_leaves_other_rows_alone (Some 0%nat)
           (PerLanguage (mkLanguageStats (mkStats 0 (Some 2) 19723 "/a" 1) "en"))
           (joined_world []) english_database);
    try reflexivity.
  repeat constructor. intros [].
Defined.

(** X12: the lookup of a merge without tenant matches the rows of every
    tenant.  When some row has the day, the path and the dimension key of
    the entity, whatever its tenant, the merge inserts no row: it updates a
    row that is in the table. *)
Theorem a_merge_without_tenant_lands_on_any_tenant (tx : option nat)
  (e : entity) (w : World) (db : Database) (r : Row) :
  target tx w = Some db ->
  conforming (schema_of (table_of e)) (rows (get_table (table_of e) db)) = true ->
  faults w = [] ->
  TenantID (stats_of e) = None ->
  In r (rows (get_table (table_of e) db)) ->
  row_date "day" r = Day (stats_of e) ->
  lower (row_text "path" r) = lower (Path (stats_of e)) ->
  row_own_key (table_of e) r = own_key e ->
  exists w' f,
    Save tx e w = Ret None w' /\
    In f (rows (get_table (table_of e) db)) /\
    target tx w' = Some (updated e f db) /\
    List.length (rows (get_table (table_of e) (updated e f db)))
    = List.length (rows (get_table (table_of e) db)).
Proof.
  intros Ht Hc Hf Hten Hr Hday Hpath Hown.
  destruct (Save_quiet tx e w db Ht Hc Hf) as [w' [Hrun [Ht' _]]].
  assert (Hk : key_matches e r = true).
  { unfold key_matches. rewrite Hten, Hday, Hpath, Hown. cbn [in_scope andb].
    rewrite Z.eqb_refl, String.eqb_refl. cbn [andb].
    now apply values_eqb_eq. }
  destruct (found_row_exists (order w) e db r Hr Hk) as [f Hfound].
  unfold merged in Ht'. rewrite Hfound in Ht'.
  exists w', f. split; [exact Hrun|].
  split; [exact (proj1 (found_row_Some _ _ _ _ Hfound))|].
  split; [exact Ht'|]. now rewrite rows_updated, length_map.
Qed.

Lemma a_merge_without_tenant_lands_on_any_tenant_witness :
  let e := PerLanguage (mkLanguageStats (mkStats 0 None 19723 "/A" 2) "EN") in
  exists w' f,
    Save (Some 0%nat) e (joined_world []) = Ret None w' /\
    In f (rows (get_table T_language_stats english_database)) /\
    target (Some 0%nat) w' = Some (updated e f english_database) /\
    List.length (rows (get_table T_language_stats (updated e f english_database)))
    = 1%nat.
Proof.
  apply (a_merge_without_tenant_lands_on_any_tenant (Some 0%nat)
           (PerLanguage (mkLanguageStats (mkStats 0 None 19723 "/A" 2) "EN"))
           (joined_world []) english_database (english_row 1 1));
    try reflexivity.
  now left.
Defined.

(** X13: a merge inside a transaction writes to the table of its dimension
    only: whatever the engine does, every other table is, in the view of the
    transaction, what it was. *)
Theorem a_merge_writes_one_table (tx : nat) (e : entity) (w : World)
  (db : Database) :
  view_of tx (open_txs w) = Some db ->
  conforming (schema_of (table_of e)) (rows (get_table (table_of e) db)) = true ->
  exists err w' db',
    Save (Some tx) e w = Ret err w' /\
    view_of tx (open_txs w') = Some db' /\
    forall t, t <> table_of e -> get_table t db' = get_table t db.
Proof.
  intros Hv Hc. do 3 eexists.
  split; [exact (Save_joined_world tx w db Hv e Hc)|].
  split; [exact (view_after_merge tx w db Hv e)|].
  intros t Ht. destruct (hd false (tl (faults w))); [reflexivity|].
  unfold merge_result, updated, inserted.
  destruct (looked_up e w db); now apply get_set_table_other.
Qed.

Lemma a_merge_writes_one_table_witness :
  exists err w' db',
    Save (Some 0%nat) (PerLanguage (english 1)) (joined_world [false; true])
    = Ret err w' /\
    view_of 0 (open_txs w') = Some db' /\
    forall t, t <> T_language_stats -> get_table t db' = get_table t english_database.
Proof.
  apply (a_merge_writes_one_table 0 (PerLanguage (english 1))
           (joined_world [false; true]) english_database); reflexivity.
Defined.

(** X14: when the insert of a merge goes through and its rows cannot be
    closed, the merge logs the failure and returns [nil]; the inserted row
    stays. *)
Theorem a_failed_close_is_only_logged (tx : nat) (e : entity) (w : World)
  (db : Database) :
  view_of tx (open_txs w) = Some db ->
  conforming (schema_of (table_of e)) (rows (get_table (table_of e) db)) = true ->
  looked_up e w db = None ->
  nth 1 (faults w) false = false ->
  nth 2 (faults w) false = true ->
  exists w',
    Save (Some tx) e w = Ret None w' /\
    view_of tx (open_txs w') = Some (inserted e db) /\
    logged w' = logged w ++ ["error closing rows: driver: bad connection"].
Proof.
  intros Hv Hc Hl H1 H2.
  assert (H1' : hd false (tl (faults w)) = false)
    by (rewrite <- H1; destruct (faults w) as [|? [|? ?]]; reflexivity).
  assert (H2' : hd false (tl (tl (faults w))) = true)
    by (rewrite <- H2; destruct (faults w) as [|? [|? [|? ?]]]; reflexivity).
  exists (after_merge e tx w db).
  split; [|split].
  - rewrite (Save_joined_world tx w db Hv e Hc). now rewrite H1'.
  - rewrite (view_after_merge tx w db Hv e), H1'.
    unfold merge_result. now rewrite Hl.
  - unfold after_merge. rewrite Hl. cbv zeta. cbn [faults stepped install].
    rewrite H1', H2'. reflexivity.
Qed.

Lemma a_failed_close_is_only_logged_witness :
  let e := PerLanguage (english 1) in
  let w := joined_world [true; false; true] in
  exists w',
    Save (Some 0%nat) e w = Ret None w' /\
    view_of 0 (open_txs w') = Some (inserted e english_database) /\
    logged w' = ["error closing rows: driver: bad connection"].
Proof.
  apply (a_failed_close_is_only_logged 0 (PerLanguage (english 1))
           (joined_world [true; false; true]) english_database); reflexivity.
Defined.

(** X15: with unique ids and a delta that is not negative and keeps every
    sum within the range of [int], a merge lowers the visitor counter of no
    row of its table. *)
Theorem Save_never_lowers_visitors (tx : option nat) (e : entity) (w : World)
  (db : Database) :
  target tx w = Some db ->
  conforming (schema_of (table_of e)) (rows (get_table (table_of e) db)) = true ->
  faults w = [] ->
  NoDup (map (row_int "id") (rows (get_table (table_of e) db))) ->
  0 <= Visitors (stats_of e) ->
  (forall r, In r (rows (get_table (table_of e) db)) ->
             - 2 ^ 63 <= row_int "visitors" r
             /\ row_int "visitors" r + Visitors (stats_of e) < 2 ^ 63) ->
  exists w' db',
    Save tx e w = Ret None w' /\ target tx w' = Some db' /\
    Forall2 (fun r r' => row_int "visitors" r <= row_int "visitors" r')
      (rows (get_table (table_of e) db))
      (firstn (List.length (rows (get_table (table_of e) db)))
         (rows (get_table (table_of e) db'))).
Proof.
  intros Ht Hc Hf Hnd Hpos Hrange.
  destruct (Save_quiet tx e w db Ht Hc Hf) as [w' [Hrun [Ht' _]]].
  exists w', (merged (order w) e db).
  split; [exact Hrun|]. split; [exact Ht'|].
  now apply merged_visitors_grow.
Qed.

Lemma Save_never_lowers_visitors_witness :
  exists w' db',
    Save (Some 0%nat) (PerLanguage (english 5)) (joined_world []) = Ret None w' /\
    target (Some 0%nat) w' = Some db' /\
    Forall2 (fun r r' => row_int "visitors" r <= row_int "visitors" r')
      (rows (get_table T_language_stats english_database))
      (firstn 1 (rows (get_table T_language_stats db'))).
Proof.
  apply (Save_never_lowers_visitors (Some 0%nat) (PerLanguage (english 5))
           (joined_world []) english_database); try reflexivity.
  - repeat constructor. intros [].
  - cbn. lia.
  - intros r [<-|[]]. cbn. lia.
Defined.

(** ** Units of work *)

Lemma merged_other_table (order : list nat) (e : entity) (db : Database)
  (t : table_name) :
  t <> table_of e -> get_table t (merged order e db) = get_table t db.
Proof.
  intro Ht. unfold merged, updated, inserted.
  destruct (found_row order e db); now apply get_set_table_other.
Qed.

Lemma merged_conforming_table (order : list nat) (e : entity) (db : Database)
  (t : table_name) :
  conforming (schema_of (table_of e)) (rows (get_table (table_of e) db)) = true ->
  conforming (schema_of t) (rows (get_table t db)) = true ->
  conforming (schema_of t) (rows (get_table t (merged order e db))) = true.
Proof.
  intros He Ht. destruct (table_name_eq_dec t (table_of e)) as [->|Hne].
  - now apply merged_conforming.
  - now rewrite merged_other_table.
Qed.

(** X16: [NewTx], two merges inside the transaction, then [Commit], on an
    engine without faults: both merges return [nil], the committed state is
    the result of the two merges in turn, the transaction is closed. *)
Theorem unit_of_work_commit (a b : entity) (w : World) :
  conforming (schema_of (table_of a))
    (rows (get_table (table_of a) (committed w))) = true ->
  conforming (schema_of (table_of b))
    (rows (get_table (table_of b) (committed w))) = true ->
  faults w = [] ->
  exists w',
    (tx <- NewTx ;;
     ea <- Save (Some tx) a ;;
     eb <- Save (Some tx) b ;;
     _ <- Commit tx ;;
     ret (ea, eb)) w = Ret (None, None) w' /\
    committed w' = merged (order w) b (merged (order w) a (committed w)) /\
    view_of (next_tx w) (open_txs w') = None.
Proof.
  intros Ha Hb Hf. unfold bind at 1.
  rewrite (NewTx_ok w) by (now rewrite Hf).
  assert (Hv : target (Some (next_tx w)) (begun w) = Some (committed w))
    by (cbn; now rewrite Nat.eqb_refl).
  assert (Hf0 : faults (begun w) = []) by (cbn; now rewrite Hf).
  destruct (Save_quiet _ a _ _ Hv Ha Hf0) as [w1 [Hrun1 [Hv1 [Hf1 [Ho1 _]]]]].
  cbn [begun order] in Hv1.
  pose proof (merged_conforming_table (order w) a (committed w) (table_of b) Ha Hb)
    as Hb1.
  destruct (Save_quiet _ b _ _ Hv1 Hb1 Hf1) as [w2 [Hrun2 [Hv2 [Hf2 _]]]].
  rewrite Ho1 in Hv2. cbn [begun order] in Hv2.
  unfold bind. rewrite Hrun1, Hrun2.
  rewrite (Commit_eq _ _ _ Hv2). eexists. split; [reflexivity|].
  unfold committing. cbv zeta. rewrite Hf2. cbn [hd].
  split.
  - cbn. cbn in Hv2. now rewrite Hv2.
  - cbn. apply view_of_close_view.
Qed.

Lemma unit_of_work_commit_witness :
  exists w',
    (tx <- NewTx ;;
     ea <- Save (Some tx) page_Home ;;
     eb <- Save (Some tx) (PerLanguage (english 1)) ;;
     _ <- Commit tx ;;
     ret (ea, eb)) fresh_world = Ret (None, None) w' /\
    committed w'
    = merged [] (PerLanguage (english 1)) (merged [] page_Home empty_database) /\
    view_of 0 (open_txs w') = None.
Proof.
  apply (unit_of_work_commit page_Home (PerLanguage (english 1)) fresh_world);
    reflexivity.
Defined.

(** X17: [NewTx], a merge and a delete inside the transaction, then
    [Rollback]: whatever the engine does after the begin, the program
    returns, the committed state is what it was before the begin, the
    transaction is closed and every other transaction sees what it saw. *)
Theorem unit_of_work_rollback (e : entity) (tenantID : option Z) (day : Z)
  (w : World) :
  hd false (faults w) = false ->
  exists r w',
    (tx <- NewTx ;;
     es <- Save (Some tx) e ;;
     ed <- DeleteHitsByDay (Some tx) tenantID day ;;
     _ <- Rollback tx ;;
     ret (es, ed)) w = Ret r w' /\
    committed w' = committed w /\
    view_of (next_tx w) (open_txs w') = None /\
    (forall h, h <> next_tx w ->
               view_of h (open_txs w') = view_of h (open_txs w)).
Proof.
  intro Hf. unfold bind at 1. rewrite (NewTx_ok w Hf).
  destruct (stays_Save (next_tx w) e (begun w)) as [es [w1 [Hrun1 Hin1]]].
  destruct (stays_DeleteHitsByDay (next_tx w) tenantID day w1)
    as [ed [w2 [Hrun2 Hin2]]].
  pose proof (inside_trans _ _ _ _ Hin1 Hin2) as [Hc [_ [Hk [Hviews _]]]].
  destruct (view_of_In (next_tx w) (open_txs w2)) as [db Hv].
  { rewrite Hk. cbn. now left. }
  unfold bind. rewrite Hrun1, Hrun2, (Rollback_eq _ _ _ Hv).
  do 2 eexists. split; [reflexivity|].
  unfold rolling_back. cbv zeta.
  split; [|split].
  - destruct (hd false (faults w2)); cbn; exact Hc.
  - destruct (hd false (faults w2)); cbn; apply view_of_close_view.
  - intros h Hh.
    assert (Hgoal : view_of h (close_view (next_tx w) (open_txs w2))
                    = view_of h (open_txs w)).
    { rewrite view_of_close_view_other by exact Hh. rewrite (Hviews h Hh).
      cbn [begun open_txs view_of].
      now replace (Nat.eqb h (next_tx w)) with false
        by (symmetry; now apply Nat.eqb_neq). }
    destruct (hd false (faults w2)); cbn; exact Hgoal.
Qed.

Lemma unit_of_work_rollback_witness :
  exists r w',
    (tx <- NewTx ;;
     es <- Save (Some tx) page_Home ;;
     ed <- DeleteHitsByDay (Some tx) None one_day ;;
     _ <- Rollback tx ;;
     ret (es, ed)) three_hits_world = Ret r w' /\
    committed w' = committed three_hits_world /\
    view_of 0 (open_txs w') = None /\
    (forall h, h <> 0%nat ->
               view_of h (open_txs w') = view_of h (open_txs three_hits_world)).
Proof.
  apply (unit_of_work_rollback page_Home None one_day three_hits_world).
  reflexivity.
Defined.

Lemma untouched_refl (w : World) : untouched w w.
Proof. repeat split. Qed.

Lemma untouched_trans (w1 w2 w3 : World) :
  untouched w1 w2 -> untouched w2 w3 -> untouched w1 w3.
Proof.
  intros [? [? [? [? ?]]]] [? [? [? [? ?]]]]. repeat split; congruence.
Qed.

(** A statement on a transaction that is not open does not reach the
    engine. *)
Lemma run_query_done (tx : nat) (q : query) (b : bindings) (w : World) :
  view_of tx (open_txs w) = None ->
  exists w',
    run_query (Some tx) q b w = Ret (no_result, Some ErrTxDone) w' /\
    untouched w w'.
Proof.
  intro Hv. unfold run_query, bind, emit. cbn [target open_txs]. rewrite Hv.
  eexists. split; [reflexivity|]. repeat split.
Qed.

Lemma Tx_Exec_done (tx : nat) (q : query) (args : list value) (w : World) :
  view_of tx (open_txs w) = None ->
  exists w', Tx_Exec tx q args w = Ret (Some ErrTxDone) w' /\ untouched w w'.
Proof.
  intro Hv. destruct (run_query_done tx q (mkBindings args []) w Hv)
    as [w' [Hrun Hu]].
  exists w'. unfold Tx_Exec, bind. now rewrite Hrun.
Qed.

Lemma Tx_NamedQuery_done (tx : nat) (q : query) (fields : list (string * value))
  (w : World) :
  view_of tx (open_txs w) = None ->
  exists w',
    Tx_NamedQuery tx q fields w = Ret (tt, Some ErrTxDone) w' /\ untouched w w'.
Proof.
  intro Hv. destruct (run_query_done tx q (mkBindings [] fields) w Hv)
    as [w' [Hrun Hu]].
  exists w'. unfold Tx_NamedQuery, bind. now rewrite Hrun.
Qed.

Lemma Tx_Get_done (tx : nat) {E} (scan : string -> value -> E -> option E)
  (dest : E) (q : query) (args : list value) (w : World) :
  view_of tx (open_txs w) = None ->
  exists w',
    Tx_Get scan tx dest q args w = Ret (dest, Some ErrTxDone) w' /\
    untouched w w'.
Proof.
  intro Hv. destruct (run_query_done tx q (mkBindings args []) w Hv)
    as [w' [Hrun Hu]].
  exists w'. unfold Tx_Get, bind. now rewrite Hrun.
Qed.

Ltac merge_done Hv :=
  cbn [with_tx]; unfold bind at 1;
  match goal with
  | |- context [Tx_Get ?scan ?tx ?dest ?q ?args ?w] =>
      let w1 := fresh "w1" in
      let Hrun := fresh "Hrun" in
      let Hu := fresh "Hu" in
      destruct (Tx_Get_done tx scan dest q args w Hv) as [w1 [Hrun Hu]];
      rewrite Hrun; cbv beta iota;
      unfold createUpdateEntity, is_nil; cbv beta iota; unfold bind;
      match goal with
      | |- context [Tx_NamedQuery tx ?q' ?f w1] =>
          let w2 := fresh "w2" in
          let Hrun2 := fresh "Hrun" in
          let Hu2 := fresh "Hu" in
          destruct (Tx_NamedQuery_done tx q' f w1) as [w2 [Hrun2 Hu2]];
          [ destruct Hu as [_ [Ho _]]; now rewrite Ho
          | rewrite Hrun2; exists w2; split;
            [ reflexivity | exact (untouched_trans _ _ _ Hu Hu2) ] ]
      end
  end.

Lemma Save_done (tx : nat) (e : entity) (w : World) :
  view_of tx (open_txs w) = None ->
  exists w', Save (Some tx) e w = Ret (Some ErrTxDone) w' /\ untouched w w'.
Proof.
  intro Hv. destruct e as [e|e|e|e|e|e]; unfold Save.
  - unfold SaveVisitorStats. merge_done Hv.
  - unfold SaveVisitorTimeStats. merge_done Hv.
  - unfold SaveLanguageStats. merge_done Hv.
  - unfold SaveReferrerStats. merge_done Hv.
  - unfold SaveOSStats. merge_done Hv.
  - unfold SaveBrowserStats. merge_done Hv.
Qed.

Lemma DeleteHitsByDay_done (tx : nat) (tenantID : option Z) (day : Z)
  (w : World) :
  view_of tx (open_txs w) = None ->
  exists w',
    DeleteHitsByDay (Some tx) tenantID day w = Ret (Some ErrTxDone) w' /\
    untouched w w'.
Proof.
  intro Hv. unfold DeleteHitsByDay. cbn [with_tx]. unfold bind.
  match goal with
  | |- context [Tx_Exec tx ?q ?a w] =>
      destruct (Tx_Exec_done tx q a w Hv) as [w' [Hrun Hu]]
  end.
  rewrite Hrun. now exists w'.
Qed.

(** X18: on a transaction that is not open (committed, rolled back or never
    begun) each of the six merges and [DeleteHitsByDay] returns
    [sql.ErrTxDone]; the engine is not reached and nothing but the trace
    changes. *)
Theorem calls_on_a_finished_transaction_fail (tx : nat) (e : entity)
  (tenantID : option Z) (day : Z) (w : World) :
  view_of tx (open_txs w) = None ->
  (exists w', Save (Some tx) e w = Ret (Some ErrTxDone) w' /\ untouched w w') /\
  (exists w',
      DeleteHitsByDay (Some tx) tenantID day w = Ret (Some ErrTxDone) w'
      /\ untouched w w').
Proof.
  intro Hv. split; [now apply Save_done | now apply DeleteHitsByDay_done].
Qed.

Lemma calls_on_a_finished_transaction_fail_witness :
  (exists w',
      Save (Some 7%nat) page_Home fresh_world = Ret (Some ErrTxDone) w'
      /\ untouched fresh_world w') /\
  (exists w',
      DeleteHitsByDay (Some 7%nat) None 0 fresh_world = Ret (Some ErrTxDone) w'
      /\ untouched fresh_world w').
Proof.
  apply (calls_on_a_finished_transaction_fail 7 page_Home None 0 fresh_world).
  reflexivity.
Defined.

(** X19: [Commit] on an open transaction returns nothing to the caller and
    closes the transaction, whether the engine fails the commit or not; a
    failure is a line in the log.  A second [Commit], or a [Rollback], after
    that changes nothing and logs that the transaction is done; a merge on
    it returns [sql.ErrTxDone]. *)
Theorem a_transaction_ends_once (tx : nat) (w : World) (db : Database) :
  view_of tx (open_txs w) = Some db ->
  exists w1,
    Commit tx w = Ret tt w1 /\
    view_of tx (open_txs w1) = None /\
    trace w1 = trace w ++ [CommitTx tx] /\
    logged w1 =
      logged w ++
      (if hd false (faults w)
       then ["error committing transaction: driver: bad connection"] else []) /\
    (exists w2,
        Commit tx w1 = Ret tt w2 /\ committed w2 = committed w1 /\
        faults w2 = faults w1 /\
        logged w2 = logged w1 ++ ["error committing transaction: sql: transaction has already been committed or rolled back"]) /\
    (exists w2,
        Rollback tx w1 = Ret tt w2 /\ committed w2 = committed w1 /\
        faults w2 = faults w1 /\
        logged w2 = logged w1 ++ ["error rolling back transaction: sql: transaction has already been committed or rolled back"]) /\
    (forall e, exists w2,
        Save (Some tx) e w1 = Ret (Some ErrTxDone) w2 /\ untouched w1 w2).
Proof.
  intro Hv. exists (committing tx w).
  split; [exact (Commit_eq tx w db Hv)|].
  assert (Hdone : view_of tx (open_txs (committing tx w)) = None)
    by (rewrite open_txs_committing; apply view_of_close_view).
  split; [exact Hdone|]. split; [apply trace_committing|].
  split; [|split; [|split]].
  - unfold committing. cbv zeta. destruct (hd false (faults w)); cbn;
      [reflexivity | now rewrite app_nil_r].
  - unfold Commit, Tx_Commit, bind, emit. cbn -[committing].
    rewrite Hdone. eexists. split; [reflexivity|]. repeat split.
  - unfold Rollback, Tx_Rollback, bind, emit. cbn -[committing].
    rewrite Hdone. eexists. split; [reflexivity|]. repeat split.
  - intro e. now apply Save_done.
Qed.

Lemma a_transaction_ends_once_witness :
  let w := joined_world [true] in
  exists w1,
    Commit 0 w = Ret tt w1 /\
    view_of 0 (open_txs w1) = None /\
    trace w1 = [CommitTx 0] /\
    logged w1 = ["error committing transaction: driver: bad connection"] /\
    (exists w2,
        Commit 0 w1 = Ret tt w2 /\ committed w2 = committed w1 /\
        faults w2 = faults w1 /\
        logged w2 = logged w1 ++ ["error committing transaction: sql: transaction has already been committed or rolled back"]) /\
    (exists w2,
        Rollback 0 w1 = Ret tt w2 /\ committed w2 = committed w1 /\
        faults w2 = faults w1 /\
        logged w2 = logged w1 ++ ["error rolling back transaction: sql: transaction has already been committed or rolled back"]) /\
    (forall e, exists w2,
        Save (Some 0%nat) e w1 = Ret (Some ErrTxDone) w2 /\ untouched w1 w2).
Proof.
  apply (a_transaction_ends_once 0 (joined_world [true]) english_database).
  reflexivity.
Defined.

(** ** Reading, and the text of [SaveHits] *)

(** A SELECT leaves the database as it is. *)
Lemma execute_select_keeps (today : Z) (order : list nat) (b : bindings)
  (distinct : bool) (proj : list expr) (from : string) (where_ : expr)
  (db db' : Database) (res : result_set) :
  execute today order b (SELECT distinct proj from where_) db = Some (db', res) ->
  db' = db.
Proof.
  unfold execute. destruct (resolve_table from) as [t|]; [|discriminate].
  cbv zeta. destruct (_ && _)%bool; [|discriminate].
  destruct (select_rows _ _) as [kept|]; [|discriminate]. cbn [bind_opt].
  destruct (map_opt _ kept) as [out|]; [|discriminate]. cbn [bind_opt].
  now intros [= <- _].
Qed.

(** X20: [Days] reads only.  In every world it makes one call, a statement
    on the pool; the committed state, the open transactions and the log are
    what they were.  With an error the list it returns is empty, and a call
    the engine fails is an error. *)
Theorem Days_only_reads (tenantID : option Z) (w : World) :
  exists days err w' q b,
    Days tenantID w = Ret (days, err) w' /\
    committed w' = committed w /\
    open_txs w' = open_txs w /\
    next_tx w' = next_tx w /\
    logged w' = logged w /\
    trace w' = trace w ++ [Statement None q b] /\
    (err <> None -> days = []) /\
    (hd false (faults w) = true -> err = Some ErrBadConn).
Proof.
  unfold Days, DB_Select, bind.
  rewrite (run_query_eq None _ _ w (committed w)) by reflexivity.
  cbv zeta. destruct (hd false (faults w)).
  - do 5 eexists. split; [reflexivity|]. cbn. repeat split; try reflexivity.
  - cbn [parse bind_opt].
    destruct (execute _ _ _ _ _) as [[db' res]|] eqn:E.
    + apply execute_select_keeps in E. subst db'.
      destruct (map_opt (scan_single scan_day) (tuples res)) as [out|].
      * do 5 eexists. split; [reflexivity|]. cbn.
        repeat split; try reflexivity; [congruence | discriminate].
      * do 5 eexists. split; [reflexivity|]. cbn.
        repeat split; try reflexivity. discriminate.
    + do 5 eexists. split; [reflexivity|]. cbn.
      repeat split; try reflexivity. discriminate.
Qed.

(** X21: [Paths] returns no path and an error for every tenant, every day
    and every world: the failure of the engine when the call fails, the
    rejection of the statement otherwise.  It writes nothing. *)
Theorem Paths_fails_for_every_input (tenantID : option Z) (day : Z) (w : World) :
  exists w' q b,
    Paths tenantID day w
    = Ret ([], Some (if hd false (faults w) then ErrBadConn else ErrSQL)) w' /\
    committed w' = committed w /\
    open_txs w' = open_txs w /\
    trace w' = trace w ++ [Statement None q b].
Proof.
  unfold Paths, DB_Select, bind.
  rewrite (run_query_eq None _ _ w (committed w)) by reflexivity.
  cbv zeta.
  destruct (hd false (faults w)).
  - do 3 eexists. split; [reflexivity|]. cbn. repeat split; reflexivity.
  - destruct tenantID; cbn; do 3 eexists; (split; [reflexivity|]);
      repeat split; reflexivity.
Qed.

Lemma map_add_seq (a s l : nat) :
  map (fun k => (a + k)%nat) (seq s l) = seq (a + s) l.
Proof.
  revert s. induction l as [|l IH]; intro s; [reflexivity|].
  cbn [seq map]. rewrite IH. do 2 f_equal. lia.
Qed.

Lemma concat_tuples_from (n i : nat) :
  List.concat (tuples_from i n) = seq (i * 14 + 1) (14 * n).
Proof.
  revert i. induction n as [|n IH]; intro i.
  - now rewrite Nat.mul_0_r.
  - cbn [tuples_from List.concat]. rewrite IH. unfold placeholders.
    rewrite map_add_seq.
    replace (14 * S n)%nat with (14 + 14 * n)%nat by lia.
    rewrite seq_app. do 2 f_equal. lia.
Qed.

Lemma length_tuples_from (n i : nat) : List.length (tuples_from i n) = n.
Proof.
  revert i. induction n as [|n IH]; intro i; [reflexivity|].
  cbn [tuples_from List.length]. now rewrite IH.
Qed.

Lemma tuples_from_fourteen (n i : nat) :
  Forall (fun t => List.length t = 14%nat) (tuples_from i n).
Proof.
  revert i. induction n as [|n IH]; intro i; constructor; [reflexivity|].
  apply IH.
Qed.

Lemma length_flat_map_Hit_args (hits : list Hit) :
  List.length (flat_map Hit_args hits) = (14 * List.length hits)%nat.
Proof.
  induction hits as [|h hits IH]; [reflexivity|].
  cbn [flat_map]. rewrite length_app, IH. cbn [Hit_args List.length]. lia.
Qed.

(** X22: for a batch of [n >= 1] hits, the text [SaveHits] sends is the
    INSERT with [n] tuples of fourteen placeholders each, numbered from [$1]
    to [$14n] in order, and its arguments are the fourteen fields of each
    hit in order, [14n] in all. *)
Theorem SaveHits_numbers_its_placeholders (hits : list Hit) :
  hits <> [] ->
  let built := SaveHits_loop 0 hits [] insert_hit_header in
  exists tuples,
    parse_sql (drop_last (snd built))
    = Some (INSERT "hit" insert_hit_columns (map (map Param) tuples)) /\
    List.length tuples = List.length hits /\
    Forall (fun t => List.length t = 14%nat) tuples /\
    List.concat tuples = seq 1 (14 * List.length hits) /\
    fst built = flat_map Hit_args hits /\
    List.length (fst built) = (14 * List.length hits)%nat.
Proof.
  intro Hne. cbv zeta. exists (tuples_from 0 (List.length hits)).
  split; [exact (SaveHits_text_parses hits Hne)|].
  split; [apply length_tuples_from|].
  split; [apply tuples_from_fourteen|].
  split; [apply concat_tuples_from|].
  rewrite (SaveHits_loop_eq hits 0 [] insert_hit_header Hne). cbn [fst].
  split; [reflexivity | apply length_flat_map_Hit_args].
Qed.

Lemma SaveHits_numbers_its_placeholders_witness :
  let built := SaveHits_loop 0 three_hits [] insert_hit_header in
  exists tuples,
    parse_sql (drop_last (snd built))
    = Some (INSERT "hit" insert_hit_columns (map (map Param) tuples)) /\
    List.length tuples = 3%nat /\
    Forall (fun t => List.length t = 14%nat) tuples /\
    List.concat tuples = seq 1 42 /\
    fst built = flat_map Hit_args three_hits /\
    List.length (fst built) = 42%nat.
Proof.
  apply (SaveHits_numbers_its_placeholders three_hits). discriminate.
Defined.

(** ** The platform counters under an update *)

(** What the update of [SaveVisitorStats] leaves in the three platform
    counters of a row: the deltas of the entity. *)
Lemma platform_bumped (e : VisitorStats) (found r : Row) :
  row_conforms visitor_stats_schema r = true ->
  row_int "platform_desktop" (bumped (PerPage e) found r)
  = int_add 0 (PlatformDesktop e) /\
  row_int "platform_mobile" (bumped (PerPage e) found r)
  = int_add 0 (PlatformMobile e) /\
  row_int "platform_unknown" (bumped (PerPage e) found r)
  = int_add 0 (PlatformUnknown e).
Proof.
  intro Hc.
  pose proof (row_get_int visitor_stats_schema r Hc "platform_desktop" eq_refl)
    as Hd.
  pose proof (row_get_int visitor_stats_schema r Hc "platform_mobile" eq_refl)
    as Hm.
  pose proof (row_get_int visitor_stats_schema r Hc "platform_unknown" eq_refl)
    as Hu.
  unfold bumped, row_int. repeat split.
  - rewrite !(row_get_set_other "platform_desktop") by discriminate.
    erewrite row_get_set_same; [reflexivity|].
    rewrite row_get_set_other by discriminate. exact Hd.
  - rewrite (row_get_set_other "platform_mobile" "platform_unknown")
      by discriminate.
    erewrite row_get_set_same; [reflexivity|].
    rewrite !(row_get_set_other "platform_mobile") by discriminate. exact Hm.
  - erewrite row_get_set_same; [reflexivity|].
    rewrite !(row_get_set_other "platform_unknown") by discriminate. exact Hu.
Qed.

(** X23: when the lookup of [SaveVisitorStats] finds a row, the update
    leaves in the three platform counters of that row the three deltas of
    the entity, whatever the row held: the lookup selects [id] and
    [visitors] only, so each sum is taken from zero.  No row is added. *)
Theorem an_update_sets_the_platform_counters_to_the_delta (tx : option nat)
  (e : VisitorStats) (w : World) (db : Database) (f : Row) :
  target tx w = Some db ->
  conforming visitor_stats_schema (rows (visitor_stats db)) = true ->
  faults w = [] ->
  found_row (order w) (PerPage e) db = Some f ->
  - 2 ^ 63 <= PlatformDesktop e < 2 ^ 63 ->
  - 2 ^ 63 <= PlatformMobile e < 2 ^ 63 ->
  - 2 ^ 63 <= PlatformUnknown e < 2 ^ 63 ->
  exists w' db',
    SaveVisitorStats tx e w = Ret None w' /\ target tx w' = Some db' /\
    List.length (rows (visitor_stats db')) = List.length (rows (visitor_stats db)) /\
    exists r,
      In r (rows (visitor_stats db')) /\
      row_int "id" r = row_int "id" f /\
      row_int "platform_desktop" r = PlatformDesktop e /\
      row_int "platform_mobile" r = PlatformMobile e /\
      row_int "platform_unknown" r = PlatformUnknown e.
Proof.
  intros Ht Hc Hf Hfound Hd Hm Hu.
  destruct (Save_quiet tx (PerPage e) w db Ht Hc Hf) as [w' [Hrun [Ht' _]]].
  unfold merged in Ht'. rewrite Hfound in Ht'.
  exists w', (updated (PerPage e) f db).
  split; [exact Hrun|]. split; [exact Ht'|].
  pose proof (rows_updated (PerPage e) f db) as Hrows.
  cbn [table_of get_table] in Hrows. rewrite Hrows.
  split; [apply length_map|].
  apply found_row_Some in Hfound as [Hin _]. cbn [table_of get_table] in Hin.
  exists (bumped (PerPage e) f f). split; [|split].
  - apply in_map_iff. exists f. now rewrite Z.eqb_refl.
  - apply id_bumped.
  - destruct (platform_bumped e f f (conforming_In _ _ _ Hc Hin))
      as [-> [-> ->]].
    unfold int_add. cbn [Z.add]. now rewrite !wrap_int_small.
Qed.

Lemma an_update_sets_the_platform_counters_to_the_delta_witness :
  let db :=
    set_table T_visitor_stats (mkTable [page_a_row 1 3 2 1 0] 2) empty_database in
  let w := mkWorld db [] 0 [] [] 19800 [] [] in
  exists w' db',
    SaveVisitorStats None (page_a 2 0 2 0) w = Ret None w' /\
    target None w' = Some db' /\
    List.length (rows (visitor_stats db')) = 1%nat /\
    exists r,
      In r (rows (visitor_stats db')) /\
      row_int "id" r = 1 /\
      row_int "platform_desktop" r = 0 /\
      row_int "platform_mobile" r = 2 /\
      row_int "platform_unknown" r = 0.
Proof.
  apply (an_update_sets_the_platform_counters_to_the_delta None (page_a 2 0 2 0)
           (mkWorld
              (set_table T_visitor_stats (mkTable [page_a_row 1 3 2 1 0] 2)
                 empty_database) [] 0 [] [] 19800 [] [])
           (set_table T_visitor_stats (mkTable [page_a_row 1 3 2 1 0] 2)
              empty_database)
           (page_a_row 1 3 2 1 0));
    try reflexivity; cbn; lia.
Defined.

(** ** Two merges of one key *)

Lemma filter_map_swap {A B} (p : B -> bool) (g : A -> B) (l : list A) :
  filter p (map g l) = map g (filter (fun x => p (g x)) l).
Proof.
  induction l as [|x l IH]; [reflexivity|].
  cbn [map filter]. destruct (p (g x)); cbn [map]; now rewrite IH.
Qed.

Lemma hd_error_map {A B} (g : A -> B) (l : list A) :
  hd_error (map g l) = option_map g (hd_error l).
Proof. now destruct l. Qed.

(** After a merge, the lookup of a merge of the same key, up to letter case,
    finds the row that merge has written. *)
Lemma found_after_merged (order : list nat) (a b : entity) (db : Database) :
  differ_only_in_case a b = true ->
  found_row order b (merged order a db) = Some (written_row order a db).
Proof.
  intro Hcase. destruct (differ_only_in_case_keys a b Hcase) as [Htab _].
  unfold merged, written_row.
  destruct (found_row order a db) as [f|] eqn:E.
  - unfold found_row in *. rewrite <- Htab, rows_updated, filter_map_swap.
    rewrite (filter_ext _ (key_matches a)).
    + rewrite arrange_map, hd_error_map, E. cbn [option_map].
      now rewrite Z.eqb_refl.
    + intro r. rewrite (key_matches_case a b _ Hcase).
      destruct (_ =? _); [|reflexivity].
      now apply key_matches_bumped.
  - unfold found_row. rewrite <- Htab, rows_inserted, filter_app.
    replace (filter (key_matches b) (rows (get_table (table_of a) db)))
      with (@nil Row).
    + cbn [filter Datatypes.app].
      rewrite (key_matches_case a b _ Hcase), key_matches_entity_row.
      now rewrite arrange_one.
    + symmetry.
      assert (Hnone : forall r, In r (rows (get_table (table_of a) db)) ->
                                key_matches a r = false)
        by (intros r Hr; exact (found_row_None order a db r E Hr)).
      clear E. induction (rows (get_table (table_of a) db)) as [|r rs IH];
        [reflexivity|].
      cbn [filter]. rewrite (key_matches_case a b r Hcase).
      rewrite (Hnone r (or_introl eq_refl)).
      apply IH. intros x Hx. apply Hnone. now right.
Qed.









(** The same two merges with or without a transaction of the caller, on an
    engine that fails no call: the second finds the row the first has
    written and updates it. *)
Lemma two_merges_write_one_row (tx : option nat) (w : World) (db : Database)
  (a b : entity) :
  target tx w = Some db ->
  conforming (schema_of (table_of a)) (rows (get_table (table_of a) db)) = true ->
  faults w = [] ->
  differ_only_in_case a b = true ->
  let db1 := merged (order w) a db in
  let r1 := written_row (order w) a db in
  exists w1 w2,
    Save tx a w = Ret None w1 /\ target tx w1 = Some db1 /\
    found_row (order w1) b db1 = Some r1 /\
    Save tx b w1 = Ret None w2 /\ target tx w2 = Some (updated b r1 db1).
Proof.
  intros Ht Hc Hf Hcase. cbv zeta.
  destruct (differ_only_in_case_keys a b Hcase) as [Htab _].
  destruct (Save_quiet tx a w db Ht Hc Hf) as [w1 [Hrun1 [Ht1 [Hf1 [Ho1 _]]]]].
  pose proof (merged_conforming (order w) a db Hc) as Hc1.
  rewrite Htab in Hc1 at 1. rewrite Htab in Hc1 at 1.
  destruct (Save_quiet tx b w1 _ Ht1 Hc1 Hf1) as [w2 [Hrun2 [Ht2 _]]].
  pose proof (found_after_merged (order w) a b db Hcase) as Hfound.
  exists w1, w2. rewrite Ho1.
  split; [exact Hrun1|]. split; [exact Ht1|]. split; [exact Hfound|].
  split; [exact Hrun2|].
  rewrite Ht2, Ho1. unfold merged at 1. now rewrite Hfound.
Qed.
